(** * Etsy listing backend: the OAuth token lifecycle and the
      listing-creation pipeline of [server.js], embedded in Rocq.

    The handlers of the Express application are translated into functions
    of a state-and-exception monad over a [World] that holds everything the
    handlers touch: the token file, the in-memory PKCE store, the upstream
    HTTP service (an arbitrary function of the call number and the request),
    the log of upstream calls, the temporary image files and the response
    object of the request being served. *)

From Stdlib Require Import ZArith Ascii String Uint63 PrimFloat SpecFloat FloatOps.
From stdpp Require Import base option list strings gmap pretty.

Local Open Scope string_scope.
#[local] Set Warnings "-register-all".

(** ** JavaScript values

    Request bodies, upstream response bodies and the content of the token
    file are JSON; destructuring an absent field yields [undefined]. *)

Inductive jsval : Type :=
  | JUndefined
  | JNull
  | JBool (b : bool)
  | JNumber (x : float)
  | JString (s : string)
  | JArray (items : list jsval)
  | JObject (fields : list (string * jsval)).

Module Js.

(** Own-property lookup in the field list of an object literal. *)
Fixpoint assoc (k : string) (fs : list (string * jsval)) : jsval :=
  match fs with
  | [] => JUndefined
  | (k', v) :: fs' => if String.eqb k k' then v else assoc k fs'
  end.

(** [obj[k] = v] on a field list: overwrite in place or append. *)
Fixpoint assign (k : string) (v : jsval) (fs : list (string * jsval))
  : list (string * jsval) :=
  match fs with
  | [] => [(k, v)]
  | (k', v') :: fs' =>
      if String.eqb k k' then (k, v) :: fs' else (k', v') :: assign k v fs'
  end.

(** ToBoolean. *)
Definition truthy (v : jsval) : bool :=
  match v with
  | JUndefined | JNull => false
  | JBool b => b
  | JNumber x => negb (PrimFloat.eqb x 0) && negb (PrimFloat.is_nan x)
  | JString s => negb (String.eqb s "")
  | JArray _ | JObject _ => true
  end.

Definition falsy (v : jsval) : bool := negb (truthy v).

(** [a || b] and [a && b] on values. *)
Definition or (a b : jsval) : jsval := if truthy a then a else b.
Definition and (a b : jsval) : jsval := if truthy a then b else a.

Definition is_undefined (v : jsval) : bool :=
  match v with JUndefined => true | _ => false end.

Definition is_nullish (v : jsval) : bool :=
  match v with JUndefined | JNull => true | _ => false end.

(** [typeof v === "string"], [typeof v === "number"],
    [typeof v === "object"] (which is also true of [null] and of arrays),
    [Array.isArray v]. *)
Definition typeof_string (v : jsval) : bool :=
  match v with JString _ => true | _ => false end.
Definition typeof_number (v : jsval) : bool :=
  match v with JNumber _ => true | _ => false end.
Definition typeof_object (v : jsval) : bool :=
  match v with JNull | JArray _ | JObject _ => true | _ => false end.
Definition isArray (v : jsval) : bool :=
  match v with JArray _ => true | _ => false end.

(** [v?.k]: [undefined] on [undefined] and [null]; a primitive or an
    array has none of the JSON field names the program reads. *)
Definition optget (v : jsval) (k : string) : jsval :=
  match v with
  | JObject fs => assoc k fs
  | _ => JUndefined
  end.

(** White space of [String.prototype.trim], on code units below 256: a
    string of the model is a sequence of such code units, so the white
    space above U+00FF does not occur in it. *)
Definition is_space (c : ascii) : bool :=
  let n := nat_of_ascii c in
  (Nat.leb 9 n && Nat.leb n 13) || Nat.eqb n 32 || Nat.eqb n 160.

Fixpoint trim_start (s : string) : string :=
  match s with
  | String c s' => if is_space c then trim_start s' else s
  | EmptyString => EmptyString
  end.

Definition trim (s : string) : string :=
  String.rev (trim_start (String.rev (trim_start s))).

(** [s.includes(pat)] on strings. *)
Fixpoint str_includes (s pat : string) : bool :=
  if String.prefix pat s then true
  else match s with
       | EmptyString => false
       | String _ s' => str_includes s' pat
       end.

(** [[lit1, lit2, ...].includes(v)] for an array of string literals:
    SameValueZero makes only an equal string a member. *)
Definition one_of (lits : list string) (v : jsval) : bool :=
  match v with
  | JString s => existsb (String.eqb s) lits
  | _ => false
  end.

(** [isNaN x], [Number.isInteger x] on numbers. *)
Definition isNaN (x : float) : bool := PrimFloat.is_nan x.

Definition isInteger (x : float) : bool :=
  match Prim2SF x with
  | S754_zero _ => true
  | S754_finite _ m e =>
      (0 <=? e)%Z || (Z.pos m mod 2 ^ (- e) =? 0)%Z
  | S754_infinity _ | S754_nan => false
  end.

(** Own property: [k] is a key of the field list. *)
Definition has_own (k : string) (fs : list (string * jsval)) : bool :=
  existsb (fun kv => String.eqb (fst kv) k) fs.

(** Whether ToPrimitive succeeds on a value that came out of
    [JSON.parse]. On an object the conversion ends with the [toString]
    method: the one of [Object.prototype], unless the object has a
    [toString] property of its own, which is never a function, and then
    the conversion throws a TypeError ([valueOf], own or inherited,
    yields no primitive). On an array [Array.prototype.toString] converts
    every element other than [null]. *)
Fixpoint convertible (v : jsval) : bool :=
  match v with
  | JObject fs => negb (has_own "toString" fs)
  | JArray items => forallb convertible items
  | _ => true
  end.

End Js.

(** ** Errors, upstream calls, and the world the handlers run in *)

(** An axios response as the program reads it: [status] and [data]. *)
Record HttpResponse := { status : Z; data : jsval }.

(** A thrown error: [err.response] (present when the failed call carried
    a response) and [err.message]. Errors raised by the runtime itself
    (TypeError, SyntaxError, fs errors) carry no response. *)
Record JsError := { response : option HttpResponse; message : string }.

Definition errorOf (msg : string) : JsError :=
  {| response := None; message := msg |}.

(** The program reads [response] and [message] only, never the class of
    an error. *)
Definition TypeError : string -> JsError := errorOf.
Definition SyntaxError : string -> JsError := errorOf.
Definition SystemError : string -> JsError := errorOf.

(** The upstream calls the program issues, one constructor per call site. *)
Inductive HttpRequest : Type :=
  | TokenExchange (code : string) (code_verifier : jsval)
  | TokenRefresh (refresh_token : jsval)
  | UsersMe (access_token : jsval)
  | CreateListing (access_token : jsval) (payload : jsval)
  | DownloadImage (url : jsval)
  | UploadImage (access_token listing_id : jsval) (localPath rank : string)
  | UpdateInventory (access_token listing_id : jsval) (payload : jsval)
  | UploadVideo (access_token listing_id : jsval).

Inductive HttpResult : Type :=
  | Resolved (r : HttpResponse)
  | Rejected (e : JsError).

(** The token file, seen through [fs.existsSync], [fs.readFileSync] and
    [JSON.parse]: a text is either rejected by the parser or denotes a
    value. *)
Inductive FileText : Type :=
  | Malformed
  | Encodes (v : jsval).

Inductive FileState : Type :=
  | Missing
  | Unreadable
  | Content (t : FileText).

Record PkceEntry := { code_verifier : string; createdAt : nat }.

(** What [res.send] and [res.json] put on the wire. *)
Inductive ResBody : Type :=
  | Text (s : string)
  | JsonBody (v : jsval).

Record Response := { res_status : Z; res_body : ResBody }.

Record World := {
  tokenFile : FileState;
  pkceStore : gmap string PkceEntry;
  upstream : nat -> HttpRequest -> HttpResult;
  calls : list HttpRequest;
  entropy : nat -> string;
  drawn : nat;
  tmpDir : bool;
  tmpFiles : list string;
  videoFile : bool;
  slept : nat;
  res : option Response
}.

Definition set_tokenFile (f : FileState) (w : World) : World :=
  {| tokenFile := f; pkceStore := pkceStore w; upstream := upstream w;
     calls := calls w; entropy := entropy w; drawn := drawn w;
     tmpDir := tmpDir w; tmpFiles := tmpFiles w; videoFile := videoFile w;
     slept := slept w; res := res w |}.

Definition set_pkceStore (m : gmap string PkceEntry) (w : World) : World :=
  {| tokenFile := tokenFile w; pkceStore := m; upstream := upstream w;
     calls := calls w; entropy := entropy w; drawn := drawn w;
     tmpDir := tmpDir w; tmpFiles := tmpFiles w; videoFile := videoFile w;
     slept := slept w; res := res w |}.

Definition set_calls (l : list HttpRequest) (w : World) : World :=
  {| tokenFile := tokenFile w; pkceStore := pkceStore w; upstream := upstream w;
     calls := l; entropy := entropy w; drawn := drawn w;
     tmpDir := tmpDir w; tmpFiles := tmpFiles w; videoFile := videoFile w;
     slept := slept w; res := res w |}.

Definition set_drawn (n : nat) (w : World) : World :=
  {| tokenFile := tokenFile w; pkceStore := pkceStore w; upstream := upstream w;
     calls := calls w; entropy := entropy w; drawn := n;
     tmpDir := tmpDir w; tmpFiles := tmpFiles w; videoFile := videoFile w;
     slept := slept w; res := res w |}.

Definition set_tmpDir (b : bool) (w : World) : World :=
  {| tokenFile := tokenFile w; pkceStore := pkceStore w; upstream := upstream w;
     calls := calls w; entropy := entropy w; drawn := drawn w;
     tmpDir := b; tmpFiles := tmpFiles w; videoFile := videoFile w;
     slept := slept w; res := res w |}.

Definition set_tmpFiles (l : list string) (w : World) : World :=
  {| tokenFile := tokenFile w; pkceStore := pkceStore w; upstream := upstream w;
     calls := calls w; entropy := entropy w; drawn := drawn w;
     tmpDir := tmpDir w; tmpFiles := l; videoFile := videoFile w;
     slept := slept w; res := res w |}.

Definition set_slept (n : nat) (w : World) : World :=
  {| tokenFile := tokenFile w; pkceStore := pkceStore w; upstream := upstream w;
     calls := calls w; entropy := entropy w; drawn := drawn w;
     tmpDir := tmpDir w; tmpFiles := tmpFiles w; videoFile := videoFile w;
     slept := n; res := res w |}.

Definition set_res (r : option Response) (w : World) : World :=
  {| tokenFile := tokenFile w; pkceStore := pkceStore w; upstream := upstream w;
     calls := calls w; entropy := entropy w; drawn := drawn w;
     tmpDir := tmpDir w; tmpFiles := tmpFiles w; videoFile := videoFile w;
     slept := slept w; res := r |}.

(** ** The monad of handlers: state passing with exceptions *)

Inductive Outcome (A : Type) : Type :=
  | Ret (a : A)
  | Throw (e : JsError).
Arguments Ret {A} a.
Arguments Throw {A} e.

Definition M (A : Type) : Type := World -> Outcome A * World.

Definition ret {A} (a : A) : M A := fun w => (Ret a, w).
Definition throw {A} (e : JsError) : M A := fun w => (Throw e, w).

Definition bind {A B} (m : M A) (k : A -> M B) : M B :=
  fun w => match m w with
           | (Ret a, w') => k a w'
           | (Throw e, w') => (Throw e, w')
           end.

#[export] Instance M_ret : MRet M := @ret.
#[export] Instance M_bind : MBind M := fun A B k m => bind m k.

(** [try { m } catch (err) { h err }] *)
Definition try_catch {A} (m : M A) (h : JsError -> M A) : M A :=
  fun w => match m w with
           | (Ret a, w') => (Ret a, w')
           | (Throw e, w') => h e w'
           end.

(** [try { m } finally { f }], for a [finally] block that completes
    normally: the outcome of [m] stands unless [f] itself throws. *)
Definition try_finally {A} (m : M A) (f : M unit) : M A :=
  fun w => match m w with
           | (o, w') => match f w' with
                        | (Ret _, w'') => (o, w'')
                        | (Throw e, w'') => (Throw e, w'')
                        end
           end.

Definition gets {A} (f : World -> A) : M A := fun w => (Ret (f w), w).
Definition modify (f : World -> World) : M unit := fun w => (Ret tt, f w).

(** [await axios.<method>(...)]: the call is logged, and the upstream
    answers as a function of how many calls came before and of the call. *)
Definition axios (rq : HttpRequest) : M HttpResponse :=
  fun w => let w' := set_calls (calls w ++ [rq]) w in
           match upstream w (length (calls w)) rq with
           | Resolved r => (Ret r, w')
           | Rejected e => (Throw e, w')
           end.

(** [await new Promise((resolve) => setTimeout(resolve, ms))] *)
Definition sleep (ms : nat) : M unit :=
  modify (fun w => set_slept (slept w + ms) w).

(** [res.status(s).send(text)] and [res.status(s).json(v)] *)
Definition send (s : Z) (b : ResBody) : M unit :=
  modify (set_res (Some {| res_status := s; res_body := b |})).

(** [v.k]: a TypeError on [undefined] and [null]. *)
Definition prop (v : jsval) (k : string) : M jsval :=
  if Js.is_nullish v
  then throw (TypeError ("Cannot read properties of undefined (reading '" ++ k ++ "')"))
  else ret (Js.optget v k).

(** [v.k = x], in sloppy mode: a TypeError on [undefined] and [null],
    silently dropped on a primitive; on an array the property is set but
    is not an index, so [JSON.stringify] never sees it. *)
Definition assignProp (v : jsval) (k : string) (x : jsval) : M jsval :=
  match v with
  | JUndefined | JNull =>
      throw (TypeError ("Cannot set properties of undefined (setting '" ++ k ++ "')"))
  | JObject fs => ret (JObject (Js.assign k x fs))
  | _ => ret v
  end.

(** [v.includes(pat)]: substring on a string, membership on an array,
    and a TypeError on anything else, whose message names the callee as
    the source writes it: "<callee> is not a function". *)
Definition includes (callee : string) (v : jsval) (pat : string) : M bool :=
  match v with
  | JString s => ret (Js.str_includes s pat)
  | JArray items => ret (existsb (fun x => Js.one_of [pat] x) items)
  | _ => throw (TypeError (callee ++ " is not a function"))
  end.

(** [v?.includes(pat)] *)
Definition optIncludes (callee : string) (v : jsval) (pat : string) : M bool :=
  if Js.is_nullish v then ret false else includes callee v pat.

(** ** The token store *)

(** What [JSON.parse(JSON.stringify(v, null, 2))] gives back: fields
    holding [undefined] are dropped, [undefined] in an array and numbers
    that are not finite become [null], and [-0] is written as [0]. *)
Fixpoint jsonify (v : jsval) : jsval :=
  match v with
  | JNumber x =>
      match Prim2SF x with
      | S754_zero _ => JNumber 0
      | S754_finite _ _ _ => JNumber x
      | S754_infinity _ | S754_nan => JNull
      end
  | JArray items =>
      JArray (map (fun x => match x with
                            | JUndefined => JNull
                            | _ => jsonify x
                            end) items)
  | JObject fields =>
      JObject ((fix go (fs : list (string * jsval)) :=
                  match fs with
                  | [] => []
                  | (k, JUndefined) :: fs' => go fs'
                  | (k, x) :: fs' => (k, jsonify x) :: go fs'
                  end) fields)
  | _ => v
  end.

Definition existsSync_tokenFile : M bool :=
  gets (fun w => match tokenFile w with Missing => false | _ => true end).

Definition readFileSync_tokenFile : M FileText :=
  fun w => match tokenFile w with
           | Missing =>
               (Throw (SystemError "ENOENT: no such file or directory"), w)
           | Unreadable =>
               (Throw (SystemError "EACCES: permission denied"), w)
           | Content t => (Ret t, w)
           end.

Definition JSON_parse (t : FileText) : M jsval :=
  match t with
  | Malformed => throw (SyntaxError "Unexpected token in JSON")
  | Encodes v => ret v
  end.

Definition readTokens : M jsval :=
  ex ← existsSync_tokenFile;
  if negb (ex : bool) then ret (JObject [])
  else try_catch (t ← readFileSync_tokenFile; JSON_parse t)
                 (fun e : JsError => ret (JObject [])).

(** [JSON.stringify(undefined)] is [undefined], which [fs.writeFileSync]
    refuses; any other value is written. *)
Definition saveTokens (obj : jsval) : M unit :=
  match obj with
  | JUndefined =>
      throw (TypeError "The data argument must be of type string")
  | _ => modify (set_tokenFile (Content (Encodes (jsonify obj))))
  end.

(** ** GET /auth/callback *)

(** The query string of the callback; an absent parameter is [None]. *)
Record CallbackQuery := {
  q_code : option string;
  q_state : option string;
  q_error : option string;
  q_error_description : option string
}.

(** Truthiness of a query parameter. *)
Definition present (p : option string) : bool :=
  match p with
  | Some s => negb (String.eqb s "")
  | None => false
  end.

Definition param (p : option string) : string := default "" p.

(** [const pkceStore = {}] is a plain object: [pkceStore[state]] finds
    the entry stored under [state], and otherwise whatever
    [Object.prototype] has under that name. *)
Definition objectPrototype : list string :=
  [ "constructor"; "__proto__"; "hasOwnProperty"; "isPrototypeOf";
    "propertyIsEnumerable"; "toLocaleString"; "toString"; "valueOf";
    "__defineGetter__"; "__defineSetter__"; "__lookupGetter__";
    "__lookupSetter__" ].

Inductive Slot : Type :=
  | Own (e : PkceEntry)
  | Inherited
  | Absent.

Definition pkceGet (store : gmap string PkceEntry) (k : string) : Slot :=
  match store !! k with
  | Some e => Own e
  | None => if existsb (String.eqb k) objectPrototype then Inherited else Absent
  end.

(** [const { code_verifier } = entry] *)
Definition verifierOf (s : Slot) : jsval :=
  match s with
  | Own e => JString (code_verifier e)
  | Inherited | Absent => JUndefined
  end.

Definition msg_missing_code : string := "Missing code or state".
Definition msg_missing_verifier : string :=
  "Missing PKCE verifier for this state. Try logging in again.".
Definition msg_exchange_failed : string :=
  "Token exchange failed. Check server logs for details.".

Definition authCallback (q : CallbackQuery) : M unit :=
  if present (q_error q) then
    send 400 (Text ("Auth error: " ++ param (q_error q) ++ " - "
                      ++ param (q_error_description q)))
  else if negb (present (q_code q)) || negb (present (q_state q)) then
    send 400 (Text msg_missing_code)
  else
    let state := param (q_state q) in
    entry ← gets (fun w => pkceGet (pkceStore w) state);
    match entry with
    | Absent => send 400 (Text msg_missing_verifier)
    | _ =>
        modify (fun w => set_pkceStore (delete state (pkceStore w)) w);;
        try_catch
          (tokenResp ← axios (TokenExchange (param (q_code q)) (verifierOf entry));
           let tokens := data tokenResp in
           store ← readTokens;
           store ← assignProp store "etsy" tokens;
           saveTokens store;;
           scope ← prop tokens "scope";
           expires_in ← prop tokens "expires_in";
           send 200 (JsonBody (JObject
             [ ("message", JString "OAuth success — tokens saved (demo).");
               ("scope", scope); ("expires_in", expires_in) ])))
          (fun err : JsError => send 500 (Text msg_exchange_failed))
    end.

(** ** POST /token/refresh *)

Definition msg_no_refresh_token : string :=
  "No refresh token stored. Re-authenticate.".

Definition tokenRefresh : M unit :=
  store ← readTokens;
  let refresh_token := Js.optget (Js.optget store "etsy") "refresh_token" in
  if Js.falsy refresh_token then send 400 (Text msg_no_refresh_token)
  else
    try_catch
      (r ← axios (TokenRefresh refresh_token);
       let tokens := data r in
       store ← assignProp store "etsy" tokens;
       saveTokens store;;
       expires_in ← prop tokens "expires_in";
       send 200 (JsonBody (JObject
         [ ("message", JString "Refreshed tokens saved");
           ("expires_in", expires_in) ])))
      (fun err : JsError => send 500 (Text "Token refresh failed.")).

(** ** Access-token helpers *)

Definition getAccessTokenOr401 : M jsval :=
  store ← readTokens;
  let access_token := Js.optget (Js.optget store "etsy") "access_token" in
  if Js.falsy access_token then
    send 401 (Text "No access token available. Authenticate via /auth/login");;
    ret JNull
  else ret access_token.

(** [err.response?.data] *)
Definition responseData (err : JsError) : jsval :=
  match response err with
  | Some r => data r
  | None => JUndefined
  end.

(** The condition of the [if] in the [catch] of [getValidAccessToken]. *)
Definition signalsExpired (err : JsError) : M bool :=
  match Js.optget (responseData err) "error" with
  | JString "invalid_token" => ret true
  | _ => optIncludes "err.response?.data?.error_description?.includes"
           (Js.optget (responseData err) "error_description") "expired"
  end.

Definition getValidAccessToken : M jsval :=
  access_token ← getAccessTokenOr401;
  if Js.falsy access_token then ret JNull
  else
    try_catch
      (axios (UsersMe access_token);; ret access_token)
      (fun err : JsError =>
         expired ← signalsExpired err;
         if (expired : bool) then
           try_catch
             (store ← readTokens;
              let refresh_token :=
                Js.optget (Js.optget store "etsy") "refresh_token" in
              if Js.falsy refresh_token then ret JNull
              else
                r ← axios (TokenRefresh refresh_token);
                let tokens := data r in
                store ← assignProp store "etsy" tokens;
                saveTokens store;;
                prop tokens "access_token")
             (fun refreshErr : JsError =>
                send 401 (Text "Token refresh failed. Re-authenticate.");;
                ret JNull)
         else throw err).

(** ** POST /listings *)

Section Listings.

(** The parts of the host the handler calls and the configuration it
    reads: the ECMAScript conversions StringToNumber (of [Number(s)]) and
    ToString (of [String(v)], of a template literal and of the argument of
    [RegExp.prototype.test]) on values that are not strings, Node's
    [path.extname], and the [SHOP_ID] environment variable. *)
Variable StringToNumber : string -> float.
Variable ToString : jsval -> string.
Variable extname : string -> string.
Variable SHOP_ID : option string.

(** [String(v)] *)
Definition String_ (v : jsval) : string :=
  match v with
  | JString s => s
  | _ => ToString v
  end.

(** The number that [Number(v)] returns. On an array or an object that
    cannot be converted the call throws and returns nothing (see
    [callNumber], which is what the handlers run): there the function is
    given the value NaN, so that a body in which [validate] finds no
    error is one on which no conversion throws. *)
Definition Number (v : jsval) : float :=
  match v with
  | JUndefined => PrimFloat.nan
  | JNull => 0
  | JBool b => if b then 1 else 0
  | JNumber x => x
  | JString s => StringToNumber s
  | JArray _ | JObject _ =>
      if Js.convertible v then StringToNumber (ToString v) else PrimFloat.nan
  end.

Definition cannotConvert : JsError :=
  TypeError "Cannot convert object to primitive value".

(** The calls [Number(v)] and [String(v)] (and the conversion of the
    argument of [RegExp.prototype.test]): a TypeError where ToPrimitive
    fails, the value otherwise. *)
Definition callNumber (v : jsval) : M float :=
  if Js.convertible v then ret (Number v) else throw cannotConvert.

Definition callString (v : jsval) : M string :=
  if Js.convertible v then ret (String_ v) else throw cannotConvert.

Definition validPositiveNumber (val : jsval) : bool :=
  match val with
  | JNumber x => PrimFloat.ltb 0 x
  | _ => false
  end.

(** [if (c) errors.push(msg)] *)
Definition pushIf (c : bool) (msg : string) (errors : list string)
  : list string :=
  if c then errors ++ [msg] else errors.

(** [!v || typeof v !== "string" || !v.trim()] *)
Definition blankText (v : jsval) : bool :=
  Js.falsy v
  || negb (Js.typeof_string v)
  || match v with
     | JString s => String.eqb (Js.trim s) ""
     | _ => true
     end.

(** [v === "physical"] *)
Definition isPhysical (v : jsval) : bool :=
  match v with
  | JString s => String.eqb s "physical"
  | _ => false
  end.

Definition who_made_values : list string :=
  [ "i_did"; "someone_else"; "collective" ].

Definition when_made_values : list string :=
  [ "made_to_order"; "2020_2024"; "2010_2019"; "2006_2009"; "before_2006";
    "2000_2005"; "1990s"; "1980s"; "1970s"; "1960s"; "1950s"; "1940s";
    "1930s"; "1920s"; "1910s"; "1900s"; "1800s"; "1700s"; "before_1700" ].

Definition type_values : list string := [ "physical"; "download"; "both" ].
Definition weight_units : list string := [ "oz"; "lb"; "g"; "kg" ].
Definition dimension_units : list string :=
  [ "in"; "ft"; "mm"; "cm"; "m"; "yd"; "inches" ].

Definition err_title : string := "title is required".
Definition err_description : string := "description is required".
Definition err_price : string := "price must be a positive number".
Definition err_quantity : string := "quantity must be a positive integer".
Definition err_who_made : string :=
  "who_made must be one of: i_did, someone_else, collective".
Definition err_when_made : string := "Invalid when_made value".
Definition err_sku : string := "Sku required".
Definition err_taxonomy : string := "taxonomy_id must be a positive integer".
Definition err_type : string :=
  "type must be one of: physical, download, both".
Definition err_weight_unit : string :=
  "item_weight_unit must be one of: oz, lb, g, kg".
Definition err_dimensions_unit : string :=
  "item_dimensions_unit must be one of: in, ft, mm, cm, m, yd, inches".
Definition err_item_weight : string :=
  "item_weight must be a positive number if set".
Definition err_item_length : string :=
  "item_length must be a positive number if set".
Definition err_item_width : string :=
  "item_width must be a positive number if set".
Definition err_item_height : string :=
  "item_height must be a positive number if set".

(** [if (v !== undefined && !validPositiveNumber(v)) errors.push(msg)] *)
Definition pushDimension (v : jsval) (msg : string) (errors : list string)
  : list string :=
  pushIf (negb (Js.is_undefined v) && negb (validPositiveNumber v)) msg errors.

(** The [errors] array that the validation block builds from the
    destructured body ([body] is [req.body || {}]), when the block runs
    to its end. *)
Definition validate (body : jsval) : list string :=
  let f := Js.optget body in
  let errors := [] in
  let errors := pushIf (blankText (f "title")) err_title errors in
  let errors := pushIf (blankText (f "description")) err_description errors in
  let errors :=
    pushIf (Js.is_undefined (f "price")
            || Js.isNaN (Number (f "price"))
            || PrimFloat.leb (Number (f "price")) 0) err_price errors in
  let errors :=
    pushIf (Js.is_undefined (f "quantity")
            || Js.isNaN (Number (f "quantity"))
            || negb (Js.isInteger (Number (f "quantity")))
            || PrimFloat.leb (Number (f "quantity")) 0) err_quantity errors in
  let errors :=
    pushIf (Js.falsy (f "who_made")
            || negb (Js.one_of who_made_values (f "who_made")))
           err_who_made errors in
  let errors :=
    pushIf (Js.falsy (f "when_made")
            || negb (Js.one_of when_made_values (f "when_made")))
           err_when_made errors in
  let errors := pushIf (Js.falsy (f "sku")) err_sku errors in
  let errors :=
    pushIf (Js.falsy (f "taxonomy_id")
            || Js.isNaN (Number (f "taxonomy_id"))
            || PrimFloat.ltb (Number (f "taxonomy_id")) 1)
           err_taxonomy errors in
  let errors :=
    pushIf (Js.truthy (f "type") && negb (Js.one_of type_values (f "type")))
           err_type errors in
  let errors :=
    pushIf (Js.truthy (f "item_weight_unit")
            && negb (Js.one_of weight_units (f "item_weight_unit")))
           err_weight_unit errors in
  let errors :=
    pushIf (Js.truthy (f "item_dimensions_unit")
            && negb (Js.one_of dimension_units (f "item_dimensions_unit")))
           err_dimensions_unit errors in
  if isPhysical (f "type") then
    let errors := pushDimension (f "item_weight") err_item_weight errors in
    let errors := pushDimension (f "item_length") err_item_length errors in
    let errors := pushDimension (f "item_width") err_item_width errors in
    pushDimension (f "item_height") err_item_height errors
  else errors.

(** [a || b], where evaluating [b] may throw. *)
Definition orElse (a : bool) (b : M bool) : M bool :=
  if a then ret true else b.

(** The validation block as the handler runs it: each [Number(...)] is a
    call, made when the conditions before it in its [||] chain are
    false, and a call that throws ends the block, which stands outside
    the handler's [try]. *)
Definition validation (body : jsval) : M (list string) :=
  let f := Js.optget body in
  let errors := [] in
  let errors := pushIf (blankText (f "title")) err_title errors in
  let errors := pushIf (blankText (f "description")) err_description errors in
  bad ← orElse (Js.is_undefined (f "price"))
          (x ← callNumber (f "price");
           orElse (Js.isNaN x)
             (y ← callNumber (f "price"); ret (PrimFloat.leb y 0)));
  let errors := pushIf bad err_price errors in
  bad ← orElse (Js.is_undefined (f "quantity"))
          (x ← callNumber (f "quantity");
           orElse (Js.isNaN x)
             (y ← callNumber (f "quantity");
              orElse (negb (Js.isInteger y))
                (z ← callNumber (f "quantity"); ret (PrimFloat.leb z 0))));
  let errors := pushIf bad err_quantity errors in
  let errors :=
    pushIf (Js.falsy (f "who_made")
            || negb (Js.one_of who_made_values (f "who_made")))
           err_who_made errors in
  let errors :=
    pushIf (Js.falsy (f "when_made")
            || negb (Js.one_of when_made_values (f "when_made")))
           err_when_made errors in
  let errors := pushIf (Js.falsy (f "sku")) err_sku errors in
  bad ← orElse (Js.falsy (f "taxonomy_id"))
          (x ← callNumber (f "taxonomy_id");
           orElse (Js.isNaN x)
             (y ← callNumber (f "taxonomy_id"); ret (PrimFloat.ltb y 1)));
  let errors := pushIf bad err_taxonomy errors in
  let errors :=
    pushIf (Js.truthy (f "type") && negb (Js.one_of type_values (f "type")))
           err_type errors in
  let errors :=
    pushIf (Js.truthy (f "item_weight_unit")
            && negb (Js.one_of weight_units (f "item_weight_unit")))
           err_weight_unit errors in
  let errors :=
    pushIf (Js.truthy (f "item_dimensions_unit")
            && negb (Js.one_of dimension_units (f "item_dimensions_unit")))
           err_dimensions_unit errors in
  ret (if isPhysical (f "type") then
         let errors := pushDimension (f "item_weight") err_item_weight errors in
         let errors := pushDimension (f "item_length") err_item_length errors in
         let errors := pushDimension (f "item_width") err_item_width errors in
         pushDimension (f "item_height") err_item_height errors
       else errors).

(** The fields copied into the draft payload, in the order of the object
    literal. *)
Definition payload_fields : list string :=
  [ "title"; "description"; "price"; "quantity"; "who_made"; "when_made";
    "taxonomy_id"; "shipping_profile_id"; "return_policy_id"; "materials";
    "shop_section_id"; "processing_min"; "processing_max";
    "readiness_state_id"; "tags"; "styles"; "is_personalizable";
    "personalization_is_required"; "personalization_char_count_max";
    "personalization_instructions"; "production_partner_ids"; "image_ids";
    "is_supply"; "is_customizable"; "should_auto_renew"; "is_taxable";
    "type"; "legacy" ].

(** The minimal inventory built from [sku], [price] and [quantity]. *)
Definition skuProduct (sku price quantity : jsval) : jsval :=
  JObject [ ("sku", sku); ("property_values", JArray []);
            ("offerings", JArray [ JObject [ ("price", price);
                                             ("quantity", quantity);
                                             ("is_enabled", JBool true) ] ]) ].

(** [if (c) payload[k] = v] *)
Definition setIf (c : bool) (k : string) (v : jsval)
  (fs : list (string * jsval)) : list (string * jsval) :=
  if c then Js.assign k v fs else fs.

(** The payload of the draft-creation call, [undefined] fields removed. *)
Definition buildPayload (body : jsval) : jsval :=
  let f := Js.optget body in
  let payload := map (fun k => (k, f k)) payload_fields in
  let payload :=
    if isPhysical (f "type") then
      let p := setIf (validPositiveNumber (f "item_weight"))
                     "item_weight" (f "item_weight") payload in
      let p := setIf (validPositiveNumber (f "item_length"))
                     "item_length" (f "item_length") p in
      let p := setIf (validPositiveNumber (f "item_width"))
                     "item_width" (f "item_width") p in
      let p := setIf (validPositiveNumber (f "item_height"))
                     "item_height" (f "item_height") p in
      let p := setIf (Js.truthy (f "item_weight_unit"))
                     "item_weight_unit" (f "item_weight_unit") p in
      setIf (Js.truthy (f "item_dimensions_unit"))
            "item_dimensions_unit" (f "item_dimensions_unit") p
    else payload in
  let payload :=
    if Js.truthy (f "inventory") && Js.typeof_object (f "inventory") then
      Js.assign "inventory" (f "inventory") payload
    else if Js.truthy (f "sku") then
      Js.assign "inventory"
        (JObject [ ("products",
                    JArray [ skuProduct (f "sku") (f "price") (f "quantity") ]) ])
        payload
    else payload in
  JObject (List.filter (fun kv => negb (Js.is_undefined (snd kv))) payload).

(** *** Image upload with retry *)

Definition lowercase (c : ascii) : ascii :=
  let n := nat_of_ascii c in
  if Nat.leb 65 n && Nat.leb n 90 then ascii_of_nat (n + 32) else c.

Fixpoint lowercased (s : string) : string :=
  match s with
  | EmptyString => EmptyString
  | String c s' => String (lowercase c) (lowercased s')
  end.

(** [/^https?:\/\//i.test(str)] *)
Definition isUrl (str : string) : bool :=
  String.prefix "http://" (lowercased str)
  || String.prefix "https://" (lowercased str).

Definition transient : string := "is being edited by another process".

(** The variables of [uploadImageWithRetry] that outlive an iteration. *)
Record Locals := { localPath : jsval; tempFile : option string }.

(** How an iteration of the [while] loop ends. *)
Inductive Completion : Type :=
  | Return_ (v : jsval)
  | Continue_
  | Break_.

(** [crypto.randomBytes(8).toString("hex")] *)
Definition randomHex : M string :=
  fun w => (Ret (entropy w (drawn w)), set_drawn (S (drawn w)) w).

Definition writeTemp (name : string) : M unit :=
  modify (fun w => if existsb (String.eqb name) (tmpFiles w) then w
                   else set_tmpFiles (name :: tmpFiles w) w).

(** [if (tempFile && fs.existsSync(tempFile)) fs.unlinkSync(tempFile)] *)
Definition unlinkTemp (tempFile : option string) : M unit :=
  match tempFile with
  | Some name =>
      modify (fun w => set_tmpFiles
                (List.filter (fun n => negb (String.eqb n name)) (tmpFiles w)) w)
  | None => ret tt
  end.

(** The [if (isUrl(filePath)) { ... }] block that opens the [try]. *)
Definition download (filePath : jsval) (l : Locals) : M Locals :=
  str ← callString filePath;
  if isUrl str then
    axios (DownloadImage filePath);;
    match filePath with
    | JString p =>
        hex ← randomHex;
        let ext := if String.eqb (extname p) "" then ".jpg" else extname p in
        let name := hex ++ ext in
        writeTemp name;;
        ret {| localPath := JString name; tempFile := Some name |}
    | _ =>
        throw (TypeError "The path argument must be of type string")
    end
  else ret l.

(** The rest of the [try] block: the upload itself. *)
Definition upload (access_token listing_id : jsval) (i : nat) (l : Locals)
  : M Completion :=
  match localPath l with
  | JString p =>
      imgResp ← axios (UploadImage access_token listing_id p (pretty (i + 1)));
      let id := Js.and (data imgResp)
                       (Js.optget (data imgResp) "listing_image_id") in
      if Js.truthy id then
        unlinkTemp (tempFile l);;
        str ← callString id;
        ret (Return_ (JString str))
      else ret Break_
  | _ => throw (TypeError "The path argument must be of type string")
  end.

(** The [try] block, with the variables as it leaves them: it either
    completes or hands an error to the [catch] block. *)
Definition tryBlock (access_token listing_id filePath : jsval) (i : nat)
  (l : Locals) : M (Locals * Outcome Completion) :=
  fun w => match download filePath l w with
           | (Throw e, w') => (Ret (l, Throw e), w')
           | (Ret l', w') =>
               match upload access_token listing_id i l' w' with
               | (o, w'') => (Ret (l', o), w'')
               end
           end.

(** [imgErr.response?.data?.error || imgErr.message] *)
Definition errorMsgOf (imgErr : JsError) : jsval :=
  Js.or (Js.optget (responseData imgErr) "error") (JString (message imgErr)).

Definition catchBlock (attempt maxRetries : nat) (imgErr : JsError)
  : M Completion :=
  let errorMsg := errorMsgOf imgErr in
  if Js.truthy errorMsg then
    locked ← includes "errorMsg.includes" errorMsg transient;
    if (locked : bool) && Nat.ltb attempt (maxRetries - 1) then
      sleep 2000;; ret Continue_
    else ret Break_
  else ret Break_.

Definition iteration (access_token listing_id filePath : jsval)
  (i attempt maxRetries : nat) (l : Locals) : M (Completion * Locals) :=
  r ← tryBlock access_token listing_id filePath i l;
  c ← try_finally
        (match snd (r : Locals * Outcome Completion) with
         | Ret c => ret c
         | Throw imgErr => catchBlock attempt maxRetries imgErr
         end)
        (unlinkTemp (tempFile (fst r)));
  ret (c, fst r).

(** [while (attempt < maxRetries) { ... } return null]; [k] is
    [maxRetries - attempt], which each [continue] decreases. *)
Fixpoint retryLoop (k : nat) (access_token listing_id filePath : jsval)
  (i attempt maxRetries : nat) (l : Locals) : M jsval :=
  match k with
  | 0 => ret JNull
  | S k' =>
      r ← iteration access_token listing_id filePath i attempt maxRetries l;
      match fst (r : Completion * Locals) with
      | Return_ v => ret v
      | Continue_ =>
          retryLoop k' access_token listing_id filePath i (S attempt)
                    maxRetries (snd r)
      | Break_ => ret JNull
      end
  end.

Definition uploadImageWithRetry (access_token listing_id filePath : jsval)
  (i maxRetries : nat) : M jsval :=
  retryLoop maxRetries access_token listing_id filePath i 0 maxRetries
            {| localPath := filePath; tempFile := None |}.

(** [for (let i = 0; i < image_files.length; i++) { ... }], from index
    [i] on, with [uploadedImageIds] as collected so far. *)
Fixpoint uploadAll (access_token listing_id : jsval) (files : list jsval)
  (i : nat) (uploadedImageIds : list jsval) : M (list jsval) :=
  match files with
  | [] => ret uploadedImageIds
  | filePath :: rest =>
      imageId ← uploadImageWithRetry access_token listing_id filePath i 3;
      uploadAll access_token listing_id rest (S i)
        (if Js.truthy imageId then uploadedImageIds ++ [imageId]
         else uploadedImageIds)
  end.

(** *** The handler *)

(** [if (!fs.existsSync(tmpDir)) fs.mkdirSync(tmpDir)] *)
Definition ensureTmpDir : M unit := modify (set_tmpDir true).

(** The image step: runs when [image_files] is a non-empty array and
    [listing.listing_id] and [SHOP_ID] are truthy. *)
Definition uploadImages (access_token listing : jsval) (image_files : jsval)
  : M (list jsval) :=
  match image_files with
  | JArray ((_ :: _) as files) =>
      listing_id ← prop listing "listing_id";
      if Js.truthy listing_id && present SHOP_ID then
        sleep 2000;;
        uploadAll access_token listing_id files 0 []
      else ret []
  | _ => ret []
  end.

(** The video step, which has its own [try]/[catch]. *)
Definition uploadVideo (access_token listing_id : jsval) : M jsval :=
  hasVideo ← gets videoFile;
  if (hasVideo : bool) then
    try_catch
      (videoResp ← axios (UploadVideo access_token listing_id);
       ret (data videoResp))
      (fun err : JsError =>
         ret (JObject [ ("error", Js.or (responseData err)
                                        (JString (message err))) ]))
  else ret JNull.

(** The inventory step: yields [inventoryUpdateResult] and
    [videoUploadResult]. *)
Definition updateInventory (access_token listing body : jsval)
  : M (jsval * jsval) :=
  let f := Js.optget body in
  listing_id ← prop listing "listing_id";
  if Js.truthy listing_id && (Js.truthy (f "sku") || Js.truthy (f "inventory"))
  then
    try_catch
      (productsArr ←
         (if Js.truthy (f "inventory")
             && Js.isArray (Js.optget (f "inventory") "products")
          then ret (Js.optget (f "inventory") "products")
          else if Js.truthy (f "sku")
          then sku ← callNumber (f "sku");
               ret (JArray [ skuProduct (JNumber sku)
                                        (f "price") (f "quantity") ])
          else ret (JArray []));
       rInventory ← axios (UpdateInventory access_token listing_id
                              (JObject [ ("products", productsArr) ]));
       video ← uploadVideo access_token listing_id;
       ret (data rInventory, video))
      (fun err : JsError => ret (JNull, JNull))
  else ret (JNull, JNull).

(** [err.response?.status || 500] *)
Definition relayStatus (err : JsError) : Z :=
  match response err with
  | Some r => if (status r =? 0)%Z then 500%Z else status r
  | None => 500%Z
  end.

(** [{ error: err.response?.data || err.message }] *)
Definition relayBody (err : JsError) : jsval :=
  JObject [ ("error", Js.or (responseData err) (JString (message err))) ].

Definition createListing (req_body : jsval) : M unit :=
  access_token ← getValidAccessToken;
  if Js.falsy access_token then ret tt
  else
    let body := Js.or req_body (JObject []) in
    errors ← validation body;
    if negb (Nat.eqb (length (errors : list string)) 0) then
      send 400 (JsonBody (JObject [ ("errors", JArray (map JString errors)) ]))
    else
      try_catch
        (r ← axios (CreateListing access_token (buildPayload body));
         let listing := data r in
         ensureTmpDir;;
         uploadedImageIds ←
           uploadImages access_token listing (Js.optget body "image_files");
         results ← updateInventory access_token listing body;
         send 200 (JsonBody (JObject
           [ ("ok", JBool true); ("listing", listing);
             ("listing_images_id", JArray uploadedImageIds);
             ("inventory", fst (results : jsval * jsval));
             ("video", snd results) ])))
        (fun err : JsError =>
           send (relayStatus err) (JsonBody (relayBody err))).

(** ** GET /auth/login *)

(** [buffer.toString("base64")]: the base64 of RFC 4648, three bytes to
    four digits, padded with [=]. *)
Definition base64Alphabet : string :=
  "ABCDEFGHIJKLMNOPQRSTUVWXYZabcdefghijklmnopqrstuvwxyz0123456789+/".

Definition base64Digit (n : N) : ascii :=
  match String.get (N.to_nat (n mod 64)) base64Alphabet with
  | Some c => c
  | None => "="%char
  end.

Fixpoint toBase64 (buffer : list Byte.byte) : string :=
  match buffer with
  | [] => ""
  | [ a ] =>
      let x := Byte.to_N a in
      String (base64Digit (x / 4))
        (String (base64Digit (x mod 4 * 16)) "==")
  | [ a; b ] =>
      let x := Byte.to_N a in
      let y := Byte.to_N b in
      String (base64Digit (x / 4))
        (String (base64Digit (x mod 4 * 16 + y / 16))
           (String (base64Digit (y mod 16 * 4)) "="))
  | a :: b :: c :: rest =>
      let x := Byte.to_N a in
      let y := Byte.to_N b in
      let z := Byte.to_N c in
      String (base64Digit (x / 4))
        (String (base64Digit (x mod 4 * 16 + y / 16))
           (String (base64Digit (y mod 16 * 4 + z / 64))
              (String (base64Digit (z mod 64)) (toBase64 rest))))
  end.

(** [s.replace(/c/g, d)] for a pattern that is one character. *)
Fixpoint replaceAll (c d : ascii) (s : string) : string :=
  match s with
  | EmptyString => EmptyString
  | String x s' => String (if Ascii.eqb x c then d else x) (replaceAll c d s')
  end.

(** [s.replace(/c+$/, "")]: the run of [c] that ends the string is
    removed. *)
Fixpoint stripTrailing (c : ascii) (s : string) : string :=
  match s with
  | EmptyString => EmptyString
  | String x s' =>
      match stripTrailing c s' with
      | EmptyString => if Ascii.eqb x c then EmptyString else String x EmptyString
      | t => String x t
      end
  end.

Definition base64URLEncode (buffer : list Byte.byte) : string :=
  stripTrailing "=" (replaceAll "/" "_" (replaceAll "+" "-" (toBase64 buffer))).

Definition scopes : list string :=
  [ "address_r"; "address_w"; "billing_r"; "cart_r"; "cart_w"; "email_r";
    "favorites_r"; "favorites_w"; "feedback_r"; "listings_d"; "listings_r";
    "listings_w"; "profile_r"; "profile_w"; "recommend_r"; "recommend_w";
    "shops_r"; "shops_w"; "transactions_r"; "transactions_w" ].

(** An environment variable where a string is wanted: one that is not
    set reads as the text "undefined". *)
Definition envText (v : option string) : string := default "undefined" v.

Section Login.

(** The 32 bytes of the [n]-th call of [crypto.randomBytes], the SHA-256
    digest of a string, and the configuration the login reads. *)
Variable randomBytes : nat -> list Byte.byte.
Variable sha256 : string -> list Byte.byte.
Variable CLIENT_ID : option string.
Variable REDIRECT_URI : option string.

Definition generateCodeVerifier : M string :=
  fun w => (Ret (base64URLEncode (randomBytes (drawn w))),
            set_drawn (S (drawn w)) w).

Definition generateCodeChallenge (verifier : string) : string :=
  base64URLEncode (sha256 verifier).

(** The handler of GET /auth/login at the time [now]; its value is the
    query of the URL the browser is redirected to. The state is a string
    of hex digits, so that [pkceStore[state] = ...] defines an own
    property: it is never [__proto__]. *)
Definition authLogin (now : nat) : M (list (string * string)) :=
  code_verifier ← generateCodeVerifier;
  let code_challenge := generateCodeChallenge code_verifier in
  state ← randomHex;
  modify (fun w =>
            set_pkceStore
              (<[ state := {| code_verifier := code_verifier;
                              createdAt := now |} ]> (pkceStore w)) w);;
  ret [ ("response_type", "code");
        ("client_id", envText CLIENT_ID);
        ("redirect_uri", envText REDIRECT_URI);
        ("scope", String.concat " " scopes);
        ("state", state);
        ("code_challenge", code_challenge);
        ("code_challenge_method", "S256") ].

End Login.

(** ** The earlier versions of the server

    [src/server.js] is the first version: no PKCE, no validation, the
    token record echoed by the callback. The second version (the second
    [server.js] of [part_000]) has the PKCE login and callback of the
    current one, and a POST /listings and a GET /me behind
    [getAccessTokenOr401]. *)

(** [{ ...v }]: the own enumerable properties of [v], in order. *)
Definition spread (v : jsval) : list (string * jsval) :=
  match v with
  | JObject fs => fs
  | JArray items => imap (fun i x => (pretty i, x)) items
  | JString s =>
      imap (fun i c => (pretty i, JString (String c EmptyString)))
           (list_ascii_of_string s)
  | _ => []
  end.

(** [const { k = d } = ...]: the default applies to [undefined] only. *)
Definition orDefault (v d : jsval) : jsval :=
  if Js.is_undefined v then d else v.

(** GET /auth/callback of [src/server.js]. The exchange carries no code
    verifier, and the query's [state] is never read. *)
Definition authCallback_v1 (q : CallbackQuery) : M unit :=
  if present (q_error q) then
    send 400 (Text ("Auth error: " ++ param (q_error q)))
  else if negb (present (q_code q)) then
    send 400 (Text "Missing code parameter.")
  else
    try_catch
      (tokenResp ← axios (TokenExchange (param (q_code q)) JUndefined);
       let tokens := data tokenResp in
       store ← readTokens;
       saveTokens (JObject (Js.assign "etsy" tokens (spread store)));;
       send 200 (JsonBody (JObject
         [ ("message",
            JString "Tokens saved (demo). You can now call /listings with Authorization");
           ("tokens",
            JObject (Js.assign "access_token" (JString "***") (spread tokens))) ])))
      (fun err : JsError => send 500 (Text "Token exchange failed. See server logs.")).

(** The draft that POST /listings of [src/server.js] posts. *)
Definition payload_v1 (body : jsval) : jsval :=
  let f := Js.optget body in
  JObject
    [ ("title", orDefault (f "title") (JString "Sample Title from API"));
      ("description", orDefault (f "description") (JString "Sample description"));
      ("price", orDefault (f "price") (JString "10.00"));
      ("quantity", orDefault (f "quantity") (JNumber 1));
      ("who_made", orDefault (f "who_made") (JString "i_made_it"));
      ("when_made", orDefault (f "when_made") (JString "2020_2023"));
      ("taxonomy_id", orDefault (f "taxonomy_id") (JNumber 1)) ].

(** POST /listings of [src/server.js]: [req.body] is destructured as it
    is, outside the [try]. *)
Definition createListing_v1 (req_body : jsval) : M unit :=
  store ← readTokens;
  let access_token := Js.optget (Js.optget store "etsy") "access_token" in
  if Js.falsy access_token then
    send 401 (Text "No access token. Login first via /auth/login")
  else if Js.is_nullish req_body then
    throw (TypeError "Cannot destructure property 'title' of 'req.body' as it is undefined.")
  else
    try_catch
      (response ← axios (CreateListing access_token (payload_v1 req_body));
       send 200 (JsonBody (JObject
         [ ("ok", JBool true); ("listing", data response) ])))
      (fun err : JsError => send (relayStatus err) (JsonBody (relayBody err))).

(** The draft that POST /listings of the second version posts. *)
Definition payload_v2 (body : jsval) : jsval :=
  let f := Js.optget body in
  JObject
    [ ("title", orDefault (f "title") (JString "API Created Listing"));
      ("description", orDefault (f "description") (JString "Created via API"));
      ("price", orDefault (f "price") (JString "10.00"));
      ("quantity", orDefault (f "quantity") (JNumber 1));
      ("who_made", orDefault (f "who_made") (JString "i_made_it"));
      ("when_made", orDefault (f "when_made") (JString "2020_2023"));
      ("taxonomy_id", orDefault (f "taxonomy_id") (JNumber 1));
      ("shipping_profile_id", f "shipping_profile_id") ].

(** POST /listings of the second version. *)
Definition createListing_v2 (req_body : jsval) : M unit :=
  access_token ← getAccessTokenOr401;
  if Js.falsy access_token then ret tt
  else
    let body := Js.or req_body (JObject []) in
    try_catch
      (r ← axios (CreateListing access_token (payload_v2 body));
       send 200 (JsonBody (JObject [ ("ok", JBool true); ("listing", data r) ])))
      (fun err : JsError => send (relayStatus err) (JsonBody (relayBody err))).

(** GET /me of the second version. *)
Definition me_v2 : M unit :=
  access_token ← getAccessTokenOr401;
  if Js.falsy access_token then ret tt
  else
    try_catch
      (r ← axios (UsersMe access_token);
       send 200 (JsonBody (data r)))
      (fun err : JsError => send (relayStatus err) (JsonBody (relayBody err))).

(** ** Sample worlds and upstream services, for running the model *)

Definition startWorld (up : nat -> HttpRequest -> HttpResult)
  (file : FileState) (store : gmap string PkceEntry) : World :=
  {| tokenFile := file; pkceStore := store; upstream := up; calls := [];
     entropy := fun n => "0f1e2d3c4b5a6978"; drawn := 0; tmpDir := false;
     tmpFiles := []; videoFile := false; slept := 0; res := None |}.

Definition httpError (s : Z) (body : jsval) : JsError :=
  {| response := Some {| status := s; data := body |};
     message := "Request failed with status code " ++ pretty s |}.

Definition refused401 : JsError :=
  httpError 401 (JObject [ ("error", JString "invalid_grant") ]).

(** An upstream that refuses every call with 401 [invalid_grant]. *)
Definition refusing : nat -> HttpRequest -> HttpResult :=
  fun _ _ => Rejected refused401.

Definition sampleEntry : PkceEntry :=
  {| code_verifier := "verifier-1"; createdAt := 17 |}.

Definition callbackOf (code state : string) : CallbackQuery :=
  {| q_code := Some code; q_state := Some state;
     q_error := None; q_error_description := None |}.

(** A host to run the model on: StringToNumber on strings of decimal
    digits (anything else reads as NaN), ToString on the values that are
    not numbers, [path.extname] as the text from the last dot of the last
    path segment, and a shop id. *)
Fixpoint digitsValue (s : string) (acc : Z) : option Z :=
  match s with
  | EmptyString => Some acc
  | String c s' =>
      let n := nat_of_ascii c in
      if Nat.leb 48 n && Nat.leb n 57
      then digitsValue s' (10 * acc + Z.of_nat (n - 48))%Z
      else None
  end.

Definition sampleStringToNumber (s : string) : float :=
  match digitsValue s 0 with
  | Some z => PrimFloat.of_uint63 (Uint63.of_Z z)
  | None => PrimFloat.nan
  end.

Definition sampleToString (v : jsval) : string :=
  match v with
  | JUndefined => "undefined"
  | JNull => "null"
  | JBool true => "true"
  | JBool false => "false"
  | JString s => s
  | JArray [] => ""
  | JObject _ => "[object Object]"
  | _ => "NaN"
  end.

Fixpoint extnameFrom (s ext : string) : string :=
  match s with
  | EmptyString => ext
  | String "/" s' => extnameFrom s' ""
  | String "." s' => extnameFrom s' "."
  | String c s' =>
      extnameFrom s' (if String.eqb ext "" then "" else ext ++ String c "")%string
  end.

Definition sampleExtname (p : string) : string := extnameFrom p "".

Definition sampleShop : option string := Some "12345678".

(** Upstream services. *)
Definition accepting : nat -> HttpRequest -> HttpResult :=
  fun _ _ => Resolved {| status := 200; data := JObject [] |}.

Definition lockedMessage : string :=
  "The listing is being edited by another process. Try again.".

Definition locked : nat -> HttpRequest -> HttpResult :=
  fun _ _ => Rejected (httpError 409 (JObject [ ("error", JString lockedMessage) ])).

Definition expiredProbe : nat -> HttpRequest -> HttpResult :=
  fun _ rq =>
    match rq with
    | UsersMe _ =>
        Rejected (httpError 401
                    (JObject [ ("error", JString "invalid_token");
                               ("error_description",
                                JString "access token is expired") ]))
    | _ => Resolved {| status := 200; data := JObject [] |}
    end.

Definition forbidden : JsError :=
  httpError 403 (JObject [ ("error", JString "Shop is not allowed") ]).

Definition createRefused : nat -> HttpRequest -> HttpResult :=
  fun _ rq =>
    match rq with
    | CreateListing _ _ => Rejected forbidden
    | _ => Resolved {| status := 200; data := JObject [] |}
    end.

(** An image service that refuses [b.png] and gives every other upload
    an id made of its path. *)
Definition imageService : nat -> HttpRequest -> HttpResult :=
  fun _ rq =>
    match rq with
    | UploadImage _ _ p _ =>
        if String.eqb p "b.png"
        then Rejected (httpError 400 (JObject [ ("error", JString "Invalid image") ]))
        else Resolved {| status := 201;
                         data := JObject [ ("listing_image_id",
                                            JString ("img-" ++ p)%string) ] |}
    | _ => Resolved {| status := 200; data := JObject [] |}
    end.

(** Token files. *)
Definition freshStore : jsval :=
  JObject [ ("etsy", JObject [ ("access_token", JString "token-1");
                               ("refresh_token", JString "refresh-1") ]) ].

Definition staleStore : jsval :=
  JObject [ ("etsy", JObject [ ("access_token", JString "stale-token") ]) ].

Definition signedIn (up : nat -> HttpRequest -> HttpResult) : World :=
  startWorld up (Content (Encodes freshStore)) ∅.

Definition signedOut : World := startWorld accepting Missing ∅.

(** Request bodies. *)
Definition validBody : jsval :=
  JObject [ ("title", JString "Mug"); ("description", JString "A mug");
            ("price", JNumber 12.5); ("quantity", JNumber 3);
            ("who_made", JString "i_did"); ("when_made", JString "made_to_order");
            ("sku", JString "MUG-1"); ("taxonomy_id", JNumber 1) ].

Definition heavyBody : jsval :=
  JObject [ ("type", JString "physical"); ("item_weight", JNumber (-1)) ].

Definition datedBody : jsval :=
  JObject [ ("title", JString "Mug"); ("when_made", JString "2020_2023") ].

(** A token record as the token endpoint grants it. *)
Definition grant : jsval :=
  JObject [ ("access_token", JString "token-2");
            ("refresh_token", JString "refresh-2");
            ("token_type", JString "Bearer");
            ("expires_in", JNumber 3600);
            ("scope", JString "listings_w shops_r") ].

(** An upstream that grants tokens, creates draft 42, takes every image
    and refuses the inventory update. *)
Definition drafting : nat -> HttpRequest -> HttpResult :=
  fun _ rq =>
    match rq with
    | TokenExchange _ _ | TokenRefresh _ =>
        Resolved {| status := 200; data := grant |}
    | CreateListing _ _ =>
        Resolved {| status := 201;
                    data := JObject [ ("listing_id", JNumber 42);
                                      ("state", JString "draft") ] |}
    | UploadImage _ _ p _ =>
        Resolved {| status := 201;
                    data := JObject [ ("listing_image_id",
                                       JString ("img-" ++ p)%string) ] |}
    | UpdateInventory _ _ _ => Rejected forbidden
    | _ => Resolved {| status := 200; data := JObject [] |}
    end.

(** The probe reports an expired token; the rest is [drafting], or
    [refusing]. *)
Definition expiredThen (up : nat -> HttpRequest -> HttpResult)
  : nat -> HttpRequest -> HttpResult :=
  fun n rq =>
    match rq with
    | UsersMe _ => expiredProbe n rq
    | _ => up n rq
    end.

Definition unavailable : JsError :=
  httpError 503 (JObject [ ("error", JString "Service unavailable") ]).

(** The first call is refused as locked, the later ones are served by
    [imageService]. *)
Definition lockedOnce : nat -> HttpRequest -> HttpResult :=
  fun n rq => if Nat.eqb n 0 then locked n rq else imageService n rq.

(** A token refresh answered with a text instead of a record. *)
Definition garbled : nat -> HttpRequest -> HttpResult :=
  fun _ _ => Resolved {| status := 200; data := JString "ok" |}.

Definition picturedBody : jsval :=
  JObject [ ("title", JString "Mug"); ("description", JString "A mug");
            ("price", JNumber 12.5); ("quantity", JNumber 3);
            ("who_made", JString "i_did"); ("when_made", JString "made_to_order");
            ("sku", JString "MUG-1"); ("taxonomy_id", JNumber 1);
            ("image_files", JArray [ JString "https://cdn.example/mug.png";
                                     JString "./images/mug-2.png" ]) ].

Definition boxedBody : jsval :=
  JObject [ ("title", JString "Mug"); ("type", JString "physical");
            ("item_weight", JNumber 2); ("item_weight_unit", JString "kg") ].

(** A body whose [price] has its own [valueOf] and [toString], neither
    of them a function. *)
Definition shadowedBody : jsval :=
  JObject [ ("title", JString "Mug"); ("type", JString "physical");
            ("item_weight", JNumber (-1));
            ("price", JObject [ ("valueOf", JNumber 1);
                                ("toString", JNumber 1) ]) ].

(** A valid body whose [sku] cannot be converted to a number. *)
Definition shadowedSkuBody : jsval :=
  JObject [ ("title", JString "Mug"); ("description", JString "A mug");
            ("price", JNumber 12.5); ("quantity", JNumber 3);
            ("who_made", JString "i_did"); ("when_made", JString "made_to_order");
            ("sku", JObject [ ("valueOf", JNumber 1); ("toString", JNumber 1) ]);
            ("taxonomy_id", JNumber 1) ].

(** A valid body with two local images. *)
Definition localBody : jsval :=
  JObject [ ("title", JString "Mug"); ("description", JString "A mug");
            ("price", JNumber 12.5); ("quantity", JNumber 3);
            ("who_made", JString "i_did"); ("when_made", JString "made_to_order");
            ("sku", JString "MUG-1"); ("taxonomy_id", JNumber 1);
            ("image_files", JArray [ JString "./images/mug-1.png";
                                     JString "./images/mug-2.png" ]) ].

(** An upload refusal whose [error] is a record, not a text. *)
Definition recordRefusal : JsError :=
  httpError 400 (JObject [ ("error", JObject [ ("code", JNumber 5) ]) ]).

(** [drafting], except that every image is refused with
    [recordRefusal]. *)
Definition recordErrors : nat -> HttpRequest -> HttpResult :=
  fun n rq =>
    match rq with
    | UploadImage _ _ _ _ => Rejected recordRefusal
    | _ => drafting n rq
    end.

(** An image service that gives every upload an id that cannot be
    converted to a string. *)
Definition opaqueIds : nat -> HttpRequest -> HttpResult :=
  fun _ rq =>
    match rq with
    | UploadImage _ _ _ _ =>
        Resolved {| status := 201;
                    data := JObject [ ("listing_image_id",
                                       JObject [ ("toString", JNull) ]) ] |}
    | _ => Resolved {| status := 200; data := JObject [] |}
    end.

(** Thirty-two bytes for a code verifier, and a stand-in for a digest. *)
Definition sampleBytes : nat -> list Byte.byte :=
  fun n => repeat (if Nat.even n then Byte.x3a else Byte.xc5) 32.

Definition sampleDigest : string -> list Byte.byte :=
  fun s => repeat Byte.xfb 32.

(** * Vocabulary of the properties *)

Local Open Scope list_scope.

(** A callback with a code and a state and no error parameter: the
    handler gets as far as [pkceStore[state]]. *)
Definition callbackReachesLookup (q : CallbackQuery) : Prop :=
  present (q_error q) = false
  /\ present (q_code q) = true /\ present (q_state q) = true.

(** [keeps f m]: whatever the world, running [m] leaves the projection
    [f] of the world as it was. *)
Definition keeps {A X : Type} (f : World -> X) (m : M A) : Prop :=
  forall w, f (snd (m w)) = f w.

(** The claim of C5, as the specification words it: the entry of the
    callback's state is gone from the map exactly when the callback
    succeeded. *)
Definition consumedOnlyOnSuccess (q : CallbackQuery) (w : World) : Prop :=
  let w' := snd (authCallback q w) in
  pkceStore w' !! param (q_state q) = None
  <-> res_status <$> res w' = Some 200%Z.

(** The claim of C8, as the specification words it: the answer carries
    the upstream status and body when the error has a response, and
    status 500 otherwise. *)
Definition relaysUpstream (err : JsError) (r : option Response) : Prop :=
  match r, response err with
  | Some rs, Some u =>
      res_status rs = status u
      /\ res_body rs = JsonBody (JObject [ ("error", data u) ])
  | Some rs, None => res_status rs = 500%Z
  | None, _ => False
  end.

(** An error body that signals an invalid or expired token, in the
    specification's words. *)
Definition tokenRejected (err : JsError) : Prop :=
  Js.optget (responseData err) "error" = JString "invalid_token"
  \/ exists s, Js.optget (responseData err) "error_description" = JString s
               /\ Js.str_includes s "expired" = true.

(** The stored token record is read as [store?.etsy?.<field>]. *)
Definition stored (store : jsval) (field : string) : jsval :=
  Js.optget (Js.optget store "etsy") field.

(** The refresh block of [getValidAccessToken], with its [catch]. *)
Definition refreshBlock : M jsval :=
  try_catch
    (store ← readTokens;
     let refresh_token := Js.optget (Js.optget store "etsy") "refresh_token" in
     if Js.falsy refresh_token then ret JNull
     else
       r ← axios (TokenRefresh refresh_token);
       let tokens := data r in
       store ← assignProp store "etsy" tokens;
       saveTokens store;;
       prop tokens "access_token")
    (fun refreshErr : JsError =>
       send 401 (Text "Token refresh failed. Re-authenticate.");;
       ret JNull).

(** A missing, empty, blank or non-string [title] or [description]. *)
Definition missingText (v : jsval) : Prop :=
  Js.typeof_string v = false \/ exists s, v = JString s /\ Js.trim s = "".

(** The answer to a request rejected by validation: status 400 and the
    [errors] array. *)
Definition rejection (errors : list string) : Response :=
  {| res_status := 400;
     res_body := JsonBody (JObject [ ("errors", JArray (map JString errors)) ]) |}.

(** The claims of C3, C7 and C6, as the specification words them: the
    request is answered 400 with an error list that holds the messages. *)
Definition rejectedWith (msgs : list string) (r : option Response) : Prop :=
  exists errors, r = Some (rejection errors) /\ forall m, In m msgs -> In m errors.

(** The body with one field taken out. *)
Definition without (k : string) (fs : list (string * jsval))
  : list (string * jsval) :=
  List.filter (fun kv => negb (String.eqb k (fst kv))) fs.

Definition isUpload (rq : HttpRequest) : bool :=
  match rq with
  | UploadImage _ _ _ _ => true
  | _ => false
  end.

(** How many upload attempts a stretch of the call log holds. *)
Definition uploads (log : list HttpRequest) : nat :=
  length (List.filter isUpload log).

(** [logs ok n m]: whatever the world, [m] appends to the call log only
    calls that satisfy [ok], at most [n] of them uploads. *)
Definition logs {A} (ok : HttpRequest -> Prop) (n : nat) (m : M A) : Prop :=
  forall w, exists new,
    calls (snd (m w)) = calls w ++ new /\ Forall ok new /\ uploads new <= n.

(** The calls made for the entry [filePath] at index [i]: downloads of
    the entry, and uploads to the listing with rank [i + 1]. *)
Definition forEntry (access_token listing_id filePath : jsval) (i : nat)
  (rq : HttpRequest) : Prop :=
  rq = DownloadImage filePath
  \/ exists p, rq = UploadImage access_token listing_id p (pretty (i + 1)).

(** The message is a string that holds the transient marker. *)
Definition transientMessage (e : JsError) : Prop :=
  exists s, errorMsgOf e = JString s /\ Js.str_includes s transient = true.

Definition noResult (c : Completion) : Prop :=
  match c with
  | Return_ _ => False
  | Continue_ | Break_ => True
  end.

(** [imgResp.data && imgResp.data.listing_image_id] *)
Definition idOf (r : HttpResponse) : jsval :=
  Js.and (data r) (Js.optget (data r) "listing_image_id").

(** The image id that the answer to an upload adds to [uploadedImageIds]:
    the string of its [listing_image_id], when the upload was resolved
    with one that is truthy and can be converted to a string that is not
    empty; nothing otherwise. *)
Definition acceptedId (answer : HttpResult) : list jsval :=
  match answer with
  | Resolved r =>
      if Js.truthy (idOf r) && Js.convertible (idOf r)
         && Js.truthy (JString (String_ (idOf r)))
      then [ JString (String_ (idOf r)) ]
      else []
  | Rejected _ => []
  end.

(** The image ids of a stretch of the call log that starts at call
    number [n]: those that the upstream [up] gave to its uploads, in the
    order of the calls. *)
Fixpoint acceptedIds (up : nat -> HttpRequest -> HttpResult) (n : nat)
  (log : list HttpRequest) : list jsval :=
  match log with
  | [] => []
  | rq :: rest =>
      (if isUpload rq then acceptedId (up n rq) else [])
      ++ acceptedIds up (S n) rest
  end.

(** How the [try] block completes on the answer to its upload. *)
Definition uploadCompletes (answer : HttpResult) : Outcome Completion :=
  match answer with
  | Resolved r =>
      if Js.truthy (idOf r) then
        if Js.convertible (idOf r)
        then Ret (Return_ (JString (String_ (idOf r))))
        else Throw cannotConvert
      else Ret Break_
  | Rejected e => Throw e
  end.

(** [if (imageId) uploadedImageIds.push(imageId)]: what a result adds
    to the array. *)
Definition pushed (v : jsval) : list jsval := if Js.truthy v then [ v ] else [].

(** What the completion of an iteration adds to the array. *)
Definition returned (o : Outcome Completion) : list jsval :=
  match o with
  | Ret (Return_ v) => pushed v
  | _ => []
  end.

(** The error makes the [catch] block give up: its message is falsy, or
    a string or an array without the transient marker. *)
Definition notTransient (e : JsError) : Prop :=
  Js.truthy (errorMsgOf e) = false
  \/ (exists s, errorMsgOf e = JString s /\ Js.str_includes s transient = false)
  \/ (exists items, errorMsgOf e = JArray items
                    /\ existsb (fun x => Js.one_of [transient] x) items = false).

(** The message of the error is neither falsy, nor a string, nor an
    array: [errorMsg.includes] is not a function. *)
Definition malformedMessage (e : JsError) : Prop :=
  Js.truthy (errorMsgOf e) = true
  /\ Js.typeof_string (errorMsgOf e) = false
  /\ Js.isArray (errorMsgOf e) = false.

(** The loop in the specification's words: the entries are uploaded one
    after the other, in array order, entry [i] with index [i]; the
    result of each is kept, [null] included. *)
Fixpoint collect (access_token listing_id : jsval) (files : list jsval)
  (i : nat) : M (list jsval) :=
  match files with
  | [] => ret []
  | filePath :: rest =>
      r ← uploadImageWithRetry access_token listing_id filePath i 3;
      rs ← collect access_token listing_id rest (S i);
      ret (r :: rs)
  end.

(** The calls made for the entry [filePath] at index [i], the first of
    them being call number [n]: all are for the entry, uploads carry the
    rank [i + 1] and are at most three; for a local path they are one to
    three uploads of that path; for a URL the first is the download of
    the URL and, when the upstream [up] serves the download, the second
    is an upload. *)
Definition entryCalls (up : nat -> HttpRequest -> HttpResult)
  (access_token listing_id filePath : jsval) (i n : nat)
  (seg : list HttpRequest) : Prop :=
  Forall (forEntry access_token listing_id filePath i) seg
  /\ uploads seg <= 3
  /\ match filePath with
     | JString p =>
         if isUrl p then
           exists rest,
             seg = DownloadImage filePath :: rest
             /\ forall d,
                  up n (DownloadImage filePath) = Resolved d ->
                  exists name rest',
                    rest = UploadImage access_token listing_id name
                             (pretty (i + 1)) :: rest'
         else
           exists k,
             seg = repeat (UploadImage access_token listing_id p
                             (pretty (i + 1))) (S k)
     | _ => True
     end.

(** A stretch of the call log, starting at call number [n], that is made
    of one segment per entry, in the order of the entries, the segment of
    the entry at index [i] being the calls made for it. *)
Fixpoint inSequence (up : nat -> HttpRequest -> HttpResult)
  (access_token listing_id : jsval) (files : list jsval) (i n : nat)
  (log : list HttpRequest) : Prop :=
  match files with
  | [] => log = []
  | filePath :: rest =>
      exists seg tail,
        log = seg ++ tail
        /\ entryCalls up access_token listing_id filePath i n seg
        /\ inSequence up access_token listing_id rest (S i) (n + length seg) tail
  end.

(** [emits n m]: whatever the world, [m] only appends to the call log,
    and at most [n] calls. *)
Definition emits {A} (n : nat) (m : M A) : Prop :=
  forall w, exists new,
    calls (snd (m w)) = calls w ++ new /\ length new <= n.

(** [tidy m]: whatever the world, every temporary file left after [m]
    was there before. *)
Definition tidy {A} (m : M A) : Prop :=
  forall w, incl (tmpFiles (snd (m w))) (tmpFiles w).

(** The number of entries of [image_files], zero when it is not an
    array. *)
Definition imageCount (body : jsval) : nat :=
  match Js.optget body "image_files" with
  | JArray files => length files
  | _ => 0
  end.

(** What [readTokens] finds in a world. *)
Definition storeOf (w : World) : jsval :=
  match tokenFile w with
  | Content (Encodes v) => v
  | _ => JObject []
  end.

(** An error that the [catch] of [getValidAccessToken] does not take for
    a token error: its body's [error] is not "invalid_token", and its
    [error_description] is absent or a string without "expired". *)
Definition notTokenError (err : JsError) : Prop :=
  Js.optget (responseData err) "error" <> JString "invalid_token"
  /\ (Js.is_nullish (Js.optget (responseData err) "error_description") = true
      \/ exists s, Js.optget (responseData err) "error_description" = JString s
                   /\ Js.str_includes s "expired" = false).

(** The fields that [JSON.stringify] writes for an object. *)
Definition jsonifyFields (fs : list (string * jsval)) : list (string * jsval) :=
  match jsonify (JObject fs) with
  | JObject l => l
  | _ => []
  end.

Definition isObject (v : jsval) : bool :=
  match v with
  | JObject _ => true
  | _ => false
  end.

(** Every message validation can push, in the order of the [if]
    statements. *)
Definition allErrors : list string :=
  [ err_title; err_description; err_price; err_quantity; err_who_made;
    err_when_made; err_sku; err_taxonomy; err_type; err_weight_unit;
    err_dimensions_unit; err_item_weight; err_item_length; err_item_width;
    err_item_height ].

(** The fields of the draft payload. *)
Definition payloadOf (body : jsval) : list (string * jsval) :=
  match buildPayload body with
  | JObject fs => fs
  | _ => []
  end.

Definition dimension_fields : list string :=
  [ "item_weight"; "item_length"; "item_width"; "item_height" ].

Definition unit_fields : list string :=
  [ "item_weight_unit"; "item_dimensions_unit" ].

(** The answer of POST /listings once the draft is created. *)
Definition created (listing : jsval) (ids : list jsval) (inventory video : jsval)
  : Response :=
  {| res_status := 200;
     res_body := JsonBody (JObject
       [ ("ok", JBool true); ("listing", listing);
         ("listing_images_id", JArray ids);
         ("inventory", inventory); ("video", video) ]) |}.

(** The answer of the [catch] of POST /listings to the error [err]. *)
Definition relayed (err : JsError) : Response :=
  {| res_status := relayStatus err; res_body := JsonBody (relayBody err) |}.

(** The unreserved characters a PKCE code verifier may be made of that
    base64url produces: letters, digits, [-] and [_]. *)
Definition unreserved (c : ascii) : bool :=
  let n := nat_of_ascii c in
  (Nat.leb 65 n && Nat.leb n 90) || (Nat.leb 97 n && Nat.leb n 122)
  || (Nat.leb 48 n && Nat.leb n 57) || Nat.eqb n 45 || Nat.eqb n 95.

(** The two replacements of [base64URLEncode], on one character. *)
Definition urlDigit (c : ascii) : ascii :=
  let c := if Ascii.eqb c "+" then "-"%char else c in
  if Ascii.eqb c "/" then "_"%char else c.

(** The field names of an object, in order. *)
Definition keys (fs : list (string * jsval)) : list string := map fst fs.

(** No name occurs twice in the list. *)
Fixpoint distinct (l : list string) : bool :=
  match l with
  | [] => true
  | x :: rest => negb (existsb (String.eqb x) rest) && distinct rest
  end.

(** A call that fetches or uploads an image. *)
Definition isImageCall (rq : HttpRequest) : bool :=
  match rq with
  | DownloadImage _ | UploadImage _ _ _ _ => true
  | _ => false
  end.

(** The inventory step gets as far as its upstream call: the products
    are [inventory.products], or [Number(sku)] returns. *)
Definition buildsProducts (body : jsval) : bool :=
  let f := Js.optget body in
  (Js.truthy (f "inventory")
   && Js.isArray (Js.optget (f "inventory") "products"))
  || Js.convertible (f "sku").

(** Validation throws: some [Number(...)] that the block reaches is
    called on a value that cannot be converted. [Number(price)] and
    [Number(quantity)] are reached when the field is not [undefined],
    [Number(taxonomy_id)] when the field is truthy. *)
Definition validationThrows (body : jsval) : bool :=
  let f := Js.optget body in
  (negb (Js.is_undefined (f "price")) && negb (Js.convertible (f "price")))
  || (negb (Js.is_undefined (f "quantity"))
      && negb (Js.convertible (f "quantity")))
  || (Js.truthy (f "taxonomy_id") && negb (Js.convertible (f "taxonomy_id"))).

(** * Properties *)

(** ** The token store *)

(** [readTokens], run: the outcome and the world it leaves. *)
Lemma readTokens_run (w : World) :
  readTokens w =
    (Ret (match tokenFile w with
          | Content (Encodes v) => v
          | Content Malformed | Missing | Unreadable => JObject []
          end), w).
Proof.
  unfold readTokens, existsSync_tokenFile, readFileSync_tokenFile, gets.
  unfold mbind, M_bind, bind, try_catch, JSON_parse, ret, throw.
  destruct (tokenFile w) as [ | | [ | v ] ] eqn:E; simpl; rewrite ?E; reflexivity.
Qed.

Lemma readTokens_missing (w : World) :
  tokenFile w = Missing -> readTokens w = (Ret (JObject []), w).
Proof. intros H. rewrite readTokens_run, H. reflexivity. Qed.

Lemma readTokens_valid (w : World) (v : jsval) :
  tokenFile w = Content (Encodes v) -> readTokens w = (Ret v, w).
Proof. intros H. rewrite readTokens_run, H. reflexivity. Qed.

(** C9. [readTokens] is total and never throws: for every state of the
    token file it returns a value and leaves the world as it is. The value
    is the parsed one when the file exists and holds valid JSON, and the
    empty object when the file is missing, when it cannot be read, and
    when its content does not parse. *)
Theorem readTokens_total (w : World) :
  exists v,
    readTokens w = (Ret v, w)
    /\ v = match tokenFile w with
           | Content (Encodes parsed) => parsed
           | Content Malformed => JObject []
           | Missing => JObject []
           | Unreadable => JObject []
           end.
Proof.
  eexists. split; [ apply readTokens_run | ].
  destruct (tokenFile w) as [ | | [ | parsed ] ]; reflexivity.
Qed.

(** ** GET /auth/callback *)

(** A callback whose state has no entry and is not a property name of
    [Object.prototype] is answered 400 and nothing else happens. *)
Lemma authCallback_unknown_state (q : CallbackQuery) (w : World) :
  callbackReachesLookup q ->
  pkceStore w !! param (q_state q) = None ->
  existsb (String.eqb (param (q_state q))) objectPrototype = false ->
  authCallback q w =
    (Ret tt, set_res (Some {| res_status := 400;
                              res_body := Text msg_missing_verifier |}) w).
Proof.
  intros (He & Hc & Hs) Hnone Hproto. unfold authCallback.
  rewrite He, Hc, Hs. simpl.
  unfold mbind, M_bind, bind, gets, pkceGet. rewrite Hnone, Hproto.
  reflexivity.
Qed.

(** C4, at the failing input: with an empty PKCE store, the callback
    [?code=abc&state=constructor] is not answered 400. The lookup
    [pkceStore[state]] finds the inherited [constructor] of the plain
    object, so the handler goes on and posts the token exchange, with an
    undefined verifier; the upstream's refusal is then answered 500. *)
Theorem authCallback_inherited_state :
  let w := startWorld refusing Missing ∅ in
  let w' := snd (authCallback (callbackOf "abc" "constructor") w) in
  pkceStore w !! "constructor" = None
  /\ calls w' = [ TokenExchange "abc" JUndefined ]
  /\ res w' = Some {| res_status := 500; res_body := Text msg_exchange_failed |}.
Proof. vm_compute. repeat split. Qed.

(** ** Running a computation one step at a time *)

Lemma bind_Ret {A B} (m : M A) (k : A -> M B) (w w' : World) (a : A) :
  m w = (Ret a, w') -> (m ≫= k) w = k a w'.
Proof. intros H. unfold mbind, M_bind, bind. rewrite H. reflexivity. Qed.

Lemma bind_Throw {A B} (m : M A) (k : A -> M B) (w w' : World) (e : JsError) :
  m w = (Throw e, w') -> (m ≫= k) w = (Throw e, w').
Proof. intros H. unfold mbind, M_bind, bind. rewrite H. reflexivity. Qed.

Lemma try_catch_Ret {A} (m : M A) (h : JsError -> M A) (w w' : World) (a : A) :
  m w = (Ret a, w') -> try_catch m h w = (Ret a, w').
Proof. intros H. unfold try_catch. rewrite H. reflexivity. Qed.

Lemma try_catch_Throw {A} (m : M A) (h : JsError -> M A) (w w' : World)
  (e : JsError) :
  m w = (Throw e, w') -> try_catch m h w = h e w'.
Proof. intros H. unfold try_catch. rewrite H. reflexivity. Qed.

Lemma axios_Resolved (rq : HttpRequest) (w : World) (r : HttpResponse) :
  upstream w (length (calls w)) rq = Resolved r ->
  axios rq w = (Ret r, set_calls (calls w ++ [rq]) w).
Proof. intros H. unfold axios. rewrite H. reflexivity. Qed.

Lemma axios_Rejected (rq : HttpRequest) (w : World) (e : JsError) :
  upstream w (length (calls w)) rq = Rejected e ->
  axios rq w = (Throw e, set_calls (calls w ++ [rq]) w).
Proof. intros H. unfold axios. rewrite H. reflexivity. Qed.

(** ** Frame reasoning: what a computation leaves untouched *)

Lemma keeps_ret {A X} (f : World -> X) (a : A) : keeps f (ret a).
Proof. intros w. reflexivity. Qed.

Lemma keeps_mret {A X} (f : World -> X) (a : A) : keeps f (mret a : M A).
Proof. intros w. reflexivity. Qed.

Lemma keeps_throw {A X} (f : World -> X) (e : JsError) :
  keeps f (throw e : M A).
Proof. intros w. reflexivity. Qed.

Lemma keeps_bind {A B X} (f : World -> X) (m : M A) (k : A -> M B) :
  keeps f m -> (forall a, keeps f (k a)) -> keeps f (m ≫= k).
Proof.
  intros Hm Hk w. unfold mbind, M_bind, bind.
  specialize (Hm w). destruct (m w) as [[a | e] w']; simpl in *.
  - rewrite Hk. exact Hm.
  - exact Hm.
Qed.

Lemma keeps_try_catch {A X} (f : World -> X) (m : M A) (h : JsError -> M A) :
  keeps f m -> (forall e, keeps f (h e)) -> keeps f (try_catch m h).
Proof.
  intros Hm Hh w. unfold try_catch.
  specialize (Hm w). destruct (m w) as [[a | e] w']; simpl in *.
  - exact Hm.
  - rewrite Hh. exact Hm.
Qed.

Lemma keeps_try_finally {A X} (f : World -> X) (m : M A) (c : M unit) :
  keeps f m -> keeps f c -> keeps f (try_finally m c).
Proof.
  intros Hm Hc w. unfold try_finally.
  specialize (Hm w). destruct (m w) as [o w']. specialize (Hc w').
  destruct (c w') as [[u | e] w'']; simpl in *; congruence.
Qed.

Lemma keeps_gets {A X} (f : World -> X) (g : World -> A) : keeps f (gets g).
Proof. intros w. reflexivity. Qed.

Lemma keeps_modify {X} (f : World -> X) (g : World -> World) :
  (forall w, f (g w) = f w) -> keeps f (modify g).
Proof. intros H w. apply H. Qed.

Lemma keeps_axios {X} (f : World -> X) (rq : HttpRequest) :
  (forall l w, f (set_calls l w) = f w) -> keeps f (axios rq).
Proof.
  intros H w. unfold axios.
  destruct (upstream w (length (calls w)) rq); simpl; apply H.
Qed.

Lemma keeps_readTokens {X} (f : World -> X) : keeps f readTokens.
Proof. intros w. rewrite readTokens_run. reflexivity. Qed.

Lemma keeps_saveTokens {X} (f : World -> X) (obj : jsval) :
  (forall t w, f (set_tokenFile t w) = f w) -> keeps f (saveTokens obj).
Proof. intros H w. destruct obj; simpl; solve [ reflexivity | apply H ]. Qed.

Lemma keeps_send {X} (f : World -> X) (s : Z) (b : ResBody) :
  (forall r w, f (set_res r w) = f w) -> keeps f (send s b).
Proof. intros H w. apply H. Qed.

Lemma keeps_sleep {X} (f : World -> X) (ms : nat) :
  (forall n w, f (set_slept n w) = f w) -> keeps f (sleep ms).
Proof. intros H w. apply H. Qed.

Lemma keeps_prop {X} (f : World -> X) (v : jsval) (k : string) :
  keeps f (prop v k).
Proof. intros w. unfold prop. destruct (Js.is_nullish v); reflexivity. Qed.

Lemma keeps_assignProp {X} (f : World -> X) (v : jsval) (k : string) (x : jsval) :
  keeps f (assignProp v k x).
Proof. intros w. destruct v; reflexivity. Qed.

Lemma keeps_includes {X} (f : World -> X) (callee : string) (v : jsval)
  (pat : string) :
  keeps f (includes callee v pat).
Proof. intros w. destruct v; reflexivity. Qed.

Lemma keeps_optIncludes {X} (f : World -> X) (callee : string) (v : jsval)
  (pat : string) :
  keeps f (optIncludes callee v pat).
Proof.
  unfold optIncludes. destruct (Js.is_nullish v);
    [ apply keeps_ret | apply keeps_includes ].
Qed.

Lemma keeps_callNumber {X} (f : World -> X) (v : jsval) :
  keeps f (callNumber v).
Proof. intros w. unfold callNumber. destruct (Js.convertible v); reflexivity. Qed.

Lemma keeps_callString {X} (f : World -> X) (v : jsval) :
  keeps f (callString v).
Proof. intros w. unfold callString. destruct (Js.convertible v); reflexivity. Qed.

(** A setter that the observed projection does not read: by
    computation, or by assumption. *)
Ltac frame_side := solve [ intros; reflexivity | assumption ].

(** Splits a frame goal along the structure of the computation. *)
Ltac frame_step :=
  match goal with
  | |- keeps _ (ret _) => apply keeps_ret
  | |- keeps _ (mret _) => apply keeps_mret
  | |- keeps _ (throw _) => apply keeps_throw
  | |- keeps _ (_ ≫= _) => apply keeps_bind; [ | intros ? ]
  | |- keeps _ (try_catch _ _) => apply keeps_try_catch; [ | intros ? ]
  | |- keeps _ (try_finally _ _) => apply keeps_try_finally
  | |- keeps _ (gets _) => apply keeps_gets
  | |- keeps _ readTokens => apply keeps_readTokens
  | |- keeps _ (prop _ _) => apply keeps_prop
  | |- keeps _ (assignProp _ _ _) => apply keeps_assignProp
  | |- keeps _ (includes _ _ _) => apply keeps_includes
  | |- keeps _ (optIncludes _ _ _) => apply keeps_optIncludes
  | |- keeps _ (callNumber _) => apply keeps_callNumber
  | |- keeps _ (callString _) => apply keeps_callString
  | |- keeps _ (orElse _ _) => unfold orElse
  | |- keeps _ (validation _) => unfold validation; cbv zeta
  | |- keeps _ (modify _) => apply keeps_modify; frame_side
  | |- keeps _ (axios _) => apply keeps_axios; frame_side
  | |- keeps _ (saveTokens _) => apply keeps_saveTokens; frame_side
  | |- keeps _ (send _ _) => apply keeps_send; frame_side
  | |- keeps _ (sleep _) => apply keeps_sleep; frame_side
  | |- keeps _ (if ?c then _ else _) => destruct c
  | |- keeps _ (match ?x with _ => _ end) => destruct x
  end.

Ltac frame := repeat frame_step.

(** A callback that gets past the guard leaves the store with the key of
    its state deleted: nothing after the [delete] touches the store. *)
Lemma authCallback_consumes (q : CallbackQuery) (w : World) :
  callbackReachesLookup q ->
  pkceGet (pkceStore w) (param (q_state q)) <> Absent ->
  pkceStore (snd (authCallback q w))
  = delete (param (q_state q)) (pkceStore w).
Proof.
  intros (He & Hc & Hs) Hslot. unfold authCallback.
  rewrite He, Hc, Hs. simpl.
  unfold mbind at 1. unfold M_bind, bind, gets.
  destruct (pkceGet (pkceStore w) (param (q_state q))) eqn:E;
    [ | | congruence ].
  all: match goal with
       | |- pkceStore (snd ((_ ≫= ?k) _)) = _ =>
           assert (Hk : keeps pkceStore (k tt)) by frame
       end.
  all: unfold mbind, M_bind, bind, modify; rewrite Hk; reflexivity.
Qed.

(** A callback whose state has no entry but names a property of
    [Object.prototype] gets past the guard: the token exchange is posted,
    without a verifier. *)
Lemma authCallback_prototype_state (q : CallbackQuery) (w : World) :
  callbackReachesLookup q ->
  pkceStore w !! param (q_state q) = None ->
  existsb (String.eqb (param (q_state q))) objectPrototype = true ->
  calls (snd (authCallback q w))
  = calls w ++ [ TokenExchange (param (q_code q)) JUndefined ].
Proof.
  intros (He & Hc & Hs) Hnone Hproto. unfold authCallback.
  rewrite He, Hc, Hs. simpl.
  unfold mbind at 1. unfold M_bind, bind, gets, pkceGet.
  rewrite Hnone, Hproto.
  erewrite bind_Ret by reflexivity. unfold try_catch, verifierOf.
  unfold mbind at 1. unfold M_bind, bind, axios.
  cbn [upstream calls set_pkceStore].
  destruct (upstream w (length (calls w))
              (TokenExchange (param (q_code q)) JUndefined)) as [r | e].
  - match goal with
    | |- calls (snd (let (o, w') := ?k ?w1 in _)) = _ =>
        assert (Hk : keeps calls k) by frame;
        specialize (Hk w1); destruct (k w1) as [[u | e'] w2]
    end; simpl in *; exact Hk.
  - reflexivity.
Qed.

(** C5, the counterexample: the state [s1] has an entry, the upstream
    refuses the exchange, the callback is answered 500, and the entry is
    gone all the same. *)
Lemma authCallback_failed_exchange_consumes :
  let q := callbackOf "abc" "s1" in
  let w := startWorld refusing Missing {[ "s1" := sampleEntry ]} in
  pkceStore w !! "s1" = Some sampleEntry
  /\ ~ consumedOnlyOnSuccess q w.
Proof.
  split; [ vm_compute; reflexivity | ].
  unfold consumedOnlyOnSuccess. intros [H _].
  assert (Hgone : pkceStore
            (snd (authCallback (callbackOf "abc" "s1")
                    (startWorld refusing Missing {[ "s1" := sampleEntry ]})))
            !! param (q_state (callbackOf "abc" "s1")) = None).
  { rewrite authCallback_consumes.
    - apply lookup_delete_eq.
    - repeat split.
    - vm_compute. discriminate. }
  specialize (H Hgone). vm_compute in H. discriminate H.
Qed.

(** C5, as amended: a callback that reaches the lookup and finds an entry
    for its state deletes that entry before the exchange is attempted, so
    the entry is gone whether the exchange succeeds or fails, and every
    other entry stays. *)
Theorem authCallback_consumes_entry (q : CallbackQuery) (w : World)
  (e : PkceEntry) :
  callbackReachesLookup q ->
  pkceStore w !! param (q_state q) = Some e ->
  let w' := snd (authCallback q w) in
  pkceStore w' !! param (q_state q) = None
  /\ forall k, k <> param (q_state q) -> pkceStore w' !! k = pkceStore w !! k.
Proof.
  intros Hq He w'. subst w'.
  rewrite authCallback_consumes; [ | exact Hq | ].
  - split; [ apply lookup_delete_eq | ].
    intros k Hk. apply lookup_delete_ne. congruence.
  - unfold pkceGet. rewrite He. discriminate.
Qed.

Lemma authCallback_consumes_entry_witness :
  let q := callbackOf "abc" "s1" in
  let w := startWorld refusing Missing {[ "s1" := sampleEntry ]} in
  callbackReachesLookup q
  /\ pkceStore w !! param (q_state q) = Some sampleEntry
  /\ pkceStore (snd (authCallback q w)) !! param (q_state q) = None.
Proof.
  intros q w.
  assert (Hq : callbackReachesLookup q) by (repeat split).
  assert (He : pkceStore w !! param (q_state q) = Some sampleEntry)
    by (vm_compute; reflexivity).
  split; [ exact Hq | split; [ exact He | ] ].
  exact (proj1 (authCallback_consumes_entry q w sampleEntry Hq He)).
Defined.

(** A callback answered before the lookup leaves the map as it is. *)
Lemma authCallback_early_exit (q : CallbackQuery) (w : World) :
  present (q_error q) = true
  \/ present (q_code q) = false \/ present (q_state q) = false ->
  pkceStore (snd (authCallback q w)) = pkceStore w
  /\ calls (snd (authCallback q w)) = calls w.
Proof.
  intros H. unfold authCallback.
  destruct (present (q_error q)); [ split; reflexivity | ].
  destruct H as [H | [H | H]]; [ discriminate | | ]; rewrite H; simpl.
  - split; reflexivity.
  - rewrite orb_true_r. split; reflexivity.
Qed.

(** ** The validation block as it runs *)

Lemma callNumber_run (v : jsval) (w : World) :
  Js.convertible v = true -> callNumber v w = (Ret (Number v), w).
Proof. intros H. unfold callNumber. rewrite H. reflexivity. Qed.

Lemma callNumber_throws (v : jsval) (w : World) :
  Js.convertible v = false -> callNumber v w = (Throw cannotConvert, w).
Proof. intros H. unfold callNumber. rewrite H. reflexivity. Qed.

Lemma callString_run (v : jsval) (w : World) :
  Js.convertible v = true -> callString v w = (Ret (String_ v), w).
Proof. intros H. unfold callString. rewrite H. reflexivity. Qed.

Lemma callString_throws (v : jsval) (w : World) :
  Js.convertible v = false -> callString v w = (Throw cannotConvert, w).
Proof. intros H. unfold callString. rewrite H. reflexivity. Qed.

Lemma keeps_validation {X} (f : World -> X) (body : jsval) :
  keeps f (validation body).
Proof. frame. Qed.

Lemma reached_converts (c : bool) (v : jsval) :
  c && negb (Js.convertible v) = false -> c = true -> Js.convertible v = true.
Proof. intros H E. rewrite E in H. apply negb_false_iff in H. exact H. Qed.

Lemma check_price_run (v : jsval) (w : World) :
  negb (Js.is_undefined v) && negb (Js.convertible v) = false ->
  orElse (Js.is_undefined v)
    (x ← callNumber v;
     orElse (Js.isNaN x) (y ← callNumber v; ret (PrimFloat.leb y 0))) w
  = (Ret (Js.is_undefined v || Js.isNaN (Number v)
          || PrimFloat.leb (Number v) 0), w).
Proof.
  intros H. unfold orElse. destruct (Js.is_undefined v); [ reflexivity | cbv beta iota ].
  pose proof (reached_converts _ _ H eq_refl) as C; cbv beta iota.
  rewrite (bind_Ret _ _ _ _ _ (callNumber_run _ w C)); cbv beta.
  destruct (Js.isNaN (Number v)); [ reflexivity | cbv beta iota ].
  rewrite (bind_Ret _ _ _ _ _ (callNumber_run _ w C)); cbv beta. reflexivity.
Qed.

Lemma check_quantity_run (v : jsval) (w : World) :
  negb (Js.is_undefined v) && negb (Js.convertible v) = false ->
  orElse (Js.is_undefined v)
    (x ← callNumber v;
     orElse (Js.isNaN x)
       (y ← callNumber v;
        orElse (negb (Js.isInteger y))
          (z ← callNumber v; ret (PrimFloat.leb z 0)))) w
  = (Ret (Js.is_undefined v || Js.isNaN (Number v)
          || negb (Js.isInteger (Number v))
          || PrimFloat.leb (Number v) 0), w).
Proof.
  intros H. unfold orElse. destruct (Js.is_undefined v); [ reflexivity | cbv beta iota ].
  pose proof (reached_converts _ _ H eq_refl) as C; cbv beta iota.
  rewrite (bind_Ret _ _ _ _ _ (callNumber_run _ w C)); cbv beta.
  destruct (Js.isNaN (Number v)); [ reflexivity | cbv beta iota ].
  rewrite (bind_Ret _ _ _ _ _ (callNumber_run _ w C)); cbv beta.
  destruct (Js.isInteger (Number v)); [ cbn [negb]; cbv beta iota | reflexivity ].
  rewrite (bind_Ret _ _ _ _ _ (callNumber_run _ w C)); cbv beta. reflexivity.
Qed.

Lemma check_taxonomy_run (v : jsval) (w : World) :
  Js.truthy v && negb (Js.convertible v) = false ->
  orElse (Js.falsy v)
    (x ← callNumber v;
     orElse (Js.isNaN x) (y ← callNumber v; ret (PrimFloat.ltb y 1))) w
  = (Ret (Js.falsy v || Js.isNaN (Number v)
          || PrimFloat.ltb (Number v) 1), w).
Proof.
  intros H. unfold orElse, Js.falsy. destruct (Js.truthy v); [ cbn [negb] | reflexivity ].
  pose proof (reached_converts _ _ H eq_refl) as C; cbv beta iota.
  rewrite (bind_Ret _ _ _ _ _ (callNumber_run _ w C)); cbv beta.
  destruct (Js.isNaN (Number v)); [ reflexivity | cbv beta iota ].
  rewrite (bind_Ret _ _ _ _ _ (callNumber_run _ w C)); cbv beta. reflexivity.
Qed.

(** When no conversion throws, the block ends with the [errors] array. *)
Lemma validation_run (body : jsval) (w : World) :
  validationThrows body = false ->
  validation body w = (Ret (validate body), w).
Proof.
  unfold validationThrows. cbv zeta. intros H.
  apply orb_false_elim in H. destruct H as [H H3].
  apply orb_false_elim in H. destruct H as [H1 H2].
  unfold validation, validate. cbv zeta.
  rewrite (bind_Ret _ _ _ _ _ (check_price_run _ w H1)); cbv beta.
  rewrite (bind_Ret _ _ _ _ _ (check_quantity_run _ w H2)); cbv beta.
  rewrite (bind_Ret _ _ _ _ _ (check_taxonomy_run _ w H3)).
  reflexivity.
Qed.

Lemma check_throws (v : jsval) (k : float -> M bool) (c : bool) (w : World) :
  negb c && negb (Js.convertible v) = true ->
  orElse c (x ← callNumber v; k x) w = (Throw cannotConvert, w).
Proof.
  intros H. apply andb_true_iff in H. destruct H as [H C].
  apply negb_true_iff in H. apply negb_true_iff in C. subst c.
  unfold orElse. apply bind_Throw, callNumber_throws, C.
Qed.

(** When a conversion that the block reaches throws, the block throws,
    and has changed nothing. *)
Lemma validation_throws (body : jsval) (w : World) :
  validationThrows body = true ->
  validation body w = (Throw cannotConvert, w).
Proof.
  unfold validationThrows. cbv zeta. intros H.
  unfold validation. cbv zeta.
  destruct (negb (Js.is_undefined (Js.optget body "price"))
            && negb (Js.convertible (Js.optget body "price"))) eqn:H1.
  { apply bind_Throw, check_throws. exact H1. }
  rewrite (bind_Ret _ _ _ _ _ (check_price_run _ w H1)); cbv beta.
  destruct (negb (Js.is_undefined (Js.optget body "quantity"))
            && negb (Js.convertible (Js.optget body "quantity"))) eqn:H2.
  { apply bind_Throw, check_throws. exact H2. }
  rewrite (bind_Ret _ _ _ _ _ (check_quantity_run _ w H2)); cbv beta.
  simpl in H.
  apply bind_Throw, check_throws. unfold Js.falsy.
  rewrite negb_involutive. exact H.
Qed.

Lemma pushIf_nil (c : bool) (m : string) (errors : list string) :
  pushIf c m errors = [] -> errors = [] /\ c = false.
Proof.
  unfold pushIf. destruct c; intros H; [ | split; [ exact H | reflexivity ] ].
  destruct errors; discriminate H.
Qed.

Lemma Number_not_convertible (v : jsval) :
  Js.convertible v = false -> Js.isNaN (Number v) = true.
Proof.
  intros H. destruct v; try discriminate H; unfold Number; rewrite H;
    reflexivity.
Qed.

(** A body that validation accepts is one on which no conversion
    throws. *)
Lemma accepted_converts (body : jsval) :
  validate body = [] -> validationThrows body = false.
Proof.
  unfold validate, pushDimension. cbv zeta. intros H.
  destruct (isPhysical (Js.optget body "type"));
    repeat match type of H with
           | pushIf _ _ _ = [] =>
               let C := fresh "C" in
               apply pushIf_nil in H; destruct H as [H C]
           end;
    clear H;
    repeat match goal with
           | C : _ || _ = false |- _ =>
               apply orb_false_iff in C; destruct C
           end;
    unfold validationThrows; cbv zeta;
    repeat match goal with
           | |- context [ Js.convertible ?v ] =>
               destruct (Js.convertible v) eqn:?;
               [ | match goal with
                   | E : Js.convertible v = false |- _ =>
                       apply Number_not_convertible in E; congruence
                   end ]
           end;
    cbn [negb]; rewrite !andb_false_r; reflexivity.
Qed.

Lemma validation_accepted (body : jsval) (w : World) :
  validate body = [] -> validation body w = (Ret [], w).
Proof.
  intros V. rewrite validation_run by (apply accepted_converts, V).
  rewrite V. reflexivity.
Qed.

(** ** Upstream failures *)

(** C8, the counterexample: the upstream refuses the token exchange with
    401 and a body; the callback answers 500 with its own text. *)
Lemma authCallback_does_not_relay :
  let q := callbackOf "abc" "s1" in
  let w := startWorld refusing Missing {[ "s1" := sampleEntry ]} in
  upstream w 0 (TokenExchange "abc" (JString "verifier-1")) = Rejected refused401
  /\ calls (snd (authCallback q w)) = [ TokenExchange "abc" (JString "verifier-1") ]
  /\ ~ relaysUpstream refused401 (res (snd (authCallback q w))).
Proof.
  split; [ reflexivity | ]. split; [ vm_compute; reflexivity | ].
  vm_compute. intros [H _]. discriminate H.
Qed.

Lemma relayStatus_response (err : JsError) (u : HttpResponse) :
  response err = Some u -> status u <> 0%Z -> relayStatus err = status u.
Proof.
  intros H Hs. unfold relayStatus. rewrite H.
  destruct (Z.eqb_spec (status u) 0); congruence.
Qed.

Lemma relayBody_response (err : JsError) (u : HttpResponse) :
  response err = Some u -> Js.truthy (data u) = true ->
  relayBody err = JObject [ ("error", data u) ].
Proof.
  intros H Ht. unfold relayBody, responseData, Js.or. rewrite H, Ht.
  reflexivity.
Qed.

Lemma relay_no_response (err : JsError) :
  response err = None ->
  relayStatus err = 500%Z
  /\ relayBody err = JObject [ ("error", JString (message err)) ].
Proof.
  intros H. unfold relayStatus, relayBody, responseData, Js.or.
  rewrite H. split; reflexivity.
Qed.

(** Past the access-token gate, a body with violations, on which no
    conversion throws, is answered 400 with the whole list. *)
Lemma createListing_invalid (req_body tok : jsval) (w w1 : World) :
  getValidAccessToken w = (Ret tok, w1) ->
  Js.truthy tok = true ->
  validationThrows (Js.or req_body (JObject [])) = false ->
  validate (Js.or req_body (JObject [])) <> [] ->
  createListing req_body w =
    (Ret tt,
     set_res (Some {| res_status := 400;
                      res_body := JsonBody (JObject
                        [ ("errors",
                           JArray (map JString
                                     (validate (Js.or req_body (JObject [])))))
                        ]) |}) w1).
Proof.
  intros Hgate Htok Hnt Hval. unfold createListing.
  rewrite (bind_Ret _ _ _ _ _ Hgate).
  unfold Js.falsy. rewrite Htok. cbn [negb].
  rewrite (bind_Ret _ _ _ _ _ (validation_run _ w1 Hnt)).
  destruct (validate (Js.or req_body (JObject []))) eqn:E; [ congruence | ].
  reflexivity.
Qed.

(** Past the gate, a conversion that throws in the validation block
    throws out of the handler: the block is outside its [try]. *)
Lemma createListing_validation_throws (req_body tok : jsval) (w w1 : World) :
  getValidAccessToken w = (Ret tok, w1) ->
  Js.truthy tok = true ->
  validationThrows (Js.or req_body (JObject [])) = true ->
  createListing req_body w = (Throw cannotConvert, w1).
Proof.
  intros Hgate Htok Hth. unfold createListing.
  rewrite (bind_Ret _ _ _ _ _ Hgate).
  unfold Js.falsy. rewrite Htok. cbn [negb].
  apply bind_Throw, validation_throws, Hth.
Qed.

(** When the gate yields no token, the handler returns at once: the
    answer, if any, is the one the gate sent. *)
Lemma createListing_gate_closed (req_body tok : jsval) (w w1 : World) :
  getValidAccessToken w = (Ret tok, w1) ->
  Js.truthy tok = false ->
  createListing req_body w = (Ret tt, w1).
Proof.
  intros Hgate Htok. unfold createListing.
  unfold mbind at 1. unfold M_bind, bind. rewrite Hgate.
  unfold Js.falsy. rewrite Htok. reflexivity.
Qed.

(** C8, as amended. When the draft-creation call of POST /listings is
    rejected, the handler answers with [err.response.status] (500 when
    the error has no response or a zero status) and the body
    [{ error: err.response.data }] (the error message when there is no
    upstream body). GET /auth/callback and POST /token/refresh catch a
    rejected token call and answer 500 with a fixed text, whatever the
    upstream sent. *)
Theorem upstream_failure_answers (w : World) (err : JsError) :
  (forall req_body tok w0,
     getValidAccessToken w0 = (Ret tok, w) ->
     Js.truthy tok = true ->
     validate (Js.or req_body (JObject [])) = [] ->
     upstream w (length (calls w))
       (CreateListing tok (buildPayload (Js.or req_body (JObject []))))
     = Rejected err ->
     res (snd (createListing req_body w0))
     = Some {| res_status := relayStatus err;
               res_body := JsonBody (relayBody err) |})
  /\ (forall q,
        callbackReachesLookup q ->
        pkceGet (pkceStore w) (param (q_state q)) <> Absent ->
        upstream w (length (calls w))
          (TokenExchange (param (q_code q))
             (verifierOf (pkceGet (pkceStore w) (param (q_state q)))))
        = Rejected err ->
        res (snd (authCallback q w))
        = Some {| res_status := 500; res_body := Text msg_exchange_failed |})
  /\ (forall store,
        readTokens w = (Ret store, w) ->
        Js.truthy (Js.optget (Js.optget store "etsy") "refresh_token") = true ->
        upstream w (length (calls w))
          (TokenRefresh (Js.optget (Js.optget store "etsy") "refresh_token"))
        = Rejected err ->
        res (snd (tokenRefresh w))
        = Some {| res_status := 500; res_body := Text "Token refresh failed." |}).
Proof.
  split; [ | split ].
  - intros req_body tok w0 Hgate Htok Hval Hup.
    unfold createListing.
    rewrite (bind_Ret _ _ _ _ _ Hgate).
    unfold Js.falsy. rewrite Htok. cbn [negb].
    rewrite (bind_Ret _ _ _ _ _ (validation_accepted _ w Hval)). simpl.
    unfold try_catch, mbind, M_bind, bind, axios. rewrite Hup. reflexivity.
  - intros q (He & Hc & Hs) Hslot Hup. unfold authCallback.
    rewrite He, Hc, Hs. simpl.
    unfold mbind at 1. unfold M_bind, bind, gets.
    destruct (pkceGet (pkceStore w) (param (q_state q))) eqn:E;
      [ | | congruence ].
    all: unfold mbind, M_bind, bind, modify, try_catch, axios; simpl.
    all: simpl in Hup; rewrite Hup; reflexivity.
  - intros store Hread Hrt Hup. unfold tokenRefresh.
    unfold mbind at 1. unfold M_bind, bind. rewrite Hread.
    unfold Js.falsy. rewrite Hrt. simpl.
    unfold try_catch, mbind, M_bind, bind, axios. rewrite Hup. reflexivity.
Qed.

(** ** The access-token gate *)

Lemma signalsExpired_sound (err : JsError) (w : World) :
  tokenRejected err -> signalsExpired err w = (Ret true, w).
Proof.
  intros [H | (s & Hs & Hin)]; unfold signalsExpired.
  - rewrite H. reflexivity.
  - rewrite Hs.
    assert (R : optIncludes "err.response?.data?.error_description?.includes"
                  (JString s) "expired" w = (Ret true, w))
      by (unfold optIncludes, includes; simpl; rewrite Hin; reflexivity).
    repeat match goal with
           | |- context [match ?x with _ => _ end] => destruct x; try exact R
           end.
    all: reflexivity.
Qed.

Lemma getAccessTokenOr401_stored (w : World) (store : jsval) :
  tokenFile w = Content (Encodes store) ->
  Js.truthy (stored store "access_token") = true ->
  getAccessTokenOr401 w = (Ret (stored store "access_token"), w).
Proof.
  intros Hfile Hat. unfold getAccessTokenOr401.
  erewrite bind_Ret by (apply readTokens_valid; exact Hfile).
  fold (stored store "access_token"). unfold Js.falsy. rewrite Hat.
  reflexivity.
Qed.

(** The probe is refused with an invalid or expired token: the gate is
    the refresh block, run after the probe. *)
Lemma getValidAccessToken_probe_refused (w : World) (store : jsval)
  (err : JsError) :
  tokenFile w = Content (Encodes store) ->
  Js.truthy (stored store "access_token") = true ->
  upstream w (length (calls w)) (UsersMe (stored store "access_token"))
  = Rejected err ->
  tokenRejected err ->
  getValidAccessToken w =
    refreshBlock
      (set_calls (calls w ++ [ UsersMe (stored store "access_token") ]) w).
Proof.
  intros Hfile Hat Hprobe Hrej. unfold getValidAccessToken.
  erewrite bind_Ret by (apply getAccessTokenOr401_stored; eassumption).
  unfold Js.falsy. rewrite Hat. cbn [negb].
  erewrite try_catch_Throw
    by (erewrite bind_Throw by (apply axios_Rejected; exact Hprobe);
        reflexivity).
  erewrite bind_Ret by (apply signalsExpired_sound; exact Hrej).
  reflexivity.
Qed.

(** The refresh path of [getValidAccessToken]: the probe is refused with
    an invalid or expired token, a refresh token is stored, and the
    refresh call resolves with a token record. The refresh is posted with
    the stored refresh token, the record replaces [etsy] in the token
    file, nothing is sent to the client, and the new access token is
    returned. *)
Lemma getValidAccessToken_refreshes (w : World) (fs : list (string * jsval))
  (err : JsError) (r : HttpResponse) :
  tokenFile w = Content (Encodes (JObject fs)) ->
  Js.truthy (stored (JObject fs) "access_token") = true ->
  upstream w (length (calls w)) (UsersMe (stored (JObject fs) "access_token"))
  = Rejected err ->
  tokenRejected err ->
  Js.truthy (stored (JObject fs) "refresh_token") = true ->
  upstream w (S (length (calls w)))
    (TokenRefresh (stored (JObject fs) "refresh_token")) = Resolved r ->
  Js.is_nullish (data r) = false ->
  getValidAccessToken w =
    (Ret (Js.optget (data r) "access_token"),
     set_tokenFile
       (Content (Encodes (jsonify (JObject (Js.assign "etsy" (data r) fs)))))
       (set_calls (calls w ++ [ UsersMe (stored (JObject fs) "access_token");
                                TokenRefresh (stored (JObject fs) "refresh_token") ])
                  w)).
Proof.
  intros Hfile Hat Hprobe Hrej Hrt Hrefresh Hdata.
  rewrite (getValidAccessToken_probe_refused w _ err Hfile Hat Hprobe Hrej).
  unfold refreshBlock.
  erewrite try_catch_Ret; [ reflexivity | ].
  erewrite bind_Ret by (apply readTokens_valid; exact Hfile).
  fold (stored (JObject fs) "refresh_token").
  unfold Js.falsy. rewrite Hrt. cbn [negb].
  erewrite bind_Ret
    by (apply axios_Resolved; cbn [calls upstream set_calls];
        rewrite length_app, Nat.add_1_r; exact Hrefresh).
  erewrite bind_Ret by reflexivity.
  erewrite bind_Ret by reflexivity.
  unfold prop. rewrite Hdata. cbn [calls set_calls].
  rewrite <- app_assoc. reflexivity.
Qed.

(** The same path with no refresh token in the store: the gate returns
    [null] having posted nothing and sent nothing to the client. *)
Lemma getValidAccessToken_no_refresh_token (w : World) (store : jsval)
  (err : JsError) :
  tokenFile w = Content (Encodes store) ->
  Js.truthy (stored store "access_token") = true ->
  upstream w (length (calls w)) (UsersMe (stored store "access_token"))
  = Rejected err ->
  tokenRejected err ->
  Js.truthy (stored store "refresh_token") = false ->
  getValidAccessToken w =
    (Ret JNull,
     set_calls (calls w ++ [ UsersMe (stored store "access_token") ]) w).
Proof.
  intros Hfile Hat Hprobe Hrej Hrt.
  rewrite (getValidAccessToken_probe_refused w _ err Hfile Hat Hprobe Hrej).
  unfold refreshBlock.
  erewrite try_catch_Ret; [ reflexivity | ].
  erewrite bind_Ret by (apply readTokens_valid; exact Hfile).
  fold (stored store "refresh_token").
  unfold Js.falsy. rewrite Hrt. reflexivity.
Qed.

(** ** Validation *)

Lemma In_pushIf (c : bool) (m x : string) (errors : list string) :
  In x (pushIf c m errors) <-> In x errors \/ (c = true /\ m = x).
Proof.
  unfold pushIf. destruct c.
  - rewrite in_app_iff. simpl. intuition congruence.
  - intuition congruence.
Qed.

Lemma In_pushDimension (v : jsval) (m x : string) (errors : list string) :
  In x (pushDimension v m errors)
  <-> In x errors
      \/ ((Js.is_undefined v = false /\ validPositiveNumber v = false) /\ m = x).
Proof.
  unfold pushDimension. rewrite In_pushIf.
  destruct (Js.is_undefined v), (validPositiveNumber v); simpl;
    intuition congruence.
Qed.

(** Rewrites membership in the [errors] array into the conditions of the
    [if] statements that push to it. *)
Ltac in_errors :=
  unfold validate;
  repeat match goal with
         | |- context [if ?c then _ else _] => destruct c eqn:?
         end;
  repeat (rewrite In_pushDimension || rewrite In_pushIf);
  cbn [In].

Lemma missingText_blank (v : jsval) : missingText v -> blankText v = true.
Proof.
  intros [H | (s & -> & Hs)]; unfold blankText.
  - rewrite H. simpl. rewrite orb_true_r. reflexivity.
  - simpl. rewrite Hs. simpl. apply orb_true_r.
Qed.

Lemma validate_title (body : jsval) :
  blankText (Js.optget body "title") = true -> In err_title (validate body).
Proof. intros H. in_errors; rewrite H; tauto. Qed.

Lemma validate_description (body : jsval) :
  blankText (Js.optget body "description") = true ->
  In err_description (validate body).
Proof. intros H. in_errors; rewrite H; tauto. Qed.

Lemma validate_when_made (body : jsval) :
  Js.falsy (Js.optget body "when_made")
  || negb (Js.one_of when_made_values (Js.optget body "when_made")) = true ->
  In err_when_made (validate body).
Proof. intros H. in_errors; rewrite H; tauto. Qed.

Lemma validate_item_weight (body : jsval) :
  In err_item_weight (validate body)
  <-> isPhysical (Js.optget body "type") = true
      /\ Js.is_undefined (Js.optget body "item_weight") = false
      /\ validPositiveNumber (Js.optget body "item_weight") = false.
Proof.
  in_errors; unfold err_item_weight; intuition (discriminate || congruence).
Qed.

Lemma In_nonempty {A} (x : A) (l : list A) : In x l -> l <> [].
Proof. intros H ->. destruct H. Qed.

(** C3, as amended: when the access-token gate yields a token and no
    [Number(...)] of the validation block throws, a request whose [title]
    and [description] are both missing, empty, blank or not strings is
    answered 400, and the error list, which is the whole list validation
    builds, names both. *)
Theorem createListing_lists_title_and_description (req_body tok : jsval)
  (w w1 : World) :
  getValidAccessToken w = (Ret tok, w1) ->
  Js.truthy tok = true ->
  validationThrows (Js.or req_body (JObject [])) = false ->
  missingText (Js.optget (Js.or req_body (JObject [])) "title") ->
  missingText (Js.optget (Js.or req_body (JObject [])) "description") ->
  let errors := validate (Js.or req_body (JObject [])) in
  res (snd (createListing req_body w)) = Some (rejection errors)
  /\ calls (snd (createListing req_body w)) = calls w1
  /\ In err_title errors /\ In err_description errors.
Proof.
  intros Hgate Htok Hnt Ht Hd errors.
  assert (It : In err_title errors)
    by (apply validate_title, missingText_blank, Ht).
  assert (Id : In err_description errors)
    by (apply validate_description, missingText_blank, Hd).
  rewrite (createListing_invalid req_body tok w w1 Hgate Htok Hnt
             (In_nonempty _ _ It)).
  repeat split; assumption.
Qed.

Lemma one_of_false (lits : list string) (v : jsval) :
  (forall s, In s lits -> v <> JString s) -> Js.one_of lits v = false.
Proof.
  intros H. destruct v as [ | | | | s | | ]; try reflexivity. simpl.
  apply not_true_is_false. intros E. apply existsb_exists in E.
  destruct E as (x & Hin & Heq). apply String.eqb_eq in Heq. subst x.
  exact (H s Hin eq_refl).
Qed.

(** C7, as amended: when the access-token gate yields a token and no
    [Number(...)] of the validation block throws, a request whose
    [when_made] is absent or is not one of the nineteen accepted strings
    is answered 400 with "Invalid when_made value" in the error list. *)
Theorem createListing_rejects_when_made (req_body tok : jsval) (w w1 : World) :
  getValidAccessToken w = (Ret tok, w1) ->
  Js.truthy tok = true ->
  validationThrows (Js.or req_body (JObject [])) = false ->
  (forall s, In s when_made_values ->
             Js.optget (Js.or req_body (JObject [])) "when_made" <> JString s) ->
  let errors := validate (Js.or req_body (JObject [])) in
  res (snd (createListing req_body w)) = Some (rejection errors)
  /\ In err_when_made errors
  /\ when_made_values =
       [ "made_to_order"; "2020_2024"; "2010_2019"; "2006_2009";
         "before_2006"; "2000_2005"; "1990s"; "1980s"; "1970s"; "1960s";
         "1950s"; "1940s"; "1930s"; "1920s"; "1910s"; "1900s"; "1800s";
         "1700s"; "before_1700" ].
Proof.
  intros Hgate Htok Hnt Hv errors.
  assert (Iw : In err_when_made errors).
  { apply validate_when_made. rewrite (one_of_false _ _ Hv).
    apply orb_true_r. }
  rewrite (createListing_invalid req_body tok w w1 Hgate Htok Hnt
             (In_nonempty _ _ Iw)).
  repeat split; assumption.
Qed.

Lemma assoc_without (k k' : string) (fs : list (string * jsval)) :
  k' <> k -> Js.assoc k' (without k fs) = Js.assoc k' fs.
Proof.
  intros Hne. induction fs as [ | [k0 v] fs IH ]; [ reflexivity | ].
  simpl. destruct (String.eqb_spec k k0) as [-> | Hk]; simpl.
  - destruct (String.eqb_spec k' k0); [ contradiction | exact IH ].
  - destruct (String.eqb_spec k' k0); [ reflexivity | exact IH ].
Qed.

(** Outside physical listings, [item_weight] is read by nothing: the
    handler runs on the body as it runs on the body without the field. *)
Lemma createListing_ignores_item_weight (fs : list (string * jsval)) :
  isPhysical (Js.assoc "type" fs) = false ->
  createListing (JObject fs) = createListing (JObject (without "item_weight" fs)).
Proof.
  intros Hphys.
  assert (Hphys' : isPhysical (Js.assoc "type" (without "item_weight" fs)) = false)
    by (rewrite assoc_without by discriminate; exact Hphys).
  unfold createListing, validation, buildPayload, updateInventory,
    payload_fields.
  cbn [Js.or Js.truthy Js.optget map].
  rewrite Hphys, Hphys'.
  rewrite !(assoc_without "item_weight") by discriminate.
  reflexivity.
Qed.


(** ** The upstream calls of the image loop *)

Lemma uploads_app (l1 l2 : list HttpRequest) :
  uploads (l1 ++ l2) = uploads l1 + uploads l2.
Proof. unfold uploads. rewrite List.filter_app, length_app. reflexivity. Qed.

Section Logs.

Variable ok : HttpRequest -> Prop.

Lemma logs_keeps {A} (n : nat) (m : M A) : keeps calls m -> logs ok n m.
Proof.
  intros H w. exists []. rewrite H, app_nil_r.
  repeat split; [ constructor | apply Nat.le_0_l ].
Qed.

Lemma logs_weaken {A} (n n' : nat) (m : M A) :
  n <= n' -> logs ok n m -> logs ok n' m.
Proof.
  intros Hle H w. destruct (H w) as (new & E & F & U).
  exists new. repeat split; [ exact E | exact F | lia ].
Qed.

Lemma logs_bind {A B} (n n' : nat) (m : M A) (k : A -> M B) :
  logs ok n m -> (forall a, logs ok n' (k a)) -> logs ok (n + n') (m ≫= k).
Proof.
  intros Hm Hk w. unfold mbind, M_bind, bind.
  destruct (Hm w) as (new & E & F & U).
  destruct (m w) as [[a | e] w']; simpl in *.
  - destruct (Hk a w') as (new' & E' & F' & U').
    exists (new ++ new'). rewrite E', E, app_assoc, uploads_app.
    repeat split; [ apply Forall_app; split; assumption | lia ].
  - exists new. repeat split; [ exact E | exact F | lia ].
Qed.

Lemma logs_try_catch {A} (n n' : nat) (m : M A) (h : JsError -> M A) :
  logs ok n m -> (forall e, logs ok n' (h e)) ->
  logs ok (n + n') (try_catch m h).
Proof.
  intros Hm Hh w. unfold try_catch.
  destruct (Hm w) as (new & E & F & U).
  destruct (m w) as [[a | e] w']; simpl in *.
  - exists new. repeat split; [ exact E | exact F | lia ].
  - destruct (Hh e w') as (new' & E' & F' & U').
    exists (new ++ new'). rewrite E', E, app_assoc, uploads_app.
    repeat split; [ apply Forall_app; split; assumption | lia ].
Qed.

Lemma logs_try_finally {A} (n : nat) (m : M A) (c : M unit) :
  logs ok n m -> keeps calls c -> logs ok n (try_finally m c).
Proof.
  intros Hm Hc w. unfold try_finally.
  destruct (Hm w) as (new & E & F & U).
  destruct (m w) as [o w']. specialize (Hc w').
  exists new. destruct (c w') as [[u | e] w'']; simpl in *;
    rewrite Hc, E; repeat split; assumption.
Qed.

Lemma logs_axios (rq : HttpRequest) : ok rq -> logs ok 1 (axios rq).
Proof.
  intros H w. exists [rq]. unfold axios.
  destruct (upstream w (length (calls w)) rq); simpl;
    (repeat split; [ repeat constructor; exact H | ]);
    unfold uploads; simpl; destruct (isUpload rq); simpl; lia.
Qed.

Lemma logs_axios_other (rq : HttpRequest) :
  ok rq -> isUpload rq = false -> logs ok 0 (axios rq).
Proof.
  intros H Hu w. exists [rq]. unfold axios.
  destruct (upstream w (length (calls w)) rq); simpl;
    (repeat split; [ repeat constructor; exact H | ]);
    unfold uploads; simpl; rewrite Hu; simpl; lia.
Qed.

End Logs.

Lemma keeps_randomHex {X} (f : World -> X) :
  (forall n w, f (set_drawn n w) = f w) -> keeps f randomHex.
Proof. intros H w. apply H. Qed.

Lemma keeps_writeTemp {X} (f : World -> X) (name : string) :
  (forall l w, f (set_tmpFiles l w) = f w) -> keeps f (writeTemp name).
Proof.
  intros H w. unfold writeTemp, modify. simpl.
  destruct (existsb (String.eqb name) (tmpFiles w)); [ reflexivity | apply H ].
Qed.

Lemma keeps_unlinkTemp {X} (f : World -> X) (t : option string) :
  (forall l w, f (set_tmpFiles l w) = f w) -> keeps f (unlinkTemp t).
Proof. intros H w. destruct t; simpl; [ apply H | reflexivity ]. Qed.

(** The same for the steps of the image loop. *)
Ltac frame_upload_step :=
  match goal with
  | |- keeps _ randomHex => apply keeps_randomHex; frame_side
  | |- keeps _ (writeTemp _) => apply keeps_writeTemp; frame_side
  | |- keeps _ (unlinkTemp _) => apply keeps_unlinkTemp; frame_side
  | |- keeps _ (catchBlock _ _ _) => unfold catchBlock
  | |- keeps _ (download _ _) => unfold download
  | |- keeps _ (upload _ _ _ _) => unfold upload
  | |- _ => frame_step
  end.

Ltac frame_upload := repeat frame_upload_step.

Section ImageCalls.

Variables (access_token listing_id filePath : jsval) (i : nat).

Local Abbreviation thisEntry := (forEntry access_token listing_id filePath i).

Lemma download_logs (l : Locals) : logs thisEntry 0 (download filePath l).
Proof.
  unfold download. apply (logs_bind thisEntry 0 0).
  - apply logs_keeps. frame_upload.
  - intros str. destruct (isUrl str).
    + apply (logs_bind thisEntry 0 0).
      * apply logs_axios_other; [ left; reflexivity | reflexivity ].
      * intros _. apply logs_keeps. frame_upload.
    + apply logs_keeps. frame_upload.
Qed.

Lemma upload_logs (l : Locals) :
  logs thisEntry 1 (upload access_token listing_id i l).
Proof.
  unfold upload.
  destruct (localPath l); try solve [ apply logs_keeps; frame_upload ].
  apply (logs_bind thisEntry 1 0).
  - apply logs_axios. right. eexists. reflexivity.
  - intros r. apply logs_keeps. frame_upload.
Qed.

Lemma tryBlock_logs (l : Locals) :
  logs thisEntry 1 (tryBlock access_token listing_id filePath i l).
Proof.
  intros w. unfold tryBlock.
  destruct (download_logs l w) as (new & E & F & U).
  destruct (download filePath l w) as [[l' | e] w']; simpl in *.
  - destruct (upload_logs l' w') as (new' & E' & F' & U').
    destruct (upload access_token listing_id i l' w') as [o w'']; simpl in *.
    exists (new ++ new'). rewrite E', E, app_assoc, uploads_app.
    repeat split; [ apply Forall_app; split; assumption | lia ].
  - exists new. repeat split; [ exact E | exact F | lia ].
Qed.

Lemma iteration_logs (attempt maxRetries : nat) (l : Locals) :
  logs thisEntry 1
    (iteration access_token listing_id filePath i attempt maxRetries l).
Proof.
  unfold iteration. apply (logs_bind thisEntry 1 0); [ apply tryBlock_logs | ].
  intros r. apply logs_keeps. frame_upload.
Qed.

(** The loop makes at most one upload attempt per iteration, and at most
    [k] iterations. *)
Lemma retryLoop_logs (k attempt maxRetries : nat) (l : Locals) :
  logs thisEntry k
    (retryLoop k access_token listing_id filePath i attempt maxRetries l).
Proof.
  revert attempt l. induction k as [ | k IH ]; intros attempt l; simpl.
  - apply logs_keeps. frame.
  - apply (logs_bind thisEntry 1 k); [ apply iteration_logs | ].
    intros [c l']. simpl. destruct c.
    + apply logs_keeps. frame.
    + apply IH.
    + apply logs_keeps. frame.
Qed.

Lemma uploadImageWithRetry_logs (maxRetries : nat) :
  logs thisEntry maxRetries
    (uploadImageWithRetry access_token listing_id filePath i maxRetries).
Proof. apply retryLoop_logs. Qed.

End ImageCalls.

(** ** What the image loop leaves untouched *)

Section ImageFrame.

Context {X : Type} (f : World -> X).

(** The projection [f] reads none of what the image loop writes. *)
Hypothesis f_calls : forall l w, f (set_calls l w) = f w.
Hypothesis f_drawn : forall n w, f (set_drawn n w) = f w.
Hypothesis f_tmpFiles : forall l w, f (set_tmpFiles l w) = f w.
Hypothesis f_slept : forall n w, f (set_slept n w) = f w.

Lemma keeps_tryBlock (tok lid filePath : jsval) (i : nat) (l : Locals) :
  keeps f (tryBlock tok lid filePath i l).
Proof.
  intros w. unfold tryBlock.
  assert (Hd : keeps f (download filePath l)) by frame_upload.
  specialize (Hd w). destruct (download filePath l w) as [[l' | e] w1];
    simpl in *; [ | exact Hd ].
  assert (Hu : keeps f (upload tok lid i l')) by frame_upload.
  specialize (Hu w1). destruct (upload tok lid i l' w1) as [o w2].
  simpl in *. congruence.
Qed.

Lemma keeps_iteration (tok lid filePath : jsval) (i attempt maxRetries : nat)
  (l : Locals) :
  keeps f (iteration tok lid filePath i attempt maxRetries l).
Proof.
  unfold iteration. apply keeps_bind; [ apply keeps_tryBlock | ].
  intros r. frame_upload.
Qed.

Lemma keeps_retryLoop (k : nat) (tok lid filePath : jsval)
  (i attempt maxRetries : nat) (l : Locals) :
  keeps f (retryLoop k tok lid filePath i attempt maxRetries l).
Proof.
  revert attempt l. induction k as [ | k IH ]; intros attempt l; simpl.
  - apply keeps_ret.
  - apply keeps_bind; [ apply keeps_iteration | ].
    intros [c l']. simpl. destruct c; [ apply keeps_ret | apply IH | apply keeps_ret ].
Qed.

Lemma keeps_uploadAll (tok lid : jsval) (files : list jsval) :
  forall (i : nat) (ids : list jsval), keeps f (uploadAll tok lid files i ids).
Proof.
  induction files as [ | p rest IH ]; intros i ids; simpl.
  - apply keeps_ret.
  - apply keeps_bind; [ apply keeps_retryLoop | ]. intros r. apply IH.
Qed.

End ImageFrame.

Lemma keeps_upstream_iteration (tok lid filePath : jsval)
  (i attempt maxRetries : nat) (l : Locals) :
  keeps upstream (iteration tok lid filePath i attempt maxRetries l).
Proof. apply keeps_iteration; reflexivity. Qed.

Lemma keeps_signalsExpired {X} (f : World -> X) (err : JsError) :
  keeps f (signalsExpired err).
Proof.
  unfold signalsExpired.
  repeat match goal with
         | |- context [match ?x with _ => _ end] => destruct x
         end;
    solve [ apply keeps_ret | apply keeps_optIncludes ].
Qed.

(** Nothing sweeps the PKCE store: the token endpoint, the access-token
    gate and the listing handler leave it as it is. *)
Lemma pkceStore_kept_elsewhere :
  keeps pkceStore tokenRefresh
  /\ keeps pkceStore getValidAccessToken
  /\ forall req_body, keeps pkceStore (createListing req_body).
Proof.
  assert (Hgate : keeps pkceStore getValidAccessToken).
  { unfold getValidAccessToken, getAccessTokenOr401.
    repeat first [ apply keeps_signalsExpired | frame_step ]. }
  split; [ unfold tokenRefresh; frame | split; [ exact Hgate | ] ].
  intros req_body. unfold createListing.
  apply keeps_bind; [ exact Hgate | ]. intros tok.
  unfold uploadImages, updateInventory, uploadVideo, ensureTmpDir.
  repeat first [ apply keeps_uploadAll; reflexivity | frame_step ].
Qed.

(** ** One attempt at an image *)

Lemma catchBlock_noResult (attempt maxRetries : nat) (e : JsError)
  (w w' : World) (c : Completion) :
  catchBlock attempt maxRetries e w = (Ret c, w') -> noResult c.
Proof.
  unfold catchBlock. destruct (Js.truthy (errorMsgOf e)).
  - unfold mbind, M_bind, bind.
    destruct (includes "errorMsg.includes" (errorMsgOf e) transient w)
      as [[b | e'] w1];
      [ | discriminate ].
    destruct (b && Nat.ltb attempt (maxRetries - 1));
      intros H; injection H as <- _; exact I.
  - intros H. injection H as <- _. exact I.
Qed.

Lemma transient_truthy (s : string) :
  Js.str_includes s transient = true -> Js.truthy (JString s) = true.
Proof. destruct s; [ discriminate | reflexivity ]. Qed.

Lemma download_local (p : string) (l : Locals) (w : World) :
  isUrl p = false -> download (JString p) l w = (Ret l, w).
Proof.
  intros H. unfold download.
  rewrite (bind_Ret _ _ _ _ _ (callString_run (JString p) w eq_refl)).
  cbn [String_]. rewrite H. reflexivity.
Qed.

Lemma download_url (p : string) (l : Locals) (w : World) (d : HttpResponse) :
  isUrl p = true ->
  upstream w (length (calls w)) (DownloadImage (JString p)) = Resolved d ->
  let name :=
    (entropy w (drawn w)
     ++ (if String.eqb (extname p) "" then ".jpg" else extname p))%string in
  download (JString p) l w
  = (Ret {| localPath := JString name; tempFile := Some name |},
     snd (writeTemp name
            (set_drawn (S (drawn w))
               (set_calls (calls w ++ [ DownloadImage (JString p) ]) w)))).
Proof.
  intros Hurl Hd name. unfold download.
  rewrite (bind_Ret _ _ _ _ _ (callString_run (JString p) w eq_refl)).
  cbn [String_]. rewrite Hurl.
  erewrite bind_Ret by (apply axios_Resolved; exact Hd).
  unfold randomHex. erewrite bind_Ret by reflexivity.
  cbv zeta. erewrite bind_Ret by reflexivity.
  reflexivity.
Qed.

Lemma download_url_refused (p : string) (l : Locals) (w : World) (e : JsError) :
  isUrl p = true ->
  upstream w (length (calls w)) (DownloadImage (JString p)) = Rejected e ->
  download (JString p) l w
  = (Throw e, set_calls (calls w ++ [ DownloadImage (JString p) ]) w).
Proof.
  intros Hurl Hd. unfold download.
  rewrite (bind_Ret _ _ _ _ _ (callString_run (JString p) w eq_refl)).
  cbn [String_]. rewrite Hurl.
  apply bind_Throw, axios_Rejected, Hd.
Qed.

(** The upload of the [try] block: the call is made, whatever the
    answer, and the block completes as the answer has it. *)
Lemma upload_run (tok lid : jsval) (i : nat) (l : Locals) (p : string)
  (w : World) :
  localPath l = JString p ->
  let rq := UploadImage tok lid p (pretty (i + 1)) in
  let answer := upstream w (length (calls w)) rq in
  let w1 := set_calls (calls w ++ [ rq ]) w in
  upload tok lid i l w
  = (uploadCompletes answer,
     match answer with
     | Resolved r =>
         if Js.truthy (idOf r) then snd (unlinkTemp (tempFile l) w1) else w1
     | Rejected _ => w1
     end).
Proof.
  intros Hl rq answer w1. unfold upload. rewrite Hl. fold rq.
  subst answer. destruct (upstream w (length (calls w)) rq) as [r | e] eqn:E.
  - rewrite (bind_Ret _ _ _ _ _ (axios_Resolved rq w r E)). cbv zeta.
    fold (idOf r). fold w1. unfold uploadCompletes.
    destruct (Js.truthy (idOf r)); [ | reflexivity ].
    assert (U : unlinkTemp (tempFile l) w1
                = (Ret tt, snd (unlinkTemp (tempFile l) w1)))
      by (destruct (tempFile l); reflexivity).
    rewrite (bind_Ret _ _ _ _ _ U).
    destruct (Js.convertible (idOf r)) eqn:C.
    + rewrite (bind_Ret _ _ _ _ _ (callString_run _ _ C)). reflexivity.
    + apply bind_Throw, callString_throws, C.
  - rewrite (bind_Throw _ _ _ _ _ (axios_Rejected rq w e E)). reflexivity.
Qed.

Lemma upload_accepted (tok lid : jsval) (i : nat) (l : Locals) (p : string)
  (w : World) (r : HttpResponse) :
  localPath l = JString p ->
  upstream w (length (calls w)) (UploadImage tok lid p (pretty (i + 1)))
  = Resolved r ->
  Js.truthy (idOf r) = true ->
  upload tok lid i l w
  = (if Js.convertible (idOf r)
     then Ret (Return_ (JString (String_ (idOf r))))
     else Throw cannotConvert,
     snd (unlinkTemp (tempFile l)
            (set_calls (calls w ++ [ UploadImage tok lid p (pretty (i + 1)) ]) w))).
Proof.
  intros Hl Hup Hid. rewrite (upload_run tok lid i l p w Hl). cbv zeta.
  rewrite Hup. unfold uploadCompletes. rewrite Hid. reflexivity.
Qed.

(** The [catch] block, on each kind of message. *)
Lemma catchBlock_retries (attempt maxRetries : nat) (e : JsError) (w : World) :
  transientMessage e ->
  S attempt < maxRetries ->
  catchBlock attempt maxRetries e w
  = (Ret Continue_, set_slept (slept w + 2000) w).
Proof.
  intros (s & Hs & Hinc) Hlt. unfold catchBlock. rewrite Hs.
  rewrite (transient_truthy s Hinc).
  unfold includes. erewrite bind_Ret by reflexivity.
  rewrite Hinc.
  assert (Hl : Nat.ltb attempt (maxRetries - 1) = true)
    by (apply Nat.ltb_lt; lia).
  rewrite Hl. reflexivity.
Qed.

Lemma catchBlock_exhausted (attempt maxRetries : nat) (e : JsError) (w : World) :
  transientMessage e ->
  maxRetries <= S attempt ->
  catchBlock attempt maxRetries e w = (Ret Break_, w).
Proof.
  intros (s & Hs & Hinc) Hle. unfold catchBlock. rewrite Hs.
  rewrite (transient_truthy s Hinc).
  unfold includes. erewrite bind_Ret by reflexivity.
  rewrite Hinc.
  assert (Hl : Nat.ltb attempt (maxRetries - 1) = false)
    by (apply Nat.ltb_ge; lia).
  rewrite Hl. reflexivity.
Qed.

Lemma catchBlock_gives_up (attempt maxRetries : nat) (e : JsError) (w : World) :
  notTransient e -> catchBlock attempt maxRetries e w = (Ret Break_, w).
Proof.
  intros [H | [(s & Hs & Hinc) | (items & Hs & Hinc)]]; unfold catchBlock.
  - rewrite H. reflexivity.
  - rewrite Hs. destruct (Js.truthy (JString s)); [ | reflexivity ].
    unfold includes. erewrite bind_Ret by reflexivity.
    rewrite Hinc. reflexivity.
  - rewrite Hs. destruct (Js.truthy (JArray items)); [ | reflexivity ].
    unfold includes. erewrite bind_Ret by reflexivity.
    rewrite Hinc. reflexivity.
Qed.

Lemma catchBlock_throws (attempt maxRetries : nat) (e : JsError) (w : World) :
  malformedMessage e ->
  catchBlock attempt maxRetries e w
  = (Throw (TypeError "errorMsg.includes is not a function"), w).
Proof.
  intros (Ht & Hs & Ha). unfold catchBlock. rewrite Ht.
  apply bind_Throw. destruct (errorMsgOf e); try discriminate; reflexivity.
Qed.

Lemma cannotConvert_notTransient : notTransient cannotConvert.
Proof. right. left. eexists. split; reflexivity. Qed.

Section LocalPath.

Variables (access_token listing_id : jsval) (p : string) (i : nat).

(** The entry is a local path. *)
Hypothesis local_path : isUrl p = false.

Let attemptCall : HttpRequest :=
  UploadImage access_token listing_id p (pretty (i + 1)).

Let start : Locals := {| localPath := JString p; tempFile := None |}.

(** An iteration on a local path: one upload, and what its answer makes
    of the attempt. *)
Lemma iteration_local (attempt maxRetries : nat) (w : World) :
  iteration access_token listing_id (JString p) i attempt maxRetries start w
  = (c ← match uploadCompletes (upstream w (length (calls w)) attemptCall) with
         | Ret c => ret c
         | Throw imgErr => catchBlock attempt maxRetries imgErr
         end;
     ret (c, start)) (set_calls (calls w ++ [ attemptCall ]) w).
Proof.
  assert (Ht : tryBlock access_token listing_id (JString p) i start w
               = (Ret (start,
                       uploadCompletes
                         (upstream w (length (calls w)) attemptCall)),
                  set_calls (calls w ++ [ attemptCall ]) w)).
  { unfold tryBlock. rewrite (download_local p start w local_path).
    rewrite (upload_run access_token listing_id i start p w eq_refl).
    cbv zeta. fold attemptCall.
    destruct (upstream w (length (calls w)) attemptCall) as [r | e];
      [ destruct (Js.truthy (idOf r)) | ]; reflexivity. }
  unfold iteration. rewrite (bind_Ret _ _ _ _ _ Ht). cbn [fst snd].
  unfold try_finally, mbind, M_bind, bind. cbn [tempFile start unlinkTemp].
  destruct (uploadCompletes (upstream w (length (calls w)) attemptCall))
    as [c | e].
  - reflexivity.
  - destruct (catchBlock attempt maxRetries e
                (set_calls (calls w ++ [ attemptCall ]) w)) as [[c | e'] w'];
      reflexivity.
Qed.

Lemma iteration_local_calls (attempt maxRetries : nat) (w : World) :
  let out := iteration access_token listing_id (JString p) i attempt
               maxRetries start w in
  calls (snd out) = calls w ++ [ attemptCall ]
  /\ forall c l, fst out = Ret (c, l) -> l = start.
Proof.
  cbv zeta. rewrite iteration_local.
  set (w1 := set_calls (calls w ++ [ attemptCall ]) w).
  set (m := match uploadCompletes _ with Ret c => ret c | Throw e => _ end).
  assert (K : keeps calls m) by (subst m; destruct (uploadCompletes _); frame_upload).
  specialize (K w1). unfold mbind, M_bind, bind.
  destruct (m w1) as [[c | e] w2]; simpl in *.
  - split; [ exact K | ]. intros c' l H. injection H as _ <-. reflexivity.
  - split; [ exact K | ]. intros c' l H. discriminate H.
Qed.

(** The loop on a local path makes between one and [k] upload attempts,
    all of them the same call. *)
Lemma retryLoop_local (k attempt maxRetries : nat) (w : World) :
  exists j,
    j <= k
    /\ calls (snd (retryLoop (S k) access_token listing_id (JString p) i attempt
                     maxRetries start w))
       = calls w ++ repeat attemptCall (S j).
Proof.
  revert attempt w. induction k as [ | k IH ]; intros attempt w.
  - exists 0. split; [ reflexivity | ].
    cbn [retryLoop].
    destruct (iteration_local_calls attempt maxRetries w) as (E & L).
    unfold mbind, M_bind, bind.
    destruct (iteration access_token listing_id (JString p) i attempt
                maxRetries start w) as [[[c l] | e] w1]; simpl in *;
      [ destruct c | ]; exact E.
  - change (retryLoop (S (S k)) access_token listing_id (JString p) i attempt
              maxRetries start w)
      with ((r ← iteration access_token listing_id (JString p) i attempt
                   maxRetries start;
             match fst (r : Completion * Locals) with
             | Return_ v => ret v
             | Continue_ =>
                 retryLoop (S k) access_token listing_id (JString p) i
                   (S attempt) maxRetries (snd r)
             | Break_ => ret JNull
             end) w).
    destruct (iteration_local_calls attempt maxRetries w) as (E & L).
    unfold mbind, M_bind, bind.
    destruct (iteration access_token listing_id (JString p) i attempt
                maxRetries start w) as [[[c l] | e] w1]; simpl in E, L.
    + cbn [fst snd]. destruct c.
      * exists 0. split; [ lia | exact E ].
      * rewrite (L _ _ eq_refl).
        destruct (IH (S attempt) w1) as (j & Hj & Ej).
        exists (S j). split; [ lia | ].
        rewrite Ej, E, <- app_assoc. reflexivity.
      * exists 0. split; [ lia | exact E ].
    + exists 0. split; [ lia | exact E ].
Qed.

(** A refusal that is not transient ends the attempts at once, whatever
    the upstream would answer to another attempt. *)
Lemma uploadImageWithRetry_refused (maxRetries : nat) (w : World) (e : JsError) :
  upstream w (length (calls w)) attemptCall = Rejected e ->
  notTransient e ->
  uploadImageWithRetry access_token listing_id (JString p) i (S maxRetries) w
  = (Ret JNull, set_calls (calls w ++ [ attemptCall ]) w).
Proof.
  intros Hup Hn. unfold uploadImageWithRetry. fold start. cbn [retryLoop].
  erewrite bind_Ret; [ | rewrite iteration_local, Hup; cbn [uploadCompletes];
                         erewrite bind_Ret by (apply catchBlock_gives_up, Hn);
                         reflexivity ].
  reflexivity.
Qed.

(** A refusal whose message is neither a string nor an array makes the
    [catch] block itself throw: the function does not return. *)
Lemma uploadImageWithRetry_malformed (maxRetries : nat) (w : World)
  (e : JsError) :
  upstream w (length (calls w)) attemptCall = Rejected e ->
  malformedMessage e ->
  uploadImageWithRetry access_token listing_id (JString p) i (S maxRetries) w
  = (Throw (TypeError "errorMsg.includes is not a function"),
     set_calls (calls w ++ [ attemptCall ]) w).
Proof.
  intros Hup Hm. unfold uploadImageWithRetry. fold start. cbn [retryLoop].
  apply bind_Throw. rewrite iteration_local, Hup. cbn [uploadCompletes].
  apply bind_Throw, catchBlock_throws, Hm.
Qed.

(** Three transient refusals in a row exhaust the bound: three attempts,
    two seconds apart, and [null]. *)
Lemma uploadImageWithRetry_locked (w : World) :
  (forall k, k < 3 ->
     exists e, upstream w (length (calls w) + k) attemptCall = Rejected e
               /\ transientMessage e) ->
  uploadImageWithRetry access_token listing_id (JString p) i 3 w
  = (Ret JNull,
     set_slept (slept w + 2000 + 2000)
       (set_calls (calls w ++ [ attemptCall; attemptCall; attemptCall ]) w)).
Proof.
  intros Hup.
  destruct (Hup 0) as (e0 & H0 & T0); [ lia | ].
  destruct (Hup 1) as (e1 & H1 & T1); [ lia | ].
  destruct (Hup 2) as (e2 & H2 & T2); [ lia | ].
  rewrite Nat.add_0_r in H0.
  unfold uploadImageWithRetry. fold start. cbn [retryLoop].
  set (w1 := set_slept (slept w + 2000) (set_calls (calls w ++ [ attemptCall ]) w)).
  assert (I0 : iteration access_token listing_id (JString p) i 0 3 start w
               = (Ret (Continue_, start), w1)).
  { rewrite iteration_local, H0. cbn [uploadCompletes].
    erewrite bind_Ret by (apply catchBlock_retries; [ exact T0 | lia ]).
    reflexivity. }
  rewrite (bind_Ret _ _ _ _ _ I0). cbn [fst snd].
  assert (L1 : length (calls w1) = length (calls w) + 1)
    by (subst w1; cbn [calls set_slept set_calls]; rewrite length_app; reflexivity).
  set (w2 := set_slept (slept w1 + 2000) (set_calls (calls w1 ++ [ attemptCall ]) w1)).
  assert (I1 : iteration access_token listing_id (JString p) i 1 3 start w1
               = (Ret (Continue_, start), w2)).
  { rewrite iteration_local, L1.
    change (upstream w1) with (upstream w). rewrite H1. cbn [uploadCompletes].
    erewrite bind_Ret by (apply catchBlock_retries; [ exact T1 | lia ]).
    reflexivity. }
  rewrite (bind_Ret _ _ _ _ _ I1). cbn [fst snd].
  assert (L2 : length (calls w2) = length (calls w) + 2).
  { subst w2. cbn [calls set_slept set_calls]. rewrite length_app, L1.
    simpl. lia. }
  assert (I2 : iteration access_token listing_id (JString p) i 2 3 start w2
               = (Ret (Break_, start), set_calls (calls w2 ++ [ attemptCall ]) w2)).
  { rewrite iteration_local, L2.
    change (upstream w2) with (upstream w). rewrite H2. cbn [uploadCompletes].
    erewrite bind_Ret by (apply catchBlock_exhausted; [ exact T2 | lia ]).
    reflexivity. }
  rewrite (bind_Ret _ _ _ _ _ I2). cbn [fst snd].
  unfold ret. subst w2 w1. cbn [calls slept set_calls set_slept].
  rewrite <- !app_assoc. reflexivity.
Qed.

End LocalPath.

(** ** The image ids of a stretch of the call log *)

Lemma acceptedIds_app (up : nat -> HttpRequest -> HttpResult) (l1 l2 : list HttpRequest) :
  forall n,
    acceptedIds up n (l1 ++ l2)
    = acceptedIds up n l1 ++ acceptedIds up (n + length l1) l2.
Proof.
  induction l1 as [ | rq l1 IH ]; intros n; simpl.
  - rewrite Nat.add_0_r. reflexivity.
  - rewrite IH, <- app_assoc, Nat.add_succ_r. reflexivity.
Qed.

Lemma acceptedIds_quiet (up : nat -> HttpRequest -> HttpResult)
  (log : list HttpRequest) :
  Forall (fun rq => isUpload rq = false) log ->
  forall n, acceptedIds up n log = [].
Proof.
  induction 1 as [ | rq log Hq _ IH ]; intros n; simpl; [ reflexivity | ].
  rewrite Hq, IH. reflexivity.
Qed.

Lemma download_quiet (filePath : jsval) (l : Locals) :
  logs (fun rq => isUpload rq = false) 0 (download filePath l).
Proof.
  unfold download. apply (logs_bind _ 0 0).
  - apply logs_keeps. frame_upload.
  - intros str. destruct (isUrl str).
    + apply (logs_bind _ 0 0).
      * apply logs_axios_other; reflexivity.
      * intros _. apply logs_keeps. frame_upload.
    + apply logs_keeps. frame_upload.
Qed.

Lemma try_finally_unlink {A} (m : M A) (t : option string) (w : World) :
  try_finally m (unlinkTemp t) w
  = (fst (m w), snd (unlinkTemp t (snd (m w)))).
Proof.
  unfold try_finally. destruct (m w) as [o w']. destruct t; reflexivity.
Qed.

Lemma upload_ids (tok lid : jsval) (i : nat) (l : Locals) (w : World) :
  let out := upload tok lid i l w in
  exists seg,
    calls (snd out) = calls w ++ seg
    /\ acceptedIds (upstream w) (length (calls w)) seg = returned (fst out).
Proof.
  cbv zeta. destruct (localPath l) as [ | | | | p | | ] eqn:Hl;
    try (exists []; unfold upload; rewrite Hl; simpl; rewrite app_nil_r;
         split; reflexivity).
  rewrite (upload_run tok lid i l p w Hl). cbv zeta.
  exists [ UploadImage tok lid p (pretty (i + 1)) ]. cbn [fst snd].
  split.
  - destruct (upstream w (length (calls w))
                (UploadImage tok lid p (pretty (i + 1)))) as [r | e];
      [ destruct (Js.truthy (idOf r)) | ]; try reflexivity.
    destruct (tempFile l); reflexivity.
  - cbn [acceptedIds isUpload]. rewrite app_nil_r.
    destruct (upstream w (length (calls w))
                (UploadImage tok lid p (pretty (i + 1)))) as [r | e];
      [ | reflexivity ].
    unfold acceptedId, uploadCompletes, returned, pushed.
    destruct (Js.truthy (idOf r)); [ | reflexivity ].
    destruct (Js.convertible (idOf r)); reflexivity.
Qed.

Lemma tryBlock_ids (tok lid filePath : jsval) (i : nat) (l : Locals) (w : World) :
  exists l' o w' seg,
    tryBlock tok lid filePath i l w = (Ret (l', o), w')
    /\ calls w' = calls w ++ seg
    /\ acceptedIds (upstream w) (length (calls w)) seg = returned o.
Proof.
  unfold tryBlock.
  destruct (download_quiet filePath l w) as (segd & Ed & Fd & _).
  assert (Hd : keeps upstream (download filePath l)) by frame_upload.
  specialize (Hd w).
  destruct (download filePath l w) as [[l1 | e] w1]; simpl in Ed, Hd.
  - destruct (upload_ids tok lid i l1 w1) as (segu & Eu & Iu).
    destruct (upload tok lid i l1 w1) as [o w2]. simpl in Eu, Iu.
    exists l1, o, w2, (segd ++ segu).
    split; [ reflexivity | split ].
    + rewrite Eu, Ed, app_assoc. reflexivity.
    + rewrite acceptedIds_app, (acceptedIds_quiet _ _ Fd). simpl.
      rewrite <- Iu, Hd, Ed, length_app. reflexivity.
  - exists l, (Throw e), w1, segd.
    split; [ reflexivity | split; [ exact Ed | ] ].
    apply acceptedIds_quiet, Fd.
Qed.

Lemma iteration_ids (tok lid filePath : jsval) (i attempt maxRetries : nat)
  (l : Locals) (w : World) :
  let out := iteration tok lid filePath i attempt maxRetries l w in
  exists seg,
    calls (snd out) = calls w ++ seg
    /\ acceptedIds (upstream w) (length (calls w)) seg
       = match fst out with
         | Ret (c, _) => returned (Ret c)
         | Throw _ => []
         end.
Proof.
  cbv zeta. unfold iteration.
  destruct (tryBlock_ids tok lid filePath i l w) as (l' & o & w' & seg & T & E & I).
  rewrite (bind_Ret _ _ _ _ _ T). cbn [fst snd].
  exists seg. unfold mbind, M_bind, bind. rewrite try_finally_unlink.
  assert (U : forall w0, calls (snd (unlinkTemp (tempFile l') w0)) = calls w0)
    by (intros w0; destruct (tempFile l'); reflexivity).
  destruct o as [c | e].
  - unfold ret. cbn [fst snd]. rewrite U. split; [ exact E | exact I ].
  - assert (K : keeps calls (catchBlock attempt maxRetries e)) by frame_upload.
    specialize (K w').
    destruct (catchBlock attempt maxRetries e w') as [[c | e'] w1] eqn:C;
      simpl in K; unfold ret; cbn [fst snd]; rewrite U, K.
    + split; [ exact E | ].
      rewrite I. pose proof (catchBlock_noResult _ _ _ _ _ _ C) as N.
      destruct c; [ destruct N | reflexivity | reflexivity ].
    + split; [ exact E | exact I ].
Qed.

Lemma retryLoop_ids (tok lid filePath : jsval) (i maxRetries : nat) (k : nat) :
  forall (attempt : nat) (l : Locals) (w : World),
    let out := retryLoop k tok lid filePath i attempt maxRetries l w in
    exists seg,
      calls (snd out) = calls w ++ seg
      /\ acceptedIds (upstream w) (length (calls w)) seg
         = match fst out with
           | Ret v => pushed v
           | Throw _ => []
           end.
Proof.
  induction k as [ | k IH ]; intros attempt l w; cbv zeta.
  - exists []. simpl. rewrite app_nil_r. split; reflexivity.
  - cbn [retryLoop]. unfold mbind, M_bind, bind.
    destruct (iteration_ids tok lid filePath i attempt maxRetries l w)
      as (seg & E & I).
    pose proof (keeps_upstream_iteration tok lid filePath i attempt
                  maxRetries l w) as Hk.
    destruct (iteration tok lid filePath i attempt maxRetries l w)
      as [[[c l1] | e] w1]; simpl in E, I, Hk; cbn [fst snd].
    + destruct c as [v | | ].
      * exists seg. split; [ exact E | exact I ].
      * destruct (IH (S attempt) l1 w1) as (seg' & E' & I').
        exists (seg ++ seg'). split.
        { rewrite E', E, app_assoc. reflexivity. }
        rewrite acceptedIds_app, I. simpl.
        rewrite <- I', Hk, E, length_app. reflexivity.
      * exists seg. split; [ exact E | exact I ].
    + exists seg. split; [ exact E | exact I ].
Qed.

(** ** The calls made for one entry *)

Lemma retryLoop_appends (tok lid filePath : jsval) (i attempt maxRetries k : nat)
  (l : Locals) (w : World) :
  exists new,
    calls (snd (retryLoop k tok lid filePath i attempt maxRetries l w))
    = calls w ++ new.
Proof.
  destruct (retryLoop_logs tok lid filePath i k attempt maxRetries l w)
    as (new & E & _). exists new. exact E.
Qed.

(** An iteration on a URL starts with the download, and goes on with an
    upload when the download is served. *)
Lemma iteration_url (tok lid : jsval) (p : string) (i attempt maxRetries : nat)
  (l : Locals) (w : World) :
  isUrl p = true ->
  exists rest,
    calls (snd (iteration tok lid (JString p) i attempt maxRetries l w))
    = calls w ++ DownloadImage (JString p) :: rest
    /\ forall d,
         upstream w (length (calls w)) (DownloadImage (JString p)) = Resolved d ->
         exists name rest',
           rest = UploadImage tok lid name (pretty (i + 1)) :: rest'.
Proof.
  intros Hurl. unfold iteration.
  assert (K : forall (r : Locals * Outcome Completion),
            keeps calls
              (c ← try_finally
                     (match snd r with
                      | Ret c => ret c
                      | Throw imgErr => catchBlock attempt maxRetries imgErr
                      end)
                     (unlinkTemp (tempFile (fst r)));
               ret (c, fst r)))
    by (intros r; destruct (snd r); frame_upload).
  destruct (upstream w (length (calls w)) (DownloadImage (JString p)))
    as [d | e] eqn:Hd.
  - pose proof (download_url p l w d Hurl Hd) as D. cbv zeta in D.
    set (name := (entropy w (drawn w)
                  ++ (if String.eqb (extname p) "" then ".jpg" else extname p))%string)
      in D.
    set (l1 := {| localPath := JString name; tempFile := Some name |}) in D.
    set (w1 := snd (writeTemp name _)) in D.
    assert (Hc1 : calls w1 = calls w ++ [ DownloadImage (JString p) ]).
    { subst w1. unfold writeTemp, modify. cbn [snd].
      match goal with |- context [ if ?c then _ else _ ] => destruct c end;
        reflexivity. }
    pose proof (upload_run tok lid i l1 name w1 eq_refl) as U. cbv zeta in U.
    set (o := uploadCompletes _) in U. set (w2 := match _ with Resolved _ => _ | Rejected _ => _ end) in U.
    assert (Hc2 : calls w2 = calls w1 ++ [ UploadImage tok lid name (pretty (i + 1)) ]).
    { subst w2.
      destruct (upstream w1 (length (calls w1))
                  (UploadImage tok lid name (pretty (i + 1)))) as [r | e];
        [ destruct (Js.truthy (idOf r)) | ]; reflexivity. }
    assert (T : tryBlock tok lid (JString p) i l w = (Ret (l1, o), w2))
      by (unfold tryBlock; rewrite D, U; reflexivity).
    rewrite (bind_Ret _ _ _ _ _ T). rewrite (K (l1, o) w2), Hc2, Hc1.
    exists [ UploadImage tok lid name (pretty (i + 1)) ].
    rewrite <- app_assoc. split; [ reflexivity | ].
    intros _ _. exists name, []. reflexivity.
  - pose proof (download_url_refused p l w e Hurl Hd) as D.
    assert (T : tryBlock tok lid (JString p) i l w
                = (Ret (l, Throw e),
                   set_calls (calls w ++ [ DownloadImage (JString p) ]) w))
      by (unfold tryBlock; rewrite D; reflexivity).
    rewrite (bind_Ret _ _ _ _ _ T). rewrite (K (l, Throw e) _).
    exists []. split; [ reflexivity | ]. intros d Hd'. discriminate Hd'.
Qed.

Lemma retryLoop_url (tok lid : jsval) (p : string) (i attempt maxRetries k : nat)
  (l : Locals) (w : World) :
  isUrl p = true ->
  exists rest,
    calls (snd (retryLoop (S k) tok lid (JString p) i attempt maxRetries l w))
    = calls w ++ DownloadImage (JString p) :: rest
    /\ forall d,
         upstream w (length (calls w)) (DownloadImage (JString p)) = Resolved d ->
         exists name rest',
           rest = UploadImage tok lid name (pretty (i + 1)) :: rest'.
Proof.
  intros Hurl. cbn [retryLoop]. unfold mbind, M_bind, bind.
  destruct (iteration_url tok lid p i attempt maxRetries l w Hurl)
    as (rest & E & N).
  destruct (iteration tok lid (JString p) i attempt maxRetries l w)
    as [[[c l1] | e] w1]; simpl in E; cbn [fst snd].
  - destruct c as [v | | ]; try (exists rest; split; [ exact E | exact N ]).
    destruct (retryLoop_appends tok lid (JString p) i (S attempt) maxRetries k
                l1 w1) as (more & E').
    exists (rest ++ more). split.
    + rewrite E', E, <- app_assoc. reflexivity.
    + intros d Hd. destruct (N d Hd) as (name & rest' & ->).
      exists name, (rest' ++ more). reflexivity.
  - exists rest. split; [ exact E | exact N ].
Qed.

(** One entry: the calls made for it, and what its result adds to
    [uploadedImageIds]. *)
Lemma uploadImageWithRetry_entry (tok lid filePath : jsval) (i : nat) (w : World) :
  let out := uploadImageWithRetry tok lid filePath i 3 w in
  exists seg,
    calls (snd out) = calls w ++ seg
    /\ upstream (snd out) = upstream w
    /\ entryCalls (upstream w) tok lid filePath i (length (calls w)) seg
    /\ acceptedIds (upstream w) (length (calls w)) seg
       = match fst out with
         | Ret v => pushed v
         | Throw _ => []
         end.
Proof.
  cbv zeta.
  destruct (uploadImageWithRetry_logs tok lid filePath i 3 w) as (seg & E & F & U).
  exists seg. split; [ exact E | split; [ | split ] ].
  - apply (keeps_retryLoop upstream); reflexivity.
  - split; [ exact F | split; [ exact U | ] ].
    destruct filePath as [ | | | | p | | ]; try exact I.
    destruct (isUrl p) eqn:Hurl.
    + destruct (retryLoop_url tok lid p i 0 3 2
                  {| localPath := JString p; tempFile := None |} w Hurl)
        as (rest & E' & N).
      exists rest. split; [ | exact N ].
      unfold uploadImageWithRetry in E. rewrite E in E'.
      exact (app_inv_head _ _ _ E').
    + destruct (retryLoop_local tok lid p i Hurl 2 0 3 w) as (j & _ & E').
      exists j. unfold uploadImageWithRetry in E. rewrite E in E'.
      exact (app_inv_head _ _ _ E').
  - destruct (retryLoop_ids tok lid filePath i 3 3 0
                {| localPath := filePath; tempFile := None |} w)
      as (seg' & E' & I').
    unfold uploadImageWithRetry in *. rewrite E in E'.
    rewrite (app_inv_head _ _ _ E'). exact I'.
Qed.

(** ** The image loop *)

Lemma uploadAll_collect (access_token listing_id : jsval) (files : list jsval) :
  forall (i : nat) (ids : list jsval) (w : World),
    uploadAll access_token listing_id files i ids w
    = (rs ← collect access_token listing_id files i;
       ret (ids ++ List.filter Js.truthy rs)) w.
Proof.
  induction files as [ | f rest IH ]; intros i ids w.
  - simpl. unfold mbind, M_bind, bind, ret. rewrite app_nil_r. reflexivity.
  - cbn [uploadAll collect]. unfold mbind, M_bind, bind.
    destruct (uploadImageWithRetry access_token listing_id f i 3 w)
      as [[r | e] w1]; [ | reflexivity ].
    rewrite IH. unfold mbind, M_bind, bind.
    destruct (collect access_token listing_id rest (S i) w1)
      as [[rs | e] w2]; [ | reflexivity ].
    unfold ret. cbn [List.filter]. destruct (Js.truthy r);
      [ rewrite <- app_assoc | ]; reflexivity.
Qed.

Lemma uploadAll_entries (tok lid : jsval) (files : list jsval) :
  forall (i : nat) (ids : list jsval) (w : World),
    let out := uploadAll tok lid files i ids w in
    exists new,
      calls (snd out) = calls w ++ new
      /\ match fst out with
         | Ret result =>
             inSequence (upstream w) tok lid files i (length (calls w)) new
             /\ result = ids ++ acceptedIds (upstream w) (length (calls w)) new
         | Throw _ =>
             exists done,
               done < length files
               /\ inSequence (upstream w) tok lid (firstn (S done) files) i
                    (length (calls w)) new
         end.
Proof.
  induction files as [ | f rest IH ]; intros i ids w; cbv zeta.
  - exists []. simpl. rewrite !app_nil_r. repeat split; reflexivity.
  - cbn [uploadAll]. unfold mbind, M_bind, bind.
    destruct (uploadImageWithRetry_entry tok lid f i w) as (seg & E & Hu & C & I).
    destruct (uploadImageWithRetry tok lid f i 3 w) as [[r | e] w1];
      simpl in E, Hu, I.
    + destruct (IH (S i) (if Js.truthy r then ids ++ [r] else ids) w1)
        as (tail & E' & R).
      assert (L : length (calls w1) = length (calls w) + length seg)
        by (rewrite E, length_app; reflexivity).
      rewrite Hu, L in R.
      exists (seg ++ tail). split; [ rewrite E', E, app_assoc; reflexivity | ].
      destruct (fst (uploadAll tok lid rest (S i)
                       (if Js.truthy r then ids ++ [r] else ids) w1))
        as [result | e'].
      * destruct R as (S' & ->). split.
        { exists seg, tail.
          split; [ reflexivity | split; [ exact C | exact S' ] ]. }
        rewrite acceptedIds_app, I. unfold pushed.
        destruct (Js.truthy r); [ rewrite <- app_assoc | ]; reflexivity.
      * destruct R as (done & Hd & S'). exists (S done).
        split; [ simpl; lia | ].
        cbn [firstn inSequence]. exists seg, tail.
        split; [ reflexivity | split; [ exact C | exact S' ] ].
    + exists seg. split; [ exact E | ]. exists 0. split; [ simpl; lia | ].
      cbn [firstn inSequence]. exists seg, []. rewrite app_nil_r.
      split; [ reflexivity | split; [ exact C | reflexivity ] ].
Qed.


(** The handler runs the loop from index 0 with an empty
    [uploadedImageIds], two seconds after the draft was created. *)
Lemma uploadImages_runs_loop (access_token listing : jsval)
  (files : list jsval) (w : World) :
  files <> [] ->
  Js.is_nullish listing = false ->
  Js.truthy (Js.optget listing "listing_id") = true ->
  present SHOP_ID = true ->
  uploadImages access_token listing (JArray files) w
  = uploadAll access_token (Js.optget listing "listing_id") files 0 []
      (set_slept (slept w + 2000) w).
Proof.
  intros Hne Hl Hid Hshop. unfold uploadImages.
  destruct files as [ | f rest ]; [ congruence | ].
  unfold prop. rewrite Hl. erewrite bind_Ret by reflexivity.
  rewrite Hid, Hshop. reflexivity.
Qed.

(** * Further properties of the handlers *)

(** From here on a proof depends on the parts of the host that its
    statement names, and on no other. *)
#[local] Set Default Proof Using "Type".

(** Drops from the context the parts of the host that the goal does not
    speak of. *)
Ltac host_free :=
  try clear SHOP_ID; try clear extname; try clear ToString;
  try clear StringToNumber.

(** ** How many upstream calls a request makes *)

Lemma emits_keeps {A} (m : M A) : keeps calls m -> emits 0 m.
Proof.
  intros H w. exists []. rewrite H, app_nil_r. split; [ reflexivity | apply Nat.le_0_l ].
Qed.

Lemma emits_weaken {A} (n n' : nat) (m : M A) :
  n <= n' -> emits n m -> emits n' m.
Proof.
  intros Hle H w. destruct (H w) as (new & E & L).
  exists new. split; [ exact E | lia ].
Qed.

Lemma emits_bind {A B} (n n' : nat) (m : M A) (k : A -> M B) :
  emits n m -> (forall a, emits n' (k a)) -> emits (n + n') (m ≫= k).
Proof.
  intros Hm Hk w. unfold mbind, M_bind, bind.
  destruct (Hm w) as (new & E & L).
  destruct (m w) as [[a | e] w']; simpl in *.
  - destruct (Hk a w') as (new' & E' & L').
    exists (new ++ new'). rewrite E', E, app_assoc, length_app.
    split; [ reflexivity | lia ].
  - exists new. split; [ exact E | lia ].
Qed.

Lemma emits_try_catch {A} (n n' : nat) (m : M A) (h : JsError -> M A) :
  emits n m -> (forall e, emits n' (h e)) -> emits (n + n') (try_catch m h).
Proof.
  intros Hm Hh w. unfold try_catch.
  destruct (Hm w) as (new & E & L).
  destruct (m w) as [[a | e] w']; simpl in *.
  - exists new. split; [ exact E | lia ].
  - destruct (Hh e w') as (new' & E' & L').
    exists (new ++ new'). rewrite E', E, app_assoc, length_app.
    split; [ reflexivity | lia ].
Qed.

Lemma emits_axios (rq : HttpRequest) : emits 1 (axios rq).
Proof.
  intros w. exists [rq]. unfold axios.
  destruct (upstream w (length (calls w)) rq); simpl; split; reflexivity || lia.
Qed.

Lemma emits_tryBlock (tok lid filePath : jsval) (i : nat) (l : Locals) :
  emits 2 (tryBlock tok lid filePath i l).
Proof.
  assert (Hd : forall l0, emits 1 (download filePath l0)).
  { intros l0. unfold download.
    apply (emits_bind 0 1); [ apply emits_keeps; frame_upload | ].
    intros str. destruct (isUrl str).
    - apply (emits_bind 1 0); [ apply emits_axios | ].
      intros _. apply emits_keeps. frame_upload.
    - apply (emits_weaken 0); [ lia | apply emits_keeps; frame_upload ]. }
  assert (Hu : forall l0, emits 1 (upload tok lid i l0)).
  { intros l0. unfold upload.
    destruct (localPath l0);
      try solve [ apply (emits_weaken 0); [ lia | apply emits_keeps; frame_upload ] ].
    apply (emits_bind 1 0); [ apply emits_axios | ].
    intros r. apply emits_keeps. frame_upload. }
  intros w. unfold tryBlock.
  destruct (Hd l w) as (new & E & L).
  destruct (download filePath l w) as [[l' | e] w']; simpl in *.
  - destruct (Hu l' w') as (new' & E' & L').
    destruct (upload tok lid i l' w') as [o w'']; simpl in *.
    exists (new ++ new'). rewrite E', E, app_assoc, length_app.
    split; [ reflexivity | lia ].
  - exists new. split; [ exact E | lia ].
Qed.

Lemma emits_retryLoop (tok lid filePath : jsval) (i maxRetries : nat) (k : nat) :
  forall (attempt : nat) (l : Locals),
    emits (2 * k) (retryLoop k tok lid filePath i attempt maxRetries l).
Proof.
  induction k as [ | k IH ]; intros attempt l; simpl retryLoop.
  - apply emits_keeps. frame.
  - apply (emits_weaken (2 + 2 * k)); [ lia | ].
    apply emits_bind.
    + unfold iteration. apply (emits_weaken (2 + 0)); [ lia | ].
      apply emits_bind; [ apply emits_tryBlock | ].
      intros r. apply emits_keeps. frame_upload.
    + intros [c l']. simpl. destruct c.
      * apply (emits_weaken 0); [ lia | apply emits_keeps; frame ].
      * apply IH.
      * apply (emits_weaken 0); [ lia | apply emits_keeps; frame ].
Qed.

Lemma emits_uploadAll (tok lid : jsval) (files : list jsval) :
  forall (i : nat) (ids : list jsval),
    emits (6 * length files) (uploadAll tok lid files i ids).
Proof.
  induction files as [ | p rest IH ]; intros i ids; simpl uploadAll.
  - apply emits_keeps. frame.
  - apply (emits_weaken (6 + 6 * length rest)); [ simpl; lia | ].
    apply emits_bind; [ apply (emits_retryLoop _ _ _ _ _ 3) | ].
    intros r. apply IH.
Qed.

Lemma emits_getValidAccessToken : emits 2 getValidAccessToken.
Proof.
  unfold getValidAccessToken.
  apply (emits_bind 0 2);
    [ apply emits_keeps; unfold getAccessTokenOr401; frame | ].
  intros tok. destruct (Js.falsy tok).
  - apply (emits_weaken 0); [ lia | apply emits_keeps; frame ].
  - apply (emits_try_catch 1 1).
    + apply (emits_bind 1 0); [ apply emits_axios | ].
      intros _. apply emits_keeps. frame.
    + intros err. apply (emits_bind 0 1);
        [ apply emits_keeps, keeps_signalsExpired | ].
      intros [ | ].
      * apply (emits_try_catch 1 0).
        -- apply (emits_bind 0 1); [ apply emits_keeps; frame | ].
           intros store. destruct (Js.falsy _).
           ++ apply (emits_weaken 0); [ lia | apply emits_keeps; frame ].
           ++ apply (emits_bind 1 0); [ apply emits_axios | ].
              intros r. apply emits_keeps. frame.
        -- intros e. apply emits_keeps. frame.
      * apply (emits_weaken 0); [ lia | apply emits_keeps; frame ].
Qed.

Lemma emits_uploadImages (tok listing image_files : jsval) :
  emits (6 * match image_files with
             | JArray files => length files
             | _ => 0
             end)
    (uploadImages tok listing image_files).
Proof.
  unfold uploadImages.
  destruct image_files as [ | | | | | [ | p files ] | ];
    try solve [ apply (emits_weaken 0); [ lia | apply emits_keeps; frame ] ].
  apply (emits_bind 0 (6 * length (p :: files)));
    [ apply emits_keeps; frame | ].
  intros lid. destruct (Js.truthy lid && present SHOP_ID).
  - apply (emits_bind 0 (6 * length (p :: files)));
      [ apply emits_keeps; frame | ].
    intros _. apply emits_uploadAll.
  - apply (emits_weaken 0); [ lia | apply emits_keeps; frame ].
Qed.

Lemma emits_updateInventory (tok listing body : jsval) :
  emits 2 (updateInventory tok listing body).
Proof.
  unfold updateInventory.
  apply (emits_bind 0 2); [ apply emits_keeps; frame | ].
  intros lid. destruct (_ && _).
  - apply (emits_try_catch 2 0); [ | intros e; apply emits_keeps; frame ].
    apply (emits_bind 0 2); [ apply emits_keeps; frame | ]. intros productsArr.
    apply (emits_bind 1 1); [ apply emits_axios | ].
    intros r. apply (emits_bind 1 0); [ | intros v; apply emits_keeps; frame ].
    unfold uploadVideo. apply (emits_bind 0 1); [ apply emits_keeps; frame | ].
    intros [ | ].
    + apply (emits_try_catch 1 0); [ | intros e; apply emits_keeps; frame ].
      apply (emits_bind 1 0); [ apply emits_axios | ].
      intros v. apply emits_keeps. frame.
    + apply (emits_weaken 0); [ lia | apply emits_keeps; frame ].
  - apply (emits_weaken 0); [ lia | apply emits_keeps; frame ].
Qed.

(** X1. Whatever the body, the token file and the upstream, one POST
    /listings request only appends to the call log, and at most five
    calls plus six per entry of [image_files]: the probe, the refresh,
    the draft, the inventory update and the video, and for each entry at
    most three downloads and three uploads. *)
Theorem createListing_call_bound (req_body : jsval) (w : World) :
  exists new,
    calls (snd (createListing req_body w)) = calls w ++ new
    /\ length new <= 5 + 6 * imageCount (Js.or req_body (JObject [])).
Proof.
  revert w. change (emits (5 + 6 * imageCount (Js.or req_body (JObject [])))
                      (createListing req_body)).
  unfold createListing.
  apply (emits_weaken (2 + (3 + 6 * imageCount (Js.or req_body (JObject [])))));
    [ lia | ].
  apply emits_bind; [ apply emits_getValidAccessToken | ].
  intros tok. destruct (Js.falsy tok);
    [ apply (emits_weaken 0); [ lia | apply emits_keeps; frame ] | ].
  apply (emits_bind 0); [ apply emits_keeps, keeps_validation | ].
  intros errors. destruct (negb _);
    [ apply (emits_weaken 0); [ lia | apply emits_keeps; frame ] | ].
  apply (emits_weaken ((1 + (6 * imageCount (Js.or req_body (JObject [])) + 2)) + 0));
    [ lia | ].
  apply emits_try_catch; [ | intros e; apply emits_keeps; frame ].
  apply emits_bind; [ apply emits_axios | ]. intros r.
  apply (emits_bind 0); [ apply emits_keeps; unfold ensureTmpDir; frame | ].
  intros _. apply emits_bind; [ apply emits_uploadImages | ].
  intros ids. apply (emits_bind 2 0); [ apply emits_updateInventory | ].
  intros results. apply emits_keeps. frame.
Qed.

(** ** Temporary files *)

Lemma tidy_keeps {A} (m : M A) : keeps tmpFiles m -> tidy m.
Proof. intros H w. rewrite H. apply incl_refl. Qed.

Lemma tidy_bind {A B} (m : M A) (k : A -> M B) :
  tidy m -> (forall a, tidy (k a)) -> tidy (m ≫= k).
Proof.
  intros Hm Hk w. unfold mbind, M_bind, bind. specialize (Hm w).
  destruct (m w) as [[a | e] w']; simpl in *; [ | exact Hm ].
  eapply incl_tran; [ apply Hk | exact Hm ].
Qed.

Lemma tidy_try_catch {A} (m : M A) (h : JsError -> M A) :
  tidy m -> (forall e, tidy (h e)) -> tidy (try_catch m h).
Proof.
  intros Hm Hh w. unfold try_catch. specialize (Hm w).
  destruct (m w) as [[a | e] w']; simpl in *; [ exact Hm | ].
  eapply incl_tran; [ apply Hh | exact Hm ].
Qed.

Lemma unlinkTemp_removes (t : option string) (w : World) (n : string) :
  In n (tmpFiles (snd (unlinkTemp t w))) ->
  In n (tmpFiles w) /\ t <> Some n.
Proof.
  destruct t as [name | ]; simpl.
  - rewrite List.filter_In. intros (Hin & Hne). split; [ exact Hin | ].
    intros E. injection E as ->. rewrite String.eqb_refl in Hne. discriminate.
  - intros H. split; [ exact H | discriminate ].
Qed.

Lemma tidy_unlinkTemp (t : option string) : tidy (unlinkTemp t).
Proof. intros w n H. exact (proj1 (unlinkTemp_removes t w n H)). Qed.

(** After the [try] block, the only file that may be new is the one
    that [tempFile] names. *)
Lemma tryBlock_tempFile (tok lid filePath : jsval) (i : nat) (l l' : Locals)
  (o : Outcome Completion) (w w' : World) :
  tryBlock tok lid filePath i l w = (Ret (l', o), w') ->
  forall n, In n (tmpFiles w') -> In n (tmpFiles w) \/ tempFile l' = Some n.
Proof.
  assert (Hu : forall l0, tidy (upload tok lid i l0)).
  { intros l0. unfold upload. destruct (localPath l0);
      try solve [ apply tidy_keeps; frame ].
    apply tidy_bind; [ apply tidy_keeps; frame | ]. intros r.
    destruct (Js.truthy _); [ | apply tidy_keeps; frame ].
    apply tidy_bind; [ apply tidy_unlinkTemp | ].
    intros _. apply tidy_keeps. frame. }
  unfold tryBlock, download.
  destruct (Js.convertible filePath) eqn:Cv.
  2:{ rewrite (bind_Throw _ _ _ _ _ (callString_throws filePath w Cv)).
      intros H. injection H as <- _ <-. intros n Hn. left. exact Hn. }
  rewrite (bind_Ret _ _ _ _ _ (callString_run filePath w Cv)).
  destruct (isUrl (String_ filePath)).
  - unfold mbind at 1. unfold M_bind at 1. unfold bind at 1.
    pose proof (keeps_axios tmpFiles (DownloadImage filePath)
                  (fun _ _ => eq_refl) w) as Ha.
    destruct (axios (DownloadImage filePath) w) as [[r | e] w1]; simpl in Ha.
    + destruct filePath as [ | | | | p | | ];
        try (intros H; injection H as <- _ <-; intros n Hn; left; congruence).
      unfold mbind, M_bind, bind, randomHex, writeTemp, modify, ret.
      cbn [tmpFiles set_drawn].
      set (name := (entropy w1 (drawn w1)
                      ++ (if String.eqb (extname p) "" then ".jpg" else extname p))%string).
      intros H.
      match type of H with
      | (let (o0, w0) := upload _ _ _ ?l1 ?w2 in _) = _ =>
          pose proof (Hu l1 w2) as Ht;
          destruct (upload tok lid i l1 w2) as [o2 w3]
      end.
      injection H as <- _ <-. intros n Hn. apply Ht in Hn. simpl.
      destruct (existsb (String.eqb name) (tmpFiles w1)); simpl in Hn.
      * left. congruence.
      * destruct Hn as [<- | Hn]; [ right; reflexivity | left; congruence ].
    + intros H. injection H as <- _ <-. intros n Hn. left. congruence.
  - unfold ret at 1. intros H.
    pose proof (Hu l w) as Ht. destruct (upload tok lid i l w) as [o2 w3].
    injection H as <- _ <-. intros n Hn. left. exact (Ht n Hn).
Qed.

Lemma tidy_iteration (tok lid filePath : jsval) (i attempt maxRetries : nat)
  (l : Locals) :
  tidy (iteration tok lid filePath i attempt maxRetries l).
Proof.
  intros w n. unfold iteration. unfold mbind at 1. unfold M_bind, bind.
  assert (Ht : exists l' o w1,
             tryBlock tok lid filePath i l w = (Ret (l', o), w1)).
  { unfold tryBlock. destruct (download filePath l w) as [[l1 | e] w1];
      [ destruct (upload tok lid i l1 w1) as [o w2] | ]; eauto. }
  destruct Ht as (l' & o & w1 & Ht). rewrite Ht. cbn [fst snd].
  pose proof (tryBlock_tempFile _ _ _ _ _ _ _ _ _ Ht) as Hnew.
  assert (Hc : keeps tmpFiles
                 (match o with
                  | Ret c => ret c
                  | Throw imgErr => catchBlock attempt maxRetries imgErr
                  end)) by (destruct o; frame_upload).
  unfold try_finally, mbind, M_bind, bind. specialize (Hc w1).
  destruct (match o with
            | Ret c => ret c
            | Throw imgErr => catchBlock attempt maxRetries imgErr
            end w1) as [o1 w2]; simpl in Hc.
  pose proof (unlinkTemp_removes (tempFile l') w2 n) as Hr.
  destruct (unlinkTemp (tempFile l') w2) as [[u | e] w3]; simpl in *;
    destruct o1; simpl; intros Hn; destruct (Hr Hn) as (Hin & Hne);
    rewrite Hc in Hin; destruct (Hnew n Hin); congruence.
Qed.

Lemma tidy_uploadAll (tok lid : jsval) (files : list jsval) :
  forall (i : nat) (ids : list jsval), tidy (uploadAll tok lid files i ids).
Proof.
  assert (Hloop : forall k filePath i attempt maxRetries l,
             tidy (retryLoop k tok lid filePath i attempt maxRetries l)).
  { induction k as [ | k IH ]; intros filePath i attempt maxRetries l; simpl.
    - apply tidy_keeps. frame.
    - apply tidy_bind; [ apply tidy_iteration | ].
      intros [c l']. simpl. destruct c;
        [ apply tidy_keeps; frame | apply IH | apply tidy_keeps; frame ]. }
  induction files as [ | p rest IH ]; intros i ids; simpl.
  - apply tidy_keeps. frame.
  - apply tidy_bind; [ apply Hloop | ]. intros r. apply IH.
Qed.

(** X2. No handler run leaves a temporary image behind: whatever the
    request, the upstream and the outcome (answer, early return or
    throw), every file in the temporary directory after POST /listings
    was already there before it. *)
Theorem createListing_leaves_no_temp_file (req_body : jsval) (w : World) :
  forall name,
    In name (tmpFiles (snd (createListing req_body w))) ->
    In name (tmpFiles w).
Proof.
  revert w. change (tidy (createListing req_body)).
  unfold createListing. apply tidy_bind.
  - apply tidy_keeps. unfold getValidAccessToken, getAccessTokenOr401.
    repeat first [ apply keeps_signalsExpired | frame_step ].
  - intros tok. destruct (Js.falsy tok); [ apply tidy_keeps; frame | ].
    apply tidy_bind; [ apply tidy_keeps, keeps_validation | ]. intros errors.
    destruct (negb _); [ apply tidy_keeps; frame | ].
    apply tidy_try_catch; [ | intros e; apply tidy_keeps; frame ].
    apply tidy_bind; [ apply tidy_keeps; frame | ]. intros r.
    apply tidy_bind; [ apply tidy_keeps; unfold ensureTmpDir; frame | ].
    intros _. apply tidy_bind.
    + unfold uploadImages.
      destruct (Js.optget _ "image_files") as [ | | | | | [ | p files ] | ];
        try solve [ apply tidy_keeps; frame ].
      apply tidy_bind; [ apply tidy_keeps; frame | ]. intros lid.
      destruct (_ && _); [ | apply tidy_keeps; frame ].
      apply tidy_bind; [ apply tidy_keeps; frame | ]. intros _.
      apply tidy_uploadAll.
    + intros ids. apply tidy_keeps.
      unfold updateInventory, uploadVideo. frame.
Qed.

(** ** The paths of the access-token gate *)

Lemma readTokens_storeOf (w : World) : readTokens w = (Ret (storeOf w), w).
Proof.
  rewrite readTokens_run. unfold storeOf.
  destruct (tokenFile w) as [ | | [ | v ] ]; reflexivity.
Qed.

Lemma getAccessTokenOr401_run (w : World) :
  getAccessTokenOr401 w
  = if Js.truthy (stored (storeOf w) "access_token")
    then (Ret (stored (storeOf w) "access_token"), w)
    else (Ret JNull,
          set_res (Some {| res_status := 401;
                           res_body := Text "No access token available. Authenticate via /auth/login" |})
                  w).
Proof.
  unfold getAccessTokenOr401.
  erewrite bind_Ret by apply readTokens_storeOf.
  fold (stored (storeOf w) "access_token"). unfold Js.falsy.
  destruct (Js.truthy (stored (storeOf w) "access_token")); reflexivity.
Qed.

Lemma signalsExpired_other (err : JsError) (w : World) :
  notTokenError err -> signalsExpired err w = (Ret false, w).
Proof.
  intros (Hne & Hd). unfold signalsExpired.
  assert (R : optIncludes "err.response?.data?.error_description?.includes"
                (Js.optget (responseData err) "error_description")
                "expired" w = (Ret false, w)).
  { unfold optIncludes. destruct Hd as [Hn | (s & Hs & Hin)].
    - rewrite Hn. reflexivity.
    - rewrite Hs. simpl. unfold ret. rewrite Hin. reflexivity. }
  remember (Js.optget (responseData err) "error") as v eqn:Ev. clear Ev.
  repeat match goal with
         | |- context [match ?x with _ => _ end] =>
             is_var x; destruct x; try exact R
         end.
  exfalso. apply Hne. reflexivity.
Qed.

Lemma storeOf_file (w : World) :
  Js.truthy (stored (storeOf w) "access_token") = true ->
  tokenFile w = Content (Encodes (storeOf w)).
Proof.
  unfold storeOf. destruct (tokenFile w) as [ | | [ | v ] ];
    solve [ discriminate | reflexivity ].
Qed.

(** X3. With no usable access token in the token file (the file is
    missing, unreadable or malformed, or holds no truthy
    [etsy.access_token]), POST /listings is answered 401 at once: no
    upstream call is made, the body is not validated, and nothing but the
    response changes. *)
Theorem createListing_without_token (req_body : jsval) (w : World) :
  Js.truthy (stored (storeOf w) "access_token") = false ->
  createListing req_body w
  = (Ret tt,
     set_res (Some {| res_status := 401;
                      res_body := Text "No access token available. Authenticate via /auth/login" |})
             w).
Proof.
  intros H.
  assert (G : getValidAccessToken w
              = (Ret JNull,
                 set_res (Some {| res_status := 401;
                                  res_body := Text "No access token available. Authenticate via /auth/login" |})
                         w)).
  { unfold getValidAccessToken.
    erewrite bind_Ret by (rewrite getAccessTokenOr401_run, H; reflexivity).
    reflexivity. }
  unfold createListing. erewrite bind_Ret by exact G. reflexivity.
Qed.

(** X4. With a stored access token that the probe accepts, the gate
    returns that token after the single probe call, sends nothing and
    leaves the token file as it is. *)
Theorem getValidAccessToken_accepted (w : World) (r : HttpResponse) :
  Js.truthy (stored (storeOf w) "access_token") = true ->
  upstream w (length (calls w)) (UsersMe (stored (storeOf w) "access_token"))
  = Resolved r ->
  getValidAccessToken w
  = (Ret (stored (storeOf w) "access_token"),
     set_calls (calls w ++ [ UsersMe (stored (storeOf w) "access_token") ]) w).
Proof.
  intros Hat Hprobe. unfold getValidAccessToken.
  erewrite bind_Ret by (rewrite getAccessTokenOr401_run, Hat; reflexivity).
  unfold Js.falsy. rewrite Hat. cbn [negb].
  erewrite try_catch_Ret; [ reflexivity | ].
  erewrite bind_Ret by (apply axios_Resolved; exact Hprobe).
  reflexivity.
Qed.

(** X5. When the probe fails with an error that is not a token error (a
    network failure, a 500 of the upstream), the gate rethrows it, and
    POST /listings, which awaits the gate outside its [try], throws it
    too: the request is left without an answer and nothing was
    validated or posted. *)
Theorem createListing_probe_failure_unanswered (req_body : jsval) (w : World)
  (err : JsError) :
  Js.truthy (stored (storeOf w) "access_token") = true ->
  upstream w (length (calls w)) (UsersMe (stored (storeOf w) "access_token"))
  = Rejected err ->
  notTokenError err ->
  let w' := set_calls (calls w ++ [ UsersMe (stored (storeOf w) "access_token") ]) w in
  getValidAccessToken w = (Throw err, w')
  /\ createListing req_body w = (Throw err, w')
  /\ res w' = res w.
Proof.
  intros Hat Hprobe Hother w'.
  assert (G : getValidAccessToken w = (Throw err, w')).
  { unfold getValidAccessToken.
    erewrite bind_Ret by (rewrite getAccessTokenOr401_run, Hat; reflexivity).
    unfold Js.falsy. rewrite Hat. cbn [negb].
    erewrite try_catch_Throw
      by (erewrite bind_Throw by (apply axios_Rejected; exact Hprobe);
          reflexivity).
    erewrite bind_Ret by (apply signalsExpired_other; exact Hother).
    reflexivity. }
  split; [ exact G | split; [ | reflexivity ] ].
  unfold createListing. erewrite bind_Throw by exact G. reflexivity.
Qed.

(** X6. When the probe reports an expired token and the refresh call is
    refused, the gate answers 401 "Token refresh failed.
    Re-authenticate.", returns [null] and leaves the token file as it
    was; POST /listings then returns with that answer. *)
Theorem getValidAccessToken_refresh_refused (req_body : jsval) (w : World)
  (err refreshErr : JsError) :
  Js.truthy (stored (storeOf w) "access_token") = true ->
  upstream w (length (calls w)) (UsersMe (stored (storeOf w) "access_token"))
  = Rejected err ->
  tokenRejected err ->
  Js.truthy (stored (storeOf w) "refresh_token") = true ->
  upstream w (S (length (calls w)))
    (TokenRefresh (stored (storeOf w) "refresh_token")) = Rejected refreshErr ->
  let w' :=
    set_res (Some {| res_status := 401;
                     res_body := Text "Token refresh failed. Re-authenticate." |})
      (set_calls (calls w ++ [ UsersMe (stored (storeOf w) "access_token");
                               TokenRefresh (stored (storeOf w) "refresh_token") ])
                 w) in
  getValidAccessToken w = (Ret JNull, w')
  /\ createListing req_body w = (Ret tt, w')
  /\ tokenFile w' = tokenFile w.
Proof.
  intros Hat Hprobe Hrej Hrt Hrefresh w'.
  assert (G : getValidAccessToken w = (Ret JNull, w')).
  { rewrite (getValidAccessToken_probe_refused w (storeOf w) err
               (storeOf_file w Hat) Hat Hprobe Hrej).
    unfold refreshBlock. erewrite try_catch_Throw.
    - subst w'. unfold mbind, M_bind, bind, send, modify, ret.
      cbn [set_calls set_res calls]. reflexivity.
    - erewrite bind_Ret by apply readTokens_storeOf.
      replace (storeOf (set_calls _ w)) with (storeOf w) by reflexivity.
      fold (stored (storeOf w) "refresh_token"). unfold Js.falsy.
      rewrite Hrt. cbn [negb].
      erewrite bind_Throw
        by (apply axios_Rejected; cbn [calls upstream set_calls];
            rewrite length_app, Nat.add_1_r; exact Hrefresh).
      cbn [calls set_calls]. rewrite <- app_assoc. reflexivity. }
  split; [ exact G | split; [ | reflexivity ] ].
  unfold createListing. erewrite bind_Ret by exact G. reflexivity.
Qed.

(** ** POST /token/refresh *)

Lemma jsonify_object (fs : list (string * jsval)) :
  jsonify (JObject fs) = JObject (jsonifyFields fs).
Proof. reflexivity. Qed.

Lemma jsonifyFields_cons (k : string) (x : jsval) (fs : list (string * jsval)) :
  jsonifyFields ((k, x) :: fs)
  = match x with
    | JUndefined => jsonifyFields fs
    | _ => (k, jsonify x) :: jsonifyFields fs
    end.
Proof. destruct x; reflexivity. Qed.

Lemma jsonify_defined (x : jsval) :
  x <> JUndefined -> jsonify x <> JUndefined.
Proof.
  destruct x; try discriminate; try congruence.
  intros _. simpl. destruct (Prim2SF x); discriminate.
Qed.

(** Writing [k] and reading it back through the file. *)
Lemma assoc_jsonify_assign (k : string) (x : jsval) (fs : list (string * jsval)) :
  x <> JUndefined ->
  Js.assoc k (jsonifyFields (Js.assign k x fs)) = jsonify x.
Proof.
  intros Hx. induction fs as [ | [k0 v] fs IH ].
  - simpl Js.assign. rewrite jsonifyFields_cons.
    destruct x; try congruence; simpl; rewrite String.eqb_refl; reflexivity.
  - simpl Js.assign. destruct (String.eqb_spec k k0) as [-> | Hne].
    + rewrite jsonifyFields_cons.
      destruct x; try congruence; simpl; rewrite String.eqb_refl; reflexivity.
    + rewrite jsonifyFields_cons. destruct v; try exact IH;
        simpl; destruct (String.eqb_spec k k0); try contradiction; exact IH.
Qed.

Lemma assoc_jsonify_assign_other (k k' : string) (x : jsval)
  (fs : list (string * jsval)) :
  k' <> k ->
  Js.assoc k' (jsonifyFields (Js.assign k x fs))
  = Js.assoc k' (jsonifyFields fs).
Proof.
  intros Hk. induction fs as [ | [k0 v] fs IH ].
  - simpl Js.assign. rewrite jsonifyFields_cons.
    destruct x; try reflexivity; simpl;
      destruct (String.eqb_spec k' k); try contradiction; reflexivity.
  - simpl Js.assign. destruct (String.eqb_spec k k0) as [-> | Hne].
    + rewrite !jsonifyFields_cons.
      destruct x, v; try reflexivity; simpl;
        destruct (String.eqb_spec k' k0); try contradiction; reflexivity.
    + rewrite !jsonifyFields_cons. destruct v; try exact IH;
        simpl; rewrite IH; reflexivity.
Qed.

Lemma stored_object (store : jsval) (field : string) :
  Js.truthy (stored store field) = true -> exists fs, store = JObject fs.
Proof. destruct store; try discriminate. eauto. Qed.

(** X7. POST /token/refresh with no refresh token in the token file (the
    file missing or malformed included) is answered 400 "No refresh token
    stored. Re-authenticate." with no upstream call and no write. *)
Theorem tokenRefresh_without_refresh_token (w : World) :
  Js.truthy (stored (storeOf w) "refresh_token") = false ->
  tokenRefresh w
  = (Ret tt, set_res (Some {| res_status := 400;
                              res_body := Text msg_no_refresh_token |}) w).
Proof.
  intros H. unfold tokenRefresh.
  erewrite bind_Ret by apply readTokens_storeOf.
  fold (stored (storeOf w) "refresh_token"). unfold Js.falsy. rewrite H.
  reflexivity.
Qed.

(** X8. When POST /token/refresh gets a token record (a JSON object)
    back, it makes that one call, answers 200 with the record's
    [expires_in], and the token file then reads back with [etsy] holding
    the record as JSON writes it, every other key of the store as it
    was. *)
Theorem tokenRefresh_persists (w : World) (r : HttpResponse) :
  Js.truthy (stored (storeOf w) "refresh_token") = true ->
  upstream w (length (calls w))
    (TokenRefresh (stored (storeOf w) "refresh_token")) = Resolved r ->
  isObject (data r) = true ->
  let w' := snd (tokenRefresh w) in
  fst (tokenRefresh w) = Ret tt
  /\ calls w' = calls w ++ [ TokenRefresh (stored (storeOf w) "refresh_token") ]
  /\ res w' = Some {| res_status := 200;
                      res_body := JsonBody (JObject
                        [ ("message", JString "Refreshed tokens saved");
                          ("expires_in", Js.optget (data r) "expires_in") ]) |}
  /\ Js.optget (storeOf w') "etsy" = jsonify (data r)
  /\ forall k, k <> "etsy" ->
       Js.optget (storeOf w') k = Js.optget (jsonify (storeOf w)) k.
Proof.
  intros Hrt Hup Hobj w'.
  destruct (stored_object _ _ Hrt) as (fs & Hfs).
  destruct (data r) as [ | | | | | | tf ] eqn:Hd; try discriminate.
  assert (R : tokenRefresh w
              = (Ret tt,
                 set_res (Some {| res_status := 200;
                                  res_body := JsonBody (JObject
                                    [ ("message", JString "Refreshed tokens saved");
                                      ("expires_in", Js.optget (data r) "expires_in") ]) |})
                   (set_tokenFile
                      (Content (Encodes (jsonify
                         (JObject (Js.assign "etsy" (data r) fs)))))
                      (set_calls
                         (calls w ++ [ TokenRefresh (stored (storeOf w) "refresh_token") ])
                         w)))).
  { unfold tokenRefresh.
    erewrite bind_Ret by apply readTokens_storeOf.
    fold (stored (storeOf w) "refresh_token"). unfold Js.falsy. rewrite Hrt.
    cbn [negb]. erewrite try_catch_Ret; [ reflexivity | ].
    erewrite bind_Ret by (apply axios_Resolved; exact Hup).
    rewrite Hfs, Hd. reflexivity. }
  subst w'. rewrite R. cbn [fst snd calls res set_res set_tokenFile set_calls].
  repeat split.
  - rewrite Hd. reflexivity.
  - unfold storeOf. cbn [tokenFile set_res set_tokenFile].
    rewrite jsonify_object. cbn [Js.optget].
    rewrite Hd. apply assoc_jsonify_assign. discriminate.
  - intros k Hk. unfold storeOf at 1. cbn [tokenFile set_res set_tokenFile].
    rewrite Hfs, !jsonify_object. cbn [Js.optget].
    apply assoc_jsonify_assign_other. exact Hk.
Qed.

(** X9. POST /token/refresh writes the upstream's answer into the token
    file before it looks at it: when the refresh call resolves with a
    body that is not an object ([null], a string, a number, an array),
    the file afterwards holds neither a refresh token nor an access
    token, and the request is answered 500 for [null] and 200
    otherwise. *)
Theorem tokenRefresh_overwrites_with_any_body (w : World) (r : HttpResponse) :
  Js.truthy (stored (storeOf w) "refresh_token") = true ->
  upstream w (length (calls w))
    (TokenRefresh (stored (storeOf w) "refresh_token")) = Resolved r ->
  isObject (data r) = false ->
  data r <> JUndefined ->
  let w' := snd (tokenRefresh w) in
  stored (storeOf w') "refresh_token" = JUndefined
  /\ stored (storeOf w') "access_token" = JUndefined
  /\ res_status <$> res w'
     = Some (match data r with JNull => 500 | _ => 200 end)%Z.
Proof.
  intros Hrt Hup Hobj Hdef w'.
  destruct (stored_object _ _ Hrt) as (fs & Hfs).
  assert (Hfile : tokenFile w'
                  = Content (Encodes (jsonify (JObject (Js.assign "etsy" (data r) fs))))
                  /\ res_status <$> res w'
                     = Some (match data r with JNull => 500 | _ => 200 end)%Z).
  { subst w'. unfold tokenRefresh.
    erewrite bind_Ret by apply readTokens_storeOf.
    fold (stored (storeOf w) "refresh_token"). unfold Js.falsy. rewrite Hrt.
    cbn [negb]. unfold try_catch.
    erewrite bind_Ret by (apply axios_Resolved; exact Hup).
    rewrite Hfs. unfold mbind, M_bind, bind, assignProp, saveTokens, modify, ret.
    cbn beta iota. unfold prop, send, modify, throw, ret.
    destruct (data r); try discriminate; try congruence; split; reflexivity. }
  destruct Hfile as (Hfile & Hres).
  assert (He : Js.optget (storeOf w') "etsy" = jsonify (data r)).
  { unfold storeOf. rewrite Hfile, jsonify_object. cbn [Js.optget].
    apply assoc_jsonify_assign. exact Hdef. }
  unfold stored. rewrite He.
  repeat split; [ | | exact Hres ];
    destruct (data r) as [ | | | x | | | ]; try discriminate; try reflexivity;
    simpl; destruct (Prim2SF x); reflexivity.
Qed.

(** ** The error list and the draft payload *)

Lemma pushIf_sublist (c : bool) (m : string) (errors done : list string) :
  sublist errors done -> sublist (pushIf c m errors) (done ++ [m]).
Proof.
  intros H. unfold pushIf. destruct c.
  - apply sublist_app; [ exact H | reflexivity ].
  - apply sublist_inserts_r. exact H.
Qed.

(** X10. The error list of a rejected request holds each message at most
    once and in one fixed order, that of the checks: it is a subsequence
    of the fifteen messages, whatever the body. *)
Theorem validate_fixed_order (body : jsval) :
  sublist (validate body) allErrors
  /\ NoDup (validate body)
  /\ length (validate body) <= 15.
Proof.
  assert (S : sublist (validate body) allErrors).
  { unfold validate, pushDimension.
    destruct (isPhysical (Js.optget body "type")).
    - apply (pushIf_sublist _ _ _ (firstn 14 allErrors)).
      apply (pushIf_sublist _ _ _ (firstn 13 allErrors)).
      apply (pushIf_sublist _ _ _ (firstn 12 allErrors)).
      apply (pushIf_sublist _ _ _ (firstn 11 allErrors)).
      apply (pushIf_sublist _ _ _ (firstn 10 allErrors)).
      apply (pushIf_sublist _ _ _ (firstn 9 allErrors)).
      apply (pushIf_sublist _ _ _ (firstn 8 allErrors)).
      apply (pushIf_sublist _ _ _ (firstn 7 allErrors)).
      apply (pushIf_sublist _ _ _ (firstn 6 allErrors)).
      apply (pushIf_sublist _ _ _ (firstn 5 allErrors)).
      apply (pushIf_sublist _ _ _ (firstn 4 allErrors)).
      apply (pushIf_sublist _ _ _ (firstn 3 allErrors)).
      apply (pushIf_sublist _ _ _ (firstn 2 allErrors)).
      apply (pushIf_sublist _ _ _ (firstn 1 allErrors)).
      apply (pushIf_sublist _ _ _ []). constructor.
    - apply (sublist_inserts_r (skipn 11 allErrors) _ (firstn 11 allErrors)).
      apply (pushIf_sublist _ _ _ (firstn 10 allErrors)).
      apply (pushIf_sublist _ _ _ (firstn 9 allErrors)).
      apply (pushIf_sublist _ _ _ (firstn 8 allErrors)).
      apply (pushIf_sublist _ _ _ (firstn 7 allErrors)).
      apply (pushIf_sublist _ _ _ (firstn 6 allErrors)).
      apply (pushIf_sublist _ _ _ (firstn 5 allErrors)).
      apply (pushIf_sublist _ _ _ (firstn 4 allErrors)).
      apply (pushIf_sublist _ _ _ (firstn 3 allErrors)).
      apply (pushIf_sublist _ _ _ (firstn 2 allErrors)).
      apply (pushIf_sublist _ _ _ (firstn 1 allErrors)).
      apply (pushIf_sublist _ _ _ []). constructor. }
  split; [ exact S | split ].
  - refine (sublist_NoDup _ _ _ S).
    apply NoDup_ListNoDup. repeat (constructor; [ simpl; intuition discriminate | ]).
    constructor.
  - apply sublist_length in S. exact S.
Qed.

Lemma In_assign (k k' : string) (v v' : jsval) (fs : list (string * jsval)) :
  In (k', v') (Js.assign k v fs) -> (k' = k /\ v' = v) \/ In (k', v') fs.
Proof.
  induction fs as [ | [k0 v0] fs IH ]; simpl.
  - intros [E | []]. injection E as <- <-. left. split; reflexivity.
  - destruct (String.eqb k k0); simpl.
    + intros [E | H]; [ injection E as <- <-; left; split; reflexivity | ].
      right. right. exact H.
    + intros [E | H]; [ right; left; exact E | ].
      destruct (IH H) as [Hl | Hr]; [ left; exact Hl | right; right; exact Hr ].
Qed.

Lemma In_setIf (c : bool) (k k' : string) (v v' : jsval)
  (fs : list (string * jsval)) :
  In (k', v') (setIf c k v fs) ->
  (c = true /\ k' = k /\ v' = v) \/ In (k', v') fs.
Proof.
  unfold setIf. destruct c; [ | right; assumption ].
  intros H. destruct (In_assign _ _ _ _ _ H) as [(-> & ->) | Hr];
    [ left; repeat split | right; exact Hr ].
Qed.

Lemma apart (l1 l2 : list string) :
  forallb (fun k => negb (existsb (String.eqb k) l2)) l1 = true ->
  forall k, In k l1 -> In k l2 -> False.
Proof.
  intros H k H1 H2. rewrite forallb_forall in H. specialize (H k H1).
  apply negb_true_iff in H.
  assert (E : existsb (String.eqb k) l2 = true).
  { apply existsb_exists. exists k. split; [ exact H2 | apply String.eqb_refl ]. }
  congruence.
Qed.

(** X11. What the draft payload can hold, whatever the body: no field
    is [undefined]; its keys are the twenty-eight listing fields, the
    dimensions, the units and [inventory] (never [sku] or [image_files]
    themselves); a dimension or a unit is there only for a listing whose
    type is "physical"; and a dimension that is there is the body's, and
    a positive number. *)
Theorem buildPayload_fields (body : jsval) (k : string) (v : jsval) :
  In (k, v) (payloadOf body) ->
  v <> JUndefined
  /\ In k (payload_fields ++ dimension_fields ++ unit_fields ++ [ "inventory" ])
  /\ (In k dimension_fields ->
      isPhysical (Js.optget body "type") = true
      /\ v = Js.optget body k /\ validPositiveNumber v = true)
  /\ (In k unit_fields ->
      isPhysical (Js.optget body "type") = true
      /\ v = Js.optget body k /\ Js.truthy v = true).
Proof.
  host_free.
  unfold payloadOf, buildPayload. cbv zeta. rewrite List.filter_In.
  intros (Hin & Hdef). split.
  { destruct v; [ discriminate Hdef | discriminate .. ]. }
  clear Hdef.
  assert (Hbase : forall k' v',
             In (k', v') (map (fun k0 => (k0, Js.optget body k0)) payload_fields) ->
             In k' payload_fields).
  { intros k' v' H. apply in_map_iff in H. destruct H as (x & E & Hx).
    injection E as <- _. exact Hx. }
  assert (Hdims : forall k' v',
             In (k', v')
               (if isPhysical (Js.optget body "type")
                then
                  setIf (Js.truthy (Js.optget body "item_dimensions_unit"))
                    "item_dimensions_unit" (Js.optget body "item_dimensions_unit")
                    (setIf (Js.truthy (Js.optget body "item_weight_unit"))
                       "item_weight_unit" (Js.optget body "item_weight_unit")
                       (setIf (validPositiveNumber (Js.optget body "item_height"))
                          "item_height" (Js.optget body "item_height")
                          (setIf (validPositiveNumber (Js.optget body "item_width"))
                             "item_width" (Js.optget body "item_width")
                             (setIf (validPositiveNumber (Js.optget body "item_length"))
                                "item_length" (Js.optget body "item_length")
                                (setIf (validPositiveNumber (Js.optget body "item_weight"))
                                   "item_weight" (Js.optget body "item_weight")
                                   (map (fun k0 => (k0, Js.optget body k0))
                                        payload_fields))))))
                else map (fun k0 => (k0, Js.optget body k0)) payload_fields) ->
             In k' payload_fields
             \/ (isPhysical (Js.optget body "type") = true
                 /\ v' = Js.optget body k'
                 /\ ((In k' dimension_fields /\ validPositiveNumber v' = true)
                     \/ (In k' unit_fields /\ Js.truthy v' = true)))).
  { intros k' v'. destruct (isPhysical (Js.optget body "type"));
      [ | intros H; left; exact (Hbase _ _ H) ].
    intros H.
    repeat match goal with
           | H : In _ (setIf _ _ _ _) |- _ =>
               apply In_setIf in H; destruct H as [(Hc & -> & ->) | H]
           end;
      try solve [ right; split; [ reflexivity | split; [ reflexivity | ] ];
                  first [ left; split; [ simpl; tauto | exact Hc ]
                        | right; split; [ simpl; tauto | exact Hc ] ] ].
    left. exact (Hbase _ _ H). }
  assert (Hall : In k payload_fields
                 \/ k = "inventory"
                 \/ (isPhysical (Js.optget body "type") = true
                     /\ v = Js.optget body k
                     /\ ((In k dimension_fields /\ validPositiveNumber v = true)
                         \/ (In k unit_fields /\ Js.truthy v = true)))).
  { destruct (Js.truthy (Js.optget body "inventory")
              && Js.typeof_object (Js.optget body "inventory")).
    - apply In_assign in Hin. destruct Hin as [(-> & _) | Hin]; [ tauto | ].
      destruct (Hdims _ _ Hin); tauto.
    - destruct (Js.truthy (Js.optget body "sku")).
      + apply In_assign in Hin. destruct Hin as [(-> & _) | Hin]; [ tauto | ].
        destruct (Hdims _ _ Hin); tauto.
      + destruct (Hdims _ _ Hin); tauto. }
  assert (Hno : In k payload_fields ->
                ~ In k dimension_fields /\ ~ In k unit_fields).
  { intros H. split; intros H';
      [ exact (apart payload_fields dimension_fields eq_refl k H H')
      | exact (apart payload_fields unit_fields eq_refl k H H') ]. }
  split; [ | split ].
  - rewrite !in_app_iff. destruct Hall as [H | [-> | (_ & _ & [(H & _) | (H & _)])]];
      [ tauto | right; right; right; left; reflexivity | tauto | tauto ].
  - intros Hk. destruct Hall as [H | [-> | (Hp & Hv & [(_ & Hpos) | (Hu & _)])]].
    + destruct (Hno H); contradiction.
    + simpl in Hk. intuition discriminate.
    + repeat split; assumption.
    + destruct (apart dimension_fields unit_fields eq_refl k Hk Hu).
  - intros Hk. destruct Hall as [H | [-> | (Hp & Hv & [(Hd & _) | (_ & Ht)])]].
    + destruct (Hno H); contradiction.
    + simpl in Hk. intuition discriminate.
    + destruct (apart dimension_fields unit_fields eq_refl k Hd Hk).
    + repeat split; assumption.
Qed.

(** ** The answers of POST /listings past the gate *)

Lemma bind_Ret_inv {A B} (m : M A) (k : A -> M B) (w w' : World) (b : B) :
  (m ≫= k) w = (Ret b, w') ->
  exists a w0, m w = (Ret a, w0) /\ k a w0 = (Ret b, w').
Proof.
  unfold mbind, M_bind, bind. destruct (m w) as [[a | e] w0]; intros H.
  - exists a, w0. split; [ reflexivity | exact H ].
  - discriminate H.
Qed.

Lemma createListing_valid (req_body tok : jsval) (w w1 : World) :
  getValidAccessToken w = (Ret tok, w1) ->
  Js.truthy tok = true ->
  validate (Js.or req_body (JObject [])) = [] ->
  createListing req_body w
  = try_catch
      (r ← axios (CreateListing tok (buildPayload (Js.or req_body (JObject []))));
       ensureTmpDir;;
       uploadedImageIds ←
         uploadImages tok (data r)
           (Js.optget (Js.or req_body (JObject [])) "image_files");
       results ← updateInventory tok (data r) (Js.or req_body (JObject []));
       send 200 (JsonBody (JObject
         [ ("ok", JBool true); ("listing", data r);
           ("listing_images_id", JArray uploadedImageIds);
           ("inventory", fst (results : jsval * jsval));
           ("video", snd results) ])))
      (fun err : JsError => send (relayStatus err) (JsonBody (relayBody err)))
      w1.
Proof.
  intros G Htok V. unfold createListing.
  erewrite bind_Ret by exact G.
  unfold Js.falsy. rewrite Htok. cbn [negb]. cbv zeta.
  rewrite (bind_Ret _ _ _ _ _ (validation_accepted _ w1 V)).
  reflexivity.
Qed.

(** X12. Past the access-token gate a POST /listings request is answered
    with JSON unless validation throws. When a [Number(...)] of the
    validation block throws, the handler throws with it, having sent
    nothing: the block is outside the [try]. Otherwise the handler
    returns normally, whatever the upstream does, and its answer is the
    400 error list of validation, the 200 record of the created draft, or
    the relay of the error that its [catch] caught. *)
Theorem createListing_answers_past_gate (req_body tok : jsval) (w w1 : World) :
  getValidAccessToken w = (Ret tok, w1) ->
  Js.truthy tok = true ->
  let out := createListing req_body w in
  if validationThrows (Js.or req_body (JObject []))
  then out = (Throw cannotConvert, w1)
  else
    fst out = Ret tt
    /\ (res (snd out)
        = Some (rejection (validate (Js.or req_body (JObject []))))
        \/ (exists listing ids inventory video,
              res (snd out) = Some (created listing ids inventory video))
        \/ (exists err, res (snd out) = Some (relayed err))).
Proof.
  intros G Htok out. subst out.
  destruct (validationThrows (Js.or req_body (JObject []))) eqn:Hnt;
    [ exact (createListing_validation_throws _ _ _ _ G Htok Hnt) | ].
  destruct (validate (Js.or req_body (JObject []))) as [ | m errors ] eqn:V.
  - rewrite (createListing_valid _ _ _ _ G Htok V).
    unfold try_catch.
    match goal with
    | |- context [ (?m ≫= ?k) w1 ] =>
        destruct ((m ≫= k) w1) as [[[] | err] w2] eqn:E
    end.
    + split; [ reflexivity | right; left ].
      apply bind_Ret_inv in E. destruct E as (r & w3 & _ & E).
      apply bind_Ret_inv in E. destruct E as ([] & w4 & _ & E).
      apply bind_Ret_inv in E. destruct E as (ids & w5 & _ & E).
      apply bind_Ret_inv in E. destruct E as (results & w6 & _ & E).
      injection E as <-. eexists _, _, _, _. reflexivity.
    + split; [ reflexivity | right; right ]. exists err. reflexivity.
  - assert (N : validate (Js.or req_body (JObject [])) <> [])
      by (rewrite V; discriminate).
    rewrite (createListing_invalid _ _ _ _ G Htok Hnt N), V.
    split; [ reflexivity | left; reflexivity ].
Qed.

Lemma uploadImages_none (tok listing image_files : jsval) (w : World) :
  match image_files with JArray files => length files | _ => 0 end = 0 ->
  uploadImages tok listing image_files w = (Ret [], w).
Proof.
  destruct image_files as [ | | | | | [ | x files ] | ];
    try reflexivity. discriminate.
Qed.

Lemma updateInventory_returns (tok listing body : jsval) (w : World) :
  Js.is_nullish listing = false ->
  exists results w', updateInventory tok listing body w = (Ret results, w').
Proof.
  intros Hl. unfold updateInventory, prop. rewrite Hl. cbv zeta.
  erewrite bind_Ret by reflexivity.
  destruct (Js.truthy (Js.optget listing "listing_id")
            && (Js.truthy (Js.optget body "sku")
                || Js.truthy (Js.optget body "inventory"))).
  - unfold try_catch.
    match goal with
    | |- context [ (?m ≫= ?k) w ] =>
        destruct ((m ≫= k) w) as [[results | err] w'] eqn:E
    end; eexists _, _; reflexivity.
  - eexists _, _. reflexivity.
Qed.

(** X13. Once the draft is created, a request without image entries is
    answered 200 whatever becomes of the inventory update and of the
    video: with [image_files] absent, empty or not an array, and a draft
    call that resolves with a body other than [null], the answer is the
    record [ok: true] with the upstream's draft and an empty
    [listing_images_id]. *)
Theorem createListing_draft_without_images (req_body tok : jsval)
  (w w1 : World) (r : HttpResponse) :
  getValidAccessToken w = (Ret tok, w1) ->
  Js.truthy tok = true ->
  validate (Js.or req_body (JObject [])) = [] ->
  upstream w1 (length (calls w1))
    (CreateListing tok (buildPayload (Js.or req_body (JObject []))))
  = Resolved r ->
  Js.is_nullish (data r) = false ->
  imageCount (Js.or req_body (JObject [])) = 0 ->
  fst (createListing req_body w) = Ret tt
  /\ exists inventory video,
       res (snd (createListing req_body w))
       = Some (created (data r) [] inventory video).
Proof.
  intros G Htok V Hup Hr Himg.
  rewrite (createListing_valid _ _ _ _ G Htok V).
  destruct (updateInventory_returns tok (data r) (Js.or req_body (JObject []))
              (set_tmpDir true
                 (set_calls (calls w1 ++
                    [ CreateListing tok
                        (buildPayload (Js.or req_body (JObject []))) ]) w1))
              Hr)
    as (results & w' & E).
  match goal with
  | |- context [ try_catch ?m ?h w1 ] =>
      assert (R : m w1
                  = (Ret tt,
                     set_res (Some (created (data r) [] (fst results)
                                            (snd results))) w'))
  end.
  { erewrite bind_Ret by (apply axios_Resolved; exact Hup).
    erewrite bind_Ret by reflexivity.
    erewrite bind_Ret by (apply uploadImages_none; exact Himg).
    erewrite bind_Ret by exact E.
    reflexivity. }
  erewrite try_catch_Ret by exact R.
  split; [ reflexivity | ]. eexists _, _. reflexivity.
Qed.

Lemma validate_sku (body : jsval) :
  Js.falsy (Js.optget body "sku") = true -> In err_sku (validate body).
Proof using StringToNumber ToString extname. intros H. in_errors; rewrite H; tauto. Qed.

Lemma accepted_sku (body : jsval) :
  validate body = [] -> Js.truthy (Js.optget body "sku") = true.
Proof using StringToNumber ToString extname.
  intros V. destruct (Js.truthy (Js.optget body "sku")) eqn:E; [ reflexivity | ].
  assert (H : In err_sku (validate body))
    by (apply validate_sku; unfold Js.falsy; rewrite E; reflexivity).
  rewrite V in H. destruct H.
Qed.

Lemma truthy_defined (v : jsval) : Js.truthy v = true -> Js.is_nullish v = false.
Proof. destruct v; try reflexivity; discriminate. Qed.

(** X14. A failed inventory step is hidden from the client: when the
    draft is created with a [listing_id] and the upstream rejects the
    inventory update, the request is still answered 200 [ok: true], with
    [inventory: null] and [video: null]. When the products are taken from
    [inventory.products] or [Number(sku)] returns, the inventory update
    is the last upstream call, so the video is never attempted; when
    [Number(sku)] throws, the step ends there and the draft call is the
    last. *)
Theorem createListing_inventory_failure_hidden (req_body tok : jsval)
  (w w1 : World) (r : HttpResponse) (err : JsError) :
  getValidAccessToken w = (Ret tok, w1) ->
  Js.truthy tok = true ->
  validate (Js.or req_body (JObject [])) = [] ->
  upstream w1 (length (calls w1))
    (CreateListing tok (buildPayload (Js.or req_body (JObject []))))
  = Resolved r ->
  Js.truthy (Js.optget (data r) "listing_id") = true ->
  imageCount (Js.or req_body (JObject [])) = 0 ->
  (forall payload,
     upstream w1 (S (length (calls w1)))
       (UpdateInventory tok (Js.optget (data r) "listing_id") payload)
     = Rejected err) ->
  res (snd (createListing req_body w))
  = Some (created (data r) [] JNull JNull)
  /\ if buildsProducts (Js.or req_body (JObject []))
     then
       exists payload,
         calls (snd (createListing req_body w))
         = calls w1
           ++ [ CreateListing tok (buildPayload (Js.or req_body (JObject [])));
                UpdateInventory tok (Js.optget (data r) "listing_id") payload ]
     else
       calls (snd (createListing req_body w))
       = calls w1
         ++ [ CreateListing tok (buildPayload (Js.or req_body (JObject []))) ].
Proof.
  intros G Htok V Hup Hid Himg Hinv.
  rewrite (createListing_valid _ _ _ _ G Htok V).
  assert (Hr : Js.is_nullish (data r) = false).
  { destruct (data r); try reflexivity; discriminate Hid. }
  set (body := Js.or req_body (JObject [])) in *.
  set (w2 := set_tmpDir true
               (set_calls (calls w1 ++ [ CreateListing tok (buildPayload body) ])
                          w1)).
  assert (L : length (calls w2) = S (length (calls w1))).
  { subst w2. cbn [calls set_tmpDir set_calls]. rewrite length_app. simpl. lia. }
  assert (E : exists w3,
             updateInventory tok (data r) body w2 = (Ret (JNull, JNull), w3)
             /\ if buildsProducts body
                then exists payload,
                       calls w3
                       = calls w2
                         ++ [ UpdateInventory tok
                                (Js.optget (data r) "listing_id") payload ]
                else calls w3 = calls w2).
  { unfold updateInventory, prop, buildsProducts. rewrite Hr. cbv zeta.
    erewrite bind_Ret by reflexivity.
    rewrite Hid, (accepted_sku _ V). cbn [andb orb].
    destruct (Js.truthy (Js.optget body "inventory")
              && Js.isArray (Js.optget (Js.optget body "inventory") "products")).
    - eexists. split.
      + erewrite try_catch_Throw; [ reflexivity | ].
        erewrite bind_Ret by reflexivity.
        apply bind_Throw, axios_Rejected. rewrite L. apply Hinv.
      + eexists. reflexivity.
    - cbn [orb]. destruct (Js.convertible (Js.optget body "sku")) eqn:C.
      + eexists. split.
        * erewrite try_catch_Throw; [ reflexivity | ].
          erewrite bind_Ret
            by (erewrite bind_Ret by (apply callNumber_run, C); reflexivity).
          apply bind_Throw, axios_Rejected. rewrite L. apply Hinv.
        * eexists. reflexivity.
      + eexists. split.
        * erewrite try_catch_Throw; [ reflexivity | ].
          apply bind_Throw, bind_Throw, callNumber_throws, C.
        * reflexivity. }
  destruct E as (w3 & E & Hlog).
  match goal with
  | |- context [ try_catch ?m ?h w1 ] =>
      assert (R : m w1
                  = (Ret tt,
                     set_res (Some (created (data r) [] JNull JNull)) w3))
  end.
  { erewrite bind_Ret by (apply axios_Resolved; exact Hup).
    erewrite bind_Ret by reflexivity.
    erewrite bind_Ret by (apply uploadImages_none; exact Himg).
    erewrite bind_Ret by exact E.
    reflexivity. }
  erewrite try_catch_Ret by exact R.
  split; [ reflexivity | ].
  cbn [snd calls set_res]. subst w2. cbn [calls set_tmpDir set_calls] in Hlog.
  destruct (buildsProducts body).
  - destruct Hlog as (payload & ->). exists payload.
    rewrite <- app_assoc. reflexivity.
  - exact Hlog.
Qed.

(** ** Images that get through *)

(** X15. A transient refusal is retried: when the first upload of a local
    file is rejected with the "is being edited by another process"
    message and the second is accepted, [uploadImageWithRetry] returns
    the image id of the second ([null] when the id cannot be converted to
    a string), after two uploads of the same file with the same rank and
    one pause of two seconds. *)
Theorem uploadImageWithRetry_recovers (tok lid : jsval) (p : string)
  (i : nat) (w : World) (e : JsError) (r : HttpResponse) :
  isUrl p = false ->
  upstream w (length (calls w)) (UploadImage tok lid p (pretty (i + 1)))
  = Rejected e ->
  transientMessage e ->
  upstream w (S (length (calls w))) (UploadImage tok lid p (pretty (i + 1)))
  = Resolved r ->
  Js.truthy (Js.and (data r) (Js.optget (data r) "listing_image_id")) = true ->
  let out := uploadImageWithRetry tok lid (JString p) i 3 w in
  fst out
  = Ret (if Js.convertible
              (Js.and (data r) (Js.optget (data r) "listing_image_id"))
         then JString (String_ (Js.and (data r)
                                  (Js.optget (data r) "listing_image_id")))
         else JNull)
  /\ calls (snd out)
     = calls w ++ [ UploadImage tok lid p (pretty (i + 1));
                    UploadImage tok lid p (pretty (i + 1)) ]
  /\ slept (snd out) = slept w + 2000.
Proof.
  intros Hlocal Hfirst Htrans Hsecond Hid out. subst out.
  change (Js.and (data r) (Js.optget (data r) "listing_image_id"))
    with (idOf r) in *.
  set (u := UploadImage tok lid p (pretty (i + 1))) in *.
  set (l0 := {| localPath := JString p; tempFile := None |}).
  set (w1 := set_calls (calls w ++ [u]) w).
  set (w2 := set_slept (slept w1 + 2000) w1).
  assert (I1 : iteration tok lid (JString p) i 0 3 l0 w
               = (Ret (Continue_, l0), w2)).
  { subst l0. rewrite (iteration_local tok lid p i Hlocal). fold u.
    rewrite Hfirst. cbn [uploadCompletes].
    erewrite bind_Ret by (apply catchBlock_retries; [ exact Htrans | lia ]).
    reflexivity. }
  assert (L : length (calls w2) = S (length (calls w))).
  { subst w2 w1. cbn [calls set_slept set_calls]. rewrite length_app.
    simpl. lia. }
  assert (I2 : iteration tok lid (JString p) i 1 3 l0 w2
               = (Ret (if Js.convertible (idOf r)
                       then Return_ (JString (String_ (idOf r)))
                       else Break_, l0),
                  set_calls (calls w2 ++ [u]) w2)).
  { subst l0. rewrite (iteration_local tok lid p i Hlocal). fold u.
    rewrite L. change (upstream w2) with (upstream w).
    rewrite Hsecond. cbn [uploadCompletes]. rewrite Hid.
    destruct (Js.convertible (idOf r)); [ reflexivity | ].
    erewrite bind_Ret
      by (apply catchBlock_gives_up, cannotConvert_notTransient).
    reflexivity. }
  unfold uploadImageWithRetry. fold l0. cbn [retryLoop].
  erewrite bind_Ret by exact I1. cbn [fst snd].
  erewrite bind_Ret by exact I2. cbn [fst snd].
  split; [ destruct (Js.convertible (idOf r)); reflexivity | split ].
  - destruct (Js.convertible (idOf r)); subst w2 w1; cbn;
      rewrite <- app_assoc; reflexivity.
  - destruct (Js.convertible (idOf r)); reflexivity.
Qed.

Lemma unlinkTemp_gone (name : string) (w : World) :
  ~ In name (tmpFiles (snd (unlinkTemp (Some name) w))).
Proof.
  simpl. rewrite List.filter_In. intros (_ & H).
  rewrite String.eqb_refl in H. discriminate H.
Qed.

(** X16. An entry that is a URL is downloaded first and uploaded from a
    temporary file: the file is named by the next random hex string and
    the extension of the URL ([.jpg] when it has none), the upload is made
    from that file, and when the upload is accepted the result is its
    image id ([null] when the id cannot be converted to a string) and the
    temporary file is gone. *)
Theorem uploadImageWithRetry_url (tok lid : jsval) (url : string) (i : nat)
  (w : World) (d r : HttpResponse) :
  isUrl url = true ->
  upstream w (length (calls w)) (DownloadImage (JString url)) = Resolved d ->
  let name :=
    (entropy w (drawn w)
     ++ (if String.eqb (extname url) "" then ".jpg" else extname url))%string in
  upstream w (S (length (calls w))) (UploadImage tok lid name (pretty (i + 1)))
  = Resolved r ->
  Js.truthy (Js.and (data r) (Js.optget (data r) "listing_image_id")) = true ->
  let out := uploadImageWithRetry tok lid (JString url) i 3 w in
  fst out
  = Ret (if Js.convertible
              (Js.and (data r) (Js.optget (data r) "listing_image_id"))
         then JString (String_ (Js.and (data r)
                                  (Js.optget (data r) "listing_image_id")))
         else JNull)
  /\ calls (snd out)
     = calls w ++ [ DownloadImage (JString url);
                    UploadImage tok lid name (pretty (i + 1)) ]
  /\ ~ In name (tmpFiles (snd out))
  /\ drawn (snd out) = S (drawn w).
Proof.
  intros Hurl Hd name Hup Hid out. subst out.
  change (Js.and (data r) (Js.optget (data r) "listing_image_id"))
    with (idOf r) in *.
  set (l0 := {| localPath := JString url; tempFile := None |}).
  set (l1 := {| localPath := JString name; tempFile := Some name |}).
  set (w1 := set_calls (calls w ++ [ DownloadImage (JString url) ]) w).
  set (w2 := snd (writeTemp name (set_drawn (S (drawn w1)) w1))).
  assert (D : download (JString url) l0 w = (Ret l1, w2))
    by exact (download_url url l0 w d Hurl Hd).
  assert (L : length (calls w2) = S (length (calls w))).
  { subst w2 w1. unfold writeTemp, modify. cbn [snd].
    match goal with |- context [ if ?c then _ else _ ] => destruct c end;
      cbn [calls set_tmpFiles set_drawn set_calls]; rewrite length_app;
      simpl; lia. }
  assert (U : upstream w2 = upstream w).
  { subst w2 w1. unfold writeTemp, modify. cbn [snd].
    match goal with |- context [ if ?c then _ else _ ] => destruct c end;
      reflexivity. }
  set (u := UploadImage tok lid name (pretty (i + 1))) in *.
  set (w3 := snd (unlinkTemp (Some name) (set_calls (calls w2 ++ [u]) w2))).
  assert (T : tryBlock tok lid (JString url) i l0 w
              = (Ret (l1, if Js.convertible (idOf r)
                          then Ret (Return_ (JString (String_ (idOf r))))
                          else Throw cannotConvert),
                 w3)).
  { unfold tryBlock. rewrite D.
    rewrite (upload_accepted tok lid i l1 name w2 r eq_refl)
      by (rewrite ?L, ?U; assumption).
    reflexivity. }
  assert (I1 : iteration tok lid (JString url) i 0 3 l0 w
               = (Ret (if Js.convertible (idOf r)
                       then Return_ (JString (String_ (idOf r)))
                       else Break_, l1),
                  snd (unlinkTemp (Some name) w3))).
  { unfold iteration. erewrite bind_Ret by exact T. cbn [fst snd].
    rewrite (bind_Ret _ _ w3 (snd (unlinkTemp (Some name) w3))
               (if Js.convertible (idOf r)
                then Return_ (JString (String_ (idOf r))) else Break_));
      [ reflexivity | ].
    rewrite try_finally_unlink. cbn [tempFile l1].
    destruct (Js.convertible (idOf r)); [ reflexivity | ].
    rewrite (catchBlock_gives_up 0 3 _ w3 cannotConvert_notTransient).
    reflexivity. }
  unfold uploadImageWithRetry. fold l0. cbn [retryLoop].
  erewrite bind_Ret by exact I1. cbn [fst snd].
  split; [ destruct (Js.convertible (idOf r)); reflexivity | ].
  assert (K : forall (v : jsval) (w0 : World),
            snd ((match (if Js.convertible (idOf r)
                         then Return_ (JString (String_ (idOf r)))
                         else Break_) with
                  | Return_ v => ret v
                  | Continue_ =>
                      retryLoop 2 tok lid (JString url) i 1 3 l1
                  | Break_ => ret JNull
                  end) w0) = w0)
    by (intros v w0; destruct (Js.convertible (idOf r)); reflexivity).
  rewrite (K JNull).
  split; [ | split ].
  - subst w3 w2 w1. unfold writeTemp, modify. cbn [snd].
    match goal with |- context [ if ?c then _ else _ ] => destruct c end;
      cbn; rewrite <- app_assoc; reflexivity.
  - apply unlinkTemp_gone.
  - subst w3 w2 w1. unfold writeTemp, modify. cbn [snd].
    match goal with |- context [ if ?c then _ else _ ] => destruct c end;
      reflexivity.
Qed.

(** ** GET /auth/callback with a known state *)

Lemma authCallback_exchange (q : CallbackQuery) (w : World) (e : PkceEntry) :
  callbackReachesLookup q ->
  pkceStore w !! param (q_state q) = Some e ->
  authCallback q w
  = try_catch
      (tokenResp ← axios (TokenExchange (param (q_code q))
                            (JString (code_verifier e)));
       store ← readTokens;
       store ← assignProp store "etsy" (data tokenResp);
       saveTokens store;;
       scope ← prop (data tokenResp) "scope";
       expires_in ← prop (data tokenResp) "expires_in";
       send 200 (JsonBody (JObject
         [ ("message", JString "OAuth success — tokens saved (demo).");
           ("scope", scope); ("expires_in", expires_in) ])))
      (fun err : JsError => send 500 (Text msg_exchange_failed))
      (set_pkceStore (delete (param (q_state q)) (pkceStore w)) w).
Proof.
  intros (He & Hc & Hs) Hown. unfold authCallback.
  rewrite He, Hc, Hs. simpl.
  unfold mbind at 1. unfold M_bind, bind, gets, pkceGet. rewrite Hown.
  erewrite bind_Ret by reflexivity. reflexivity.
Qed.

(** X17. A callback whose state was stored by a login and whose exchange
    is accepted with a token record: the exchange is the one upstream
    call and carries the verifier stored under the state; the answer is
    200 with the record's [scope] and [expires_in] and nothing else of
    it; the token file then reads back with [etsy] holding the record as
    JSON writes it and every other key as it was; and the state is used
    up. *)
Theorem authCallback_stores_tokens (q : CallbackQuery) (w : World)
  (e : PkceEntry) (r : HttpResponse) :
  callbackReachesLookup q ->
  pkceStore w !! param (q_state q) = Some e ->
  upstream w (length (calls w))
    (TokenExchange (param (q_code q)) (JString (code_verifier e)))
  = Resolved r ->
  isObject (storeOf w) = true ->
  isObject (data r) = true ->
  let w' := snd (authCallback q w) in
  fst (authCallback q w) = Ret tt
  /\ calls w'
     = calls w ++ [ TokenExchange (param (q_code q)) (JString (code_verifier e)) ]
  /\ res w'
     = Some {| res_status := 200;
               res_body := JsonBody (JObject
                 [ ("message", JString "OAuth success — tokens saved (demo).");
                   ("scope", Js.optget (data r) "scope");
                   ("expires_in", Js.optget (data r) "expires_in") ]) |}
  /\ Js.optget (storeOf w') "etsy" = jsonify (data r)
  /\ (forall k, k <> "etsy" ->
        Js.optget (storeOf w') k = Js.optget (jsonify (storeOf w)) k)
  /\ pkceStore w' !! param (q_state q) = None.
Proof.
  intros Hq Hown Hup Hstore Hobj w'.
  destruct (storeOf w) as [ | | | | | | fs ] eqn:Hfs; try discriminate.
  destruct (data r) as [ | | | | | | tf ] eqn:Hd; try discriminate.
  set (w0 := set_pkceStore (delete (param (q_state q)) (pkceStore w)) w).
  assert (R : authCallback q w
              = (Ret tt,
                 set_res (Some {| res_status := 200;
                                  res_body := JsonBody (JObject
                                    [ ("message", JString "OAuth success — tokens saved (demo).");
                                      ("scope", Js.optget (data r) "scope");
                                      ("expires_in", Js.optget (data r) "expires_in") ]) |})
                   (set_tokenFile
                      (Content (Encodes (jsonify
                         (JObject (Js.assign "etsy" (data r) fs)))))
                      (set_calls
                         (calls w ++ [ TokenExchange (param (q_code q))
                                         (JString (code_verifier e)) ])
                         w0)))).
  { rewrite (authCallback_exchange q w e Hq Hown). fold w0.
    erewrite try_catch_Ret; [ reflexivity | ].
    erewrite bind_Ret by (apply axios_Resolved; exact Hup).
    erewrite bind_Ret by apply readTokens_storeOf.
    replace (storeOf (set_calls (calls w0 ++ [ TokenExchange (param (q_code q))
                                                 (JString (code_verifier e)) ]) w0))
      with (JObject fs) by (symmetry; exact Hfs).
    rewrite Hd. reflexivity. }
  subst w'. rewrite R.
  cbn [fst snd calls res pkceStore set_res set_tokenFile set_calls].
  repeat split.
  - rewrite Hd. reflexivity.
  - unfold storeOf. cbn [tokenFile set_res set_tokenFile].
    rewrite jsonify_object. cbn [Js.optget].
    rewrite Hd. apply assoc_jsonify_assign. discriminate.
  - intros k Hk. unfold storeOf at 1. cbn [tokenFile set_res set_tokenFile].
    rewrite !jsonify_object. cbn [Js.optget].
    apply assoc_jsonify_assign_other. exact Hk.
  - subst w0. cbn [pkceStore set_pkceStore]. apply lookup_delete_eq.
Qed.

Lemma jsonify_not_object (v : jsval) :
  isObject v = false -> isObject (jsonify v) = false.
Proof.
  destruct v; try reflexivity; try discriminate.
  intros _. simpl. destruct (Prim2SF x); reflexivity.
Qed.

Lemma stored_not_object (v : jsval) (field : string) :
  isObject v = false -> stored v field = JUndefined.
Proof. destruct v; try reflexivity; discriminate. Qed.

(** X18. The callback writes [store.etsy] on whatever the token file
    parses to. When the file holds JSON that is not an object, the tokens
    of an accepted exchange are not kept: on [null] the assignment
    throws and the callback answers 500 although the exchange succeeded;
    on a number, a string, a boolean or an array the assignment is lost,
    the value is written back without the tokens, and the callback still
    answers 200. Either way no access token can be read from the file
    afterwards, and the state is used up. *)
Theorem authCallback_discards_tokens (q : CallbackQuery) (w : World)
  (e : PkceEntry) (r : HttpResponse) :
  callbackReachesLookup q ->
  pkceStore w !! param (q_state q) = Some e ->
  upstream w (length (calls w))
    (TokenExchange (param (q_code q)) (JString (code_verifier e)))
  = Resolved r ->
  isObject (storeOf w) = false ->
  Js.is_nullish (data r) = false ->
  let w' := snd (authCallback q w) in
  stored (storeOf w') "access_token" = JUndefined
  /\ res_status <$> res w'
     = Some (if Js.is_nullish (storeOf w) then 500 else 200)%Z
  /\ pkceStore w' !! param (q_state q) = None.
Proof.
  intros Hq Hown Hup Hstore Hr w'.
  set (w0 := set_pkceStore (delete (param (q_state q)) (pkceStore w)) w).
  set (w1 := set_calls (calls w0 ++ [ TokenExchange (param (q_code q))
                                        (JString (code_verifier e)) ]) w0).
  assert (S1 : storeOf w1 = storeOf w) by reflexivity.
  assert (P : forall k, prop (data r) k = ret (Js.optget (data r) k))
    by (intros k; unfold prop; rewrite Hr; reflexivity).
  assert (R : authCallback q w
              = if Js.is_nullish (storeOf w)
                then (Ret tt,
                      set_res (Some {| res_status := 500;
                                       res_body := Text msg_exchange_failed |}) w1)
                else (Ret tt,
                      set_res (Some {| res_status := 200;
                                       res_body := JsonBody (JObject
                                         [ ("message", JString "OAuth success — tokens saved (demo).");
                                           ("scope", Js.optget (data r) "scope");
                                           ("expires_in", Js.optget (data r) "expires_in") ]) |})
                        (set_tokenFile (Content (Encodes (jsonify (storeOf w))))
                                       w1))).
  { rewrite (authCallback_exchange q w e Hq Hown). fold w0.
    destruct (storeOf w) as [ | | b | x | s | items | fs ] eqn:Hfs;
      try discriminate Hstore; cbn [Js.is_nullish].
    1, 2: erewrite try_catch_Throw; [ reflexivity | ];
          erewrite bind_Ret by (apply axios_Resolved; exact Hup);
          erewrite bind_Ret by apply readTokens_storeOf;
          fold w1; rewrite S1; reflexivity.
    all: erewrite try_catch_Ret; [ reflexivity | ];
         erewrite bind_Ret by (apply axios_Resolved; exact Hup);
         erewrite bind_Ret by apply readTokens_storeOf;
         fold w1; rewrite S1;
         erewrite bind_Ret by reflexivity;
         erewrite bind_Ret by reflexivity;
         rewrite !P; reflexivity. }
  subst w'. rewrite R.
  destruct (Js.is_nullish (storeOf w)) eqn:Hn;
    cbn [snd res pkceStore set_res set_tokenFile]; repeat split.
  - apply stored_not_object. exact Hstore.
  - subst w1 w0. cbn [pkceStore set_calls set_pkceStore]. apply lookup_delete_eq.
  - apply stored_not_object. unfold storeOf.
    cbn [tokenFile set_res set_tokenFile].
    apply jsonify_not_object. exact Hstore.
  - subst w1 w0. cbn [pkceStore set_calls set_pkceStore]. apply lookup_delete_eq.
Qed.

(** ** GET /auth/login: the PKCE pair *)

Lemma list_ind3 {A} (P : list A -> Prop) :
  P [] -> (forall a, P [a]) -> (forall a b, P [a; b]) ->
  (forall a b c l, P l -> P (a :: b :: c :: l)) ->
  forall l, P l.
Proof.
  intros H0 H1 H2 H3 l.
  assert (H : P l /\ (forall a, P (a :: l)) /\ (forall a b, P (a :: b :: l))).
  { induction l as [ | x l (IH0 & IH1 & IH2) ].
    - split; [ exact H0 | split; [ exact H1 | exact H2 ] ].
    - split; [ apply IH1 | split; [ intros a; apply IH2 | ] ].
      intros a b. apply H3. exact IH0. }
  exact (proj1 H).
Qed.

Lemma base64Digit_unreserved (n : N) :
  unreserved (urlDigit (base64Digit n)) = true.
Proof.
  unfold base64Digit.
  assert (Hlt : N.to_nat (n mod 64) < 64).
  { pose proof (N.mod_lt n 64) as H. lia. }
  assert (Hall : forallb
                   (fun k => unreserved
                               (urlDigit match String.get k base64Alphabet with
                                         | Some c => c
                                         | None => "="%char
                                         end))
                   (seq 0 64) = true) by (vm_compute; reflexivity).
  rewrite forallb_forall in Hall. apply Hall. apply in_seq.
  split; [ apply Nat.le_0_l | exact Hlt ].
Qed.

Lemma replaceAll_urlDigit (x : ascii) (s : string) :
  replaceAll "/" "_" (replaceAll "+" "-" (String x s))
  = String (urlDigit x) (replaceAll "/" "_" (replaceAll "+" "-" s)).
Proof. reflexivity. Qed.

Lemma stripTrailing_String (c x : ascii) (s : string) :
  Ascii.eqb x c = false ->
  stripTrailing c (String x s) = String x (stripTrailing c s).
Proof.
  intros H. simpl. rewrite H. destruct (stripTrailing c s); reflexivity.
Qed.

Lemma unreserved_not_pad (x : ascii) :
  unreserved x = true -> Ascii.eqb x "=" = false.
Proof.
  intros H. destruct (Ascii.eqb_spec x "="%char) as [-> | ]; [ | reflexivity ].
  discriminate H.
Qed.

Lemma base64URLEncode_digit (x : ascii) (s : string) :
  unreserved (urlDigit x) = true ->
  stripTrailing "=" (replaceAll "/" "_" (replaceAll "+" "-" (String x s)))
  = String (urlDigit x)
      (stripTrailing "=" (replaceAll "/" "_" (replaceAll "+" "-" s))).
Proof.
  intros H. rewrite replaceAll_urlDigit.
  apply stripTrailing_String, unreserved_not_pad, H.
Qed.

Lemma base64URLEncode_three (a b c : Byte.byte) (rest : list Byte.byte) :
  exists d1 d2 d3 d4,
    base64URLEncode (a :: b :: c :: rest)
    = String d1 (String d2 (String d3 (String d4 (base64URLEncode rest))))
    /\ unreserved d1 = true /\ unreserved d2 = true
    /\ unreserved d3 = true /\ unreserved d4 = true.
Proof.
  unfold base64URLEncode. cbn [toBase64]. cbv zeta.
  do 4 eexists. split; [ | repeat split; apply base64Digit_unreserved ].
  rewrite !base64URLEncode_digit by apply base64Digit_unreserved.
  reflexivity.
Qed.

Lemma base64URLEncode_one (a : Byte.byte) :
  exists d1 d2,
    base64URLEncode [a] = String d1 (String d2 "")
    /\ unreserved d1 = true /\ unreserved d2 = true.
Proof.
  unfold base64URLEncode. cbn [toBase64]. cbv zeta.
  do 2 eexists. split; [ | repeat split; apply base64Digit_unreserved ].
  rewrite !base64URLEncode_digit by apply base64Digit_unreserved.
  reflexivity.
Qed.

Lemma base64URLEncode_two (a b : Byte.byte) :
  exists d1 d2 d3,
    base64URLEncode [a; b] = String d1 (String d2 (String d3 ""))
    /\ unreserved d1 = true /\ unreserved d2 = true /\ unreserved d3 = true.
Proof.
  unfold base64URLEncode. cbn [toBase64]. cbv zeta.
  do 3 eexists. split; [ | repeat split; apply base64Digit_unreserved ].
  rewrite !base64URLEncode_digit by apply base64Digit_unreserved.
  reflexivity.
Qed.

(** X19. Whatever the bytes, [base64URLEncode] yields only letters,
    digits, [-] and [_]: no [+], no [/], and no [=] padding is left, so
    that verifier and challenge need no escaping in a URL or a form
    body. *)
Theorem base64URLEncode_unreserved (buffer : list Byte.byte) :
  forallb unreserved (list_ascii_of_string (base64URLEncode buffer)) = true.
Proof.
  induction buffer as [ | a | a b | a b c rest IH ] using list_ind3.
  - reflexivity.
  - destruct (base64URLEncode_one a) as (d1 & d2 & -> & H1 & H2).
    simpl. rewrite H1, H2. reflexivity.
  - destruct (base64URLEncode_two a b) as (d1 & d2 & d3 & -> & H1 & H2 & H3).
    simpl. rewrite H1, H2, H3. reflexivity.
  - destruct (base64URLEncode_three a b c rest)
      as (d1 & d2 & d3 & d4 & -> & H1 & H2 & H3 & H4).
    simpl. rewrite H1, H2, H3, H4, IH. reflexivity.
Qed.

(** X20. [base64URLEncode] of [n] bytes has ⌈4n/3⌉ characters, that is
    [(4n + 2) / 3]: 43 for the 32 random bytes of a code verifier and
    for the 32 bytes of a SHA-256 digest, the shortest length a PKCE
    verifier may have. *)
Theorem base64URLEncode_length (buffer : list Byte.byte) :
  String.length (base64URLEncode buffer) = (4 * length buffer + 2) / 3.
Proof.
  induction buffer as [ | a | a b | a b c rest IH ] using list_ind3.
  - reflexivity.
  - destruct (base64URLEncode_one a) as (d1 & d2 & -> & _). reflexivity.
  - destruct (base64URLEncode_two a b) as (d1 & d2 & d3 & -> & _).
    reflexivity.
  - destruct (base64URLEncode_three a b c rest)
      as (d1 & d2 & d3 & d4 & -> & _).
    cbn [String.length length]. rewrite IH.
    replace (4 * S (S (S (length rest))) + 2)
      with (4 * length rest + 2 + 4 * 3) by lia.
    rewrite Nat.div_add by discriminate. lia.
Qed.

Section LoginFlow.

Variable randomBytes : nat -> list Byte.byte.
Variable sha256 : string -> list Byte.byte.
Variable CLIENT_ID : option string.
Variable REDIRECT_URI : option string.

Lemma authLogin_run (now : nat) (w : World) :
  authLogin randomBytes sha256 CLIENT_ID REDIRECT_URI now w
  = (Ret [ ("response_type", "code");
           ("client_id", envText CLIENT_ID);
           ("redirect_uri", envText REDIRECT_URI);
           ("scope", String.concat " " scopes);
           ("state", entropy w (S (drawn w)));
           ("code_challenge",
            generateCodeChallenge sha256
              (base64URLEncode (randomBytes (drawn w))));
           ("code_challenge_method", "S256") ],
     set_pkceStore
       (<[ entropy w (S (drawn w)) :=
             {| code_verifier := base64URLEncode (randomBytes (drawn w));
                createdAt := now |} ]> (pkceStore w))
       (set_drawn (S (S (drawn w))) w)).
Proof. reflexivity. Qed.

Lemma present_Some (s : string) : s <> "" -> present (Some s) = true.
Proof.
  intros H. unfold present. apply negb_true_iff, String.eqb_neq. exact H.
Qed.

Lemma calls_try_catch_axios {A} (rq : HttpRequest) (k : HttpResponse -> M A)
  (h : JsError -> M A) (w : World) :
  (forall r, keeps calls (k r)) -> (forall e, keeps calls (h e)) ->
  calls (snd (try_catch (axios rq ≫= k) h w)) = calls w ++ [rq].
Proof.
  intros Hk Hh. unfold try_catch, mbind, M_bind, bind, axios.
  destruct (upstream w (length (calls w)) rq) as [r | err].
  - pose proof (Hk r (set_calls (calls w ++ [rq]) w)) as Hc.
    destruct (k r (set_calls (calls w ++ [rq]) w)) as [[a | err] w2];
      cbn [snd] in *.
    + exact Hc.
    + rewrite Hh. exact Hc.
  - rewrite Hh. reflexivity.
Qed.

Lemma authCallback_calls (q : CallbackQuery) (w : World) (e : PkceEntry) :
  callbackReachesLookup q ->
  pkceStore w !! param (q_state q) = Some e ->
  calls (snd (authCallback q w))
  = calls w ++ [ TokenExchange (param (q_code q)) (JString (code_verifier e)) ].
Proof.
  intros Hq Hown. rewrite (authCallback_exchange q w e Hq Hown).
  rewrite calls_try_catch_axios; [ reflexivity | intros r; frame | intros err; frame ].
Qed.

(** X21. Login and callback fit together. After GET /auth/login, the
    callback that brings back the state of the redirect posts the token
    exchange with the code verifier that this login generated, whose
    S256 challenge the redirect carried; the state is then used up: a
    second callback with the same state is answered 400 without any
    upstream call. The login itself leaves every other pending state in
    the store as it was. *)
Theorem authLogin_then_callback (now : nat) (code : string) (w : World) :
  let state := entropy w (S (drawn w)) in
  let verifier := base64URLEncode (randomBytes (drawn w)) in
  let login := authLogin randomBytes sha256 CLIENT_ID REDIRECT_URI now w in
  let w1 := snd login in
  let w2 := snd (authCallback (callbackOf code state) w1) in
  state <> "" ->
  code <> "" ->
  existsb (String.eqb state) objectPrototype = false ->
  (exists query,
     fst login = Ret query
     /\ In ("state", state) query
     /\ In ("code_challenge", base64URLEncode (sha256 verifier)) query
     /\ In ("code_challenge_method", "S256") query)
  /\ (forall k, k <> state -> pkceStore w1 !! k = pkceStore w !! k)
  /\ calls w2 = calls w ++ [ TokenExchange code (JString verifier) ]
  /\ authCallback (callbackOf code state) w2
     = (Ret tt, set_res (Some {| res_status := 400;
                                 res_body := Text msg_missing_verifier |}) w2).
Proof.
  host_free.
  intros state verifier login w1 w2 Hstate Hcode Hproto.
  assert (Hq : callbackReachesLookup (callbackOf code state)).
  { split; [ reflexivity | split; apply present_Some; assumption ]. }
  assert (Hown : pkceStore w1 !! param (q_state (callbackOf code state))
                 = Some {| code_verifier := verifier; createdAt := now |}).
  { subst w1 login. rewrite authLogin_run.
    cbn [snd pkceStore set_pkceStore param q_state callbackOf default].
    apply lookup_insert_eq. }
  split; [ | split; [ | split ] ].
  - subst login. rewrite authLogin_run. eexists. split; [ reflexivity | ].
    unfold generateCodeChallenge. fold state verifier. simpl. tauto.
  - intros k Hk. subst w1 login. rewrite authLogin_run.
    cbn [snd pkceStore set_pkceStore]. apply lookup_insert_ne.
    intros E. apply Hk. symmetry. exact E.
  - subst w2. rewrite (authCallback_calls _ _ _ Hq Hown).
    subst w1 login. rewrite authLogin_run. reflexivity.
  - apply authCallback_unknown_state; [ exact Hq | | exact Hproto ].
    subst w2. rewrite authCallback_consumes.
    + apply lookup_delete_eq.
    + exact Hq.
    + unfold pkceGet. rewrite Hown. discriminate.
Qed.

End LoginFlow.

(** ** The earlier versions *)

Lemma assoc_assign (k : string) (x : jsval) (fs : list (string * jsval)) :
  Js.assoc k (Js.assign k x fs) = x.
Proof.
  induction fs as [ | [k0 v] fs IH ]; simpl.
  - rewrite String.eqb_refl. reflexivity.
  - destruct (String.eqb_spec k k0) as [-> | Hne]; simpl.
    + rewrite String.eqb_refl. reflexivity.
    + destruct (String.eqb_spec k k0); [ contradiction | exact IH ].
Qed.

Lemma assoc_assign_other (k k' : string) (x : jsval)
  (fs : list (string * jsval)) :
  k' <> k -> Js.assoc k' (Js.assign k x fs) = Js.assoc k' fs.
Proof.
  intros Hk. induction fs as [ | [k0 v] fs IH ]; simpl.
  - destruct (String.eqb_spec k' k); [ contradiction | reflexivity ].
  - destruct (String.eqb_spec k k0) as [-> | Hne]; simpl.
    + destruct (String.eqb_spec k' k0); [ contradiction | reflexivity ].
    + rewrite IH. reflexivity.
Qed.

(** X22. The callback of the first version ([src/server.js]) never reads
    the [state] of the query and consults no PKCE store: any callback
    with a code is exchanged, without a verifier. When the exchange
    yields a token record, the record is stored under [etsy] whatever
    the token file held, and the answer echoes the record with only
    [access_token] masked: every other field, the refresh token
    included, is sent to the browser. *)
Theorem authCallback_v1_echoes_tokens (q : CallbackQuery) (w : World)
  (r : HttpResponse) :
  present (q_error q) = false ->
  present (q_code q) = true ->
  upstream w (length (calls w)) (TokenExchange (param (q_code q)) JUndefined)
  = Resolved r ->
  isObject (data r) = true ->
  let w' := snd (authCallback_v1 q w) in
  (exists shown,
     res w'
     = Some {| res_status := 200;
               res_body := JsonBody (JObject
                 [ ("message",
                    JString "Tokens saved (demo). You can now call /listings with Authorization");
                   ("tokens", JObject shown) ]) |}
     /\ Js.assoc "access_token" shown = JString "***"
     /\ forall k, k <> "access_token" ->
                  Js.assoc k shown = Js.optget (data r) k)
  /\ calls w' = calls w ++ [ TokenExchange (param (q_code q)) JUndefined ]
  /\ Js.optget (storeOf w') "etsy" = jsonify (data r)
  /\ pkceStore w' = pkceStore w.
Proof.
  intros He Hc Hup Hobj w'.
  destruct (data r) as [ | | | | | | tf ] eqn:Hd; try discriminate.
  set (w1 := set_calls (calls w ++ [ TokenExchange (param (q_code q)) JUndefined ]) w).
  assert (R : authCallback_v1 q w
              = (Ret tt,
                 set_res (Some {| res_status := 200;
                                  res_body := JsonBody (JObject
                                    [ ("message",
                                       JString "Tokens saved (demo). You can now call /listings with Authorization");
                                      ("tokens",
                                       JObject (Js.assign "access_token"
                                                  (JString "***") tf)) ]) |})
                   (set_tokenFile
                      (Content (Encodes (jsonify
                         (JObject (Js.assign "etsy" (JObject tf)
                                             (spread (storeOf w)))))))
                      w1))).
  { unfold authCallback_v1. rewrite He, Hc. cbn [negb].
    erewrite try_catch_Ret; [ reflexivity | ].
    erewrite bind_Ret by (apply axios_Resolved; exact Hup).
    erewrite bind_Ret by apply readTokens_storeOf.
    rewrite Hd. reflexivity. }
  subst w'. rewrite R.
  cbn [snd res calls pkceStore set_res set_tokenFile set_calls w1].
  split; [ | split; [ reflexivity | split; [ | reflexivity ] ] ].
  - eexists. split; [ reflexivity | split ].
    + apply assoc_assign.
    + intros k Hk. apply assoc_assign_other. exact Hk.
  - unfold storeOf. cbn [tokenFile set_res set_tokenFile].
    rewrite jsonify_object. cbn [Js.optget].
    apply assoc_jsonify_assign. discriminate.
Qed.

(** *** The draft payload across the versions *)

Lemma assoc_absent (k : string) (fs : list (string * jsval)) :
  ~ In k (keys fs) -> Js.assoc k fs = JUndefined.
Proof.
  host_free.
  induction fs as [ | [k0 v] fs IH ]; simpl; [ reflexivity | ].
  intros H. destruct (String.eqb_spec k k0) as [-> | Hne]; [ tauto | ].
  apply IH. tauto.
Qed.

Lemma keys_filter (p : string * jsval -> bool) (fs : list (string * jsval))
  (k : string) :
  In k (keys (List.filter p fs)) -> In k (keys fs).
Proof.
  host_free.
  unfold keys. rewrite !in_map_iff. intros (x & E & Hx).
  apply List.filter_In in Hx. exists x. tauto.
Qed.

Lemma assoc_filter_defined (k : string) (fs : list (string * jsval)) :
  List.NoDup (keys fs) ->
  Js.assoc k (List.filter (fun kv => negb (Js.is_undefined (snd kv))) fs)
  = Js.assoc k fs.
Proof.
  induction fs as [ | [k0 v] fs IH ]; [ reflexivity | ].
  intros Hnd. inversion Hnd as [ | ? ? Hnotin Hnd' ]; subst.
  cbn [List.filter snd]. destruct (Js.is_undefined v) eqn:Hv; cbn [negb].
  - simpl. destruct (String.eqb_spec k k0) as [-> | Hne].
    + destruct v; try discriminate Hv. apply assoc_absent.
      intros H. apply Hnotin. exact (keys_filter _ _ _ H).
    + apply IH. exact Hnd'.
  - simpl. destruct (String.eqb_spec k k0); [ reflexivity | ].
    apply IH. exact Hnd'.
Qed.

Lemma keys_assign (k : string) (x : jsval) (fs : list (string * jsval)) :
  keys (Js.assign k x fs)
  = if existsb (String.eqb k) (keys fs) then keys fs else keys fs ++ [k].
Proof.
  induction fs as [ | [k0 v] fs IH ]; [ reflexivity | ].
  simpl. destruct (String.eqb_spec k k0) as [-> | Hne]; [ reflexivity | ].
  simpl. rewrite IH. destruct (existsb (String.eqb k) (keys fs)); reflexivity.
Qed.

Lemma NoDup_keys_assign (k : string) (x : jsval) (fs : list (string * jsval)) :
  List.NoDup (keys fs) -> List.NoDup (keys (Js.assign k x fs)).
Proof.
  intros H. rewrite keys_assign.
  destruct (existsb (String.eqb k) (keys fs)) eqn:E; [ exact H | ].
  apply NoDup_ListNoDup, NoDup_app. split; [ apply NoDup_ListNoDup, H | ].
  split; [ | apply NoDup_singleton ].
  intros x0 Hin Hin'. apply list_elem_of_In in Hin.
  apply list_elem_of_singleton in Hin'. subst x0.
  assert (E' : existsb (String.eqb k) (keys fs) = true).
  { apply existsb_exists. exists k. split; [ exact Hin | apply String.eqb_refl ]. }
  congruence.
Qed.

Lemma NoDup_keys_setIf (c : bool) (k : string) (x : jsval)
  (fs : list (string * jsval)) :
  List.NoDup (keys fs) -> List.NoDup (keys (setIf c k x fs)).
Proof.
  intros H. unfold setIf. destruct c; [ apply NoDup_keys_assign | ]; exact H.
Qed.

Lemma assoc_setIf_other (c : bool) (k k' : string) (x : jsval)
  (fs : list (string * jsval)) :
  k' <> k -> Js.assoc k' (setIf c k x fs) = Js.assoc k' fs.
Proof.
  intros H. unfold setIf. destruct c; [ apply assoc_assign_other, H | reflexivity ].
Qed.

Lemma distinct_NoDup (l : list string) : distinct l = true -> List.NoDup l.
Proof.
  induction l as [ | x l IH ]; intros H; [ constructor | ].
  simpl in H. apply andb_true_iff in H. destruct H as [H1 H2].
  constructor; [ | apply IH, H2 ].
  intros Hin. apply negb_true_iff in H1.
  assert (E : existsb (String.eqb x) l = true).
  { apply existsb_exists. exists x. split; [ exact Hin | apply String.eqb_refl ]. }
  congruence.
Qed.

Lemma assoc_copied (f : string -> jsval) (fields : list string) (k : string) :
  In k fields -> Js.assoc k (map (fun k0 => (k0, f k0)) fields) = f k.
Proof.
  induction fields as [ | k0 fields IH ]; [ intros [] | ].
  intros Hin. simpl. destruct (String.eqb_spec k k0) as [-> | Hne];
    [ reflexivity | ].
  destruct Hin as [-> | Hin]; [ contradiction | exact (IH Hin) ].
Qed.

Lemma keys_copied (f : string -> jsval) (fields : list string) :
  keys (map (fun k0 => (k0, f k0)) fields) = fields.
Proof.
  unfold keys. rewrite map_map. simpl. apply map_id.
Qed.

(** Every field of [payload_fields] goes into the draft as the body has
    it. *)
Lemma buildPayload_copies (body : jsval) (k : string) :
  In k payload_fields ->
  Js.optget (buildPayload body) k = Js.optget body k.
Proof.
  host_free.
  intros Hin. unfold buildPayload. cbv zeta. cbn [Js.optget].
  assert (Hk : forall k', In k' (dimension_fields ++ unit_fields ++ ["inventory"]) ->
                          k <> k').
  { intros k' Hk' ->.
    exact (apart payload_fields
             (dimension_fields ++ unit_fields ++ ["inventory"]) eq_refl _ Hin Hk'). }
  set (base := map (fun k0 => (k0, Js.optget body k0)) payload_fields).
  assert (Hbase : List.NoDup (keys base)).
  { subst base. rewrite keys_copied. apply distinct_NoDup. reflexivity. }
  assert (Abase : Js.assoc k base = Js.optget body k).
  { subst base. apply assoc_copied. exact Hin. }
  rewrite assoc_filter_defined.
  - repeat match goal with
           | |- context [ if ?c then _ else _ ] => destruct c
           end;
      rewrite ?assoc_assign_other, ?assoc_setIf_other;
      try exact Abase;
      apply Hk; simpl; tauto.
  - repeat match goal with
           | |- context [ if ?c then _ else _ ] => destruct c
           end;
      repeat first [ apply NoDup_keys_assign | apply NoDup_keys_setIf ];
      exact Hbase.
Qed.

(** What validation has checked of a body it accepts. *)
Lemma validate_accepted (body : jsval) :
  validate body = [] ->
  let f := Js.optget body in
  blankText (f "title") = false
  /\ blankText (f "description") = false
  /\ Js.is_undefined (f "price") = false
  /\ Js.is_undefined (f "quantity") = false
  /\ Js.one_of who_made_values (f "who_made") = true
  /\ Js.one_of when_made_values (f "when_made") = true
  /\ Js.truthy (f "sku") = true
  /\ Js.truthy (f "taxonomy_id") = true.
Proof.
  unfold validate, pushDimension. cbv zeta. intros H.
  destruct (isPhysical (Js.optget body "type"));
    repeat match type of H with
           | pushIf _ _ _ = [] =>
               let C := fresh "C" in
               apply pushIf_nil in H; destruct H as [H C]
           end;
    clear H;
    repeat match goal with
           | C : _ || _ = false |- _ =>
               apply orb_false_iff in C; destruct C
           end;
    unfold Js.falsy in *;
    repeat match goal with
           | C : negb _ = false |- _ => apply negb_false_iff in C
           end;
    repeat split; assumption.
Qed.

Lemma orDefault_defined (v d : jsval) :
  Js.is_undefined v = false -> orDefault v d = v.
Proof. intros H. unfold orDefault. rewrite H. reflexivity. Qed.

Lemma defined_of_truthy (v : jsval) :
  Js.truthy v = true -> Js.is_undefined v = false.
Proof. destruct v; try reflexivity; discriminate. Qed.

Lemma defined_of_text (v : jsval) :
  blankText v = false -> Js.is_undefined v = false.
Proof. destruct v; try reflexivity; discriminate. Qed.

Lemma defined_of_member (lits : list string) (v : jsval) :
  Js.one_of lits v = true -> Js.is_undefined v = false.
Proof. destruct v; try reflexivity; discriminate. Qed.

(** X23. On a body that validation accepts, the draft carries the seven
    required fields exactly as the body has them, none of them
    [undefined], [who_made] and [when_made] within their enumerations,
    and an [inventory]; and the drafts of the two earlier versions hold
    the same values for these fields: their defaults ("i_made_it",
    "2020_2023", ...) apply to no body that the current version
    accepts. *)
Theorem accepted_payload (body : jsval) (k : string) :
  validate body = [] ->
  In k [ "title"; "description"; "price"; "quantity"; "who_made";
         "when_made"; "taxonomy_id" ] ->
  Js.optget (buildPayload body) k = Js.optget body k
  /\ Js.optget body k <> JUndefined
  /\ Js.optget (payload_v1 body) k = Js.optget (buildPayload body) k
  /\ Js.optget (payload_v2 body) k = Js.optget (buildPayload body) k
  /\ Js.one_of who_made_values (Js.optget (buildPayload body) "who_made") = true
  /\ Js.one_of when_made_values (Js.optget (buildPayload body) "when_made") = true
  /\ Js.optget (buildPayload body) "inventory" <> JUndefined.
Proof.
  host_free.
  intros V Hk.
  destruct (validate_accepted body V)
    as (Ht & Hd & Hp & Hq & Hwho & Hwhen & Hsku & Htax).
  assert (Hdef : Js.is_undefined (Js.optget body k) = false).
  { simpl in Hk.
    destruct Hk as [<- | [<- | [<- | [<- | [<- | [<- | [<- | []]]]]]]].
    - apply defined_of_text, Ht.
    - apply defined_of_text, Hd.
    - exact Hp.
    - exact Hq.
    - apply (defined_of_member _ _ Hwho).
    - apply (defined_of_member _ _ Hwhen).
    - apply defined_of_truthy, Htax. }
  assert (Hin : In k payload_fields).
  { simpl in Hk. unfold payload_fields. simpl.
    destruct Hk as [<- | [<- | [<- | [<- | [<- | [<- | [<- | []]]]]]]]; tauto. }
  assert (Hcopy := buildPayload_copies body k Hin).
  split; [ exact Hcopy | ].
  split; [ destruct (Js.optget body k); discriminate || (intros E; discriminate E) | ].
  split; [ | split; [ | split; [ | split ] ] ].
  - rewrite Hcopy. simpl in Hk.
    destruct Hk as [<- | [<- | [<- | [<- | [<- | [<- | [<- | []]]]]]]];
      cbn [payload_v1 Js.optget Js.assoc String.eqb Ascii.eqb Bool.eqb];
      apply orDefault_defined; exact Hdef.
  - rewrite Hcopy. simpl in Hk.
    destruct Hk as [<- | [<- | [<- | [<- | [<- | [<- | [<- | []]]]]]]];
      cbn [payload_v2 Js.optget Js.assoc String.eqb Ascii.eqb Bool.eqb];
      apply orDefault_defined; exact Hdef.
  - rewrite buildPayload_copies by (unfold payload_fields; simpl; tauto).
    exact Hwho.
  - rewrite buildPayload_copies by (unfold payload_fields; simpl; tauto).
    exact Hwhen.
  - unfold buildPayload. cbv zeta. cbn [Js.optget].
    rewrite assoc_filter_defined.
    + rewrite Hsku.
      destruct (Js.truthy (Js.optget body "inventory")
                && Js.typeof_object (Js.optget body "inventory")) eqn:Hinv;
        rewrite assoc_assign; [ | discriminate ].
      apply andb_true_iff in Hinv. destruct Hinv as [Hinv _].
      destruct (Js.optget body "inventory"); discriminate.
    + rewrite Hsku.
      repeat match goal with
             | |- context [ if ?c then _ else _ ] => destruct c
             end;
        repeat first [ apply NoDup_keys_assign | apply NoDup_keys_setIf ];
        rewrite keys_copied; apply distinct_NoDup; reflexivity.
Qed.

(** X24. The first version destructures [req.body] as it is, outside its
    [try]: with a token stored, POST /listings throws, and leaves the
    request unanswered, exactly when the body is [undefined] or [null].
    The second version reads [req.body || {}]: its POST /listings and its
    GET /me never throw. *)
Theorem createListing_v1_throws (req_body : jsval) (w : World) :
  ((exists e w', createListing_v1 req_body w = (Throw e, w'))
   <-> Js.truthy (stored (storeOf w) "access_token") = true
       /\ Js.is_nullish req_body = true)
  /\ fst (createListing_v2 req_body w) = Ret tt
  /\ fst (me_v2 w) = Ret tt.
Proof.
  host_free.
  assert (T : forall (rq : HttpRequest) (k : HttpResponse -> M unit) w0,
             (forall r w1, fst (k r w1) = Ret tt) ->
             fst (try_catch (axios rq ≫= k)
                    (fun err : JsError =>
                       send (relayStatus err) (JsonBody (relayBody err))) w0)
             = Ret tt).
  { intros rq k w0 Hk. unfold try_catch, mbind, M_bind, bind, axios.
    destruct (upstream w0 (length (calls w0)) rq) as [r | err]; [ | reflexivity ].
    specialize (Hk r (set_calls (calls w0 ++ [rq]) w0)).
    destruct (k r (set_calls (calls w0 ++ [rq]) w0)) as [[[] | err] w2];
      [ reflexivity | discriminate Hk ]. }
  split; [ | split ].
  - unfold createListing_v1.
    erewrite bind_Ret by apply readTokens_storeOf.
    fold (stored (storeOf w) "access_token"). unfold Js.falsy.
    destruct (Js.truthy (stored (storeOf w) "access_token")); cbn [negb].
    + destruct (Js.is_nullish req_body).
      * split; [ tauto | ]. intros _. eexists _, _. reflexivity.
      * split; [ | intros [_ H]; discriminate H ].
        intros (e & w' & H). exfalso.
        match type of H with
        | try_catch (axios ?rq ≫= ?k) _ ?w0 = _ =>
            pose proof (T rq k w0 (fun r w1 => eq_refl)) as Hr
        end.
        rewrite H in Hr. discriminate Hr.
    + split; [ | intros [H _]; discriminate H ].
      intros (e & w' & H). discriminate H.
  - unfold createListing_v2.
    destruct (Js.truthy (stored (storeOf w) "access_token")) eqn:Ht;
      erewrite bind_Ret by (rewrite getAccessTokenOr401_run, Ht; reflexivity).
    + unfold Js.falsy. rewrite Ht. cbn [negb]. cbv zeta.
      apply T. reflexivity.
    + reflexivity.
  - unfold me_v2.
    destruct (Js.truthy (stored (storeOf w) "access_token")) eqn:Ht;
      erewrite bind_Ret by (rewrite getAccessTokenOr401_run, Ht; reflexivity).
    + unfold Js.falsy. rewrite Ht. cbn [negb].
      apply T. reflexivity.
    + reflexivity.
Qed.

(** ** The refresh path of the gate, and what no handler touches *)

(** X25. The refresh path of the access-token gate: when the probe is
    refused with a token error and the refresh call is accepted, the gate
    has made exactly these two calls, has sent nothing, has written the
    refreshed record under [etsy] (every other key of the store as it
    was), and returns the record's [access_token]. When the record has
    no usable [access_token], POST /listings returns at once: the
    refreshed record is stored but the request is left without an
    answer. *)
Theorem getValidAccessToken_refresh_path (req_body : jsval) (w : World)
  (err : JsError) (r : HttpResponse) :
  Js.truthy (stored (storeOf w) "access_token") = true ->
  upstream w (length (calls w)) (UsersMe (stored (storeOf w) "access_token"))
  = Rejected err ->
  tokenRejected err ->
  Js.truthy (stored (storeOf w) "refresh_token") = true ->
  upstream w (S (length (calls w)))
    (TokenRefresh (stored (storeOf w) "refresh_token")) = Resolved r ->
  isObject (data r) = true ->
  let w' := snd (getValidAccessToken w) in
  fst (getValidAccessToken w) = Ret (Js.optget (data r) "access_token")
  /\ calls w' = calls w ++ [ UsersMe (stored (storeOf w) "access_token");
                             TokenRefresh (stored (storeOf w) "refresh_token") ]
  /\ res w' = res w
  /\ Js.optget (storeOf w') "etsy" = jsonify (data r)
  /\ (forall k, k <> "etsy" ->
        Js.optget (storeOf w') k = Js.optget (jsonify (storeOf w)) k)
  /\ (Js.truthy (Js.optget (data r) "access_token") = false ->
      createListing req_body w = (Ret tt, w')).
Proof.
  intros Hat Hprobe Hrej Hrt Hrefresh Hobj w'.
  destruct (stored_object _ _ Hat) as (fs & Hfs).
  pose proof (storeOf_file w Hat) as Hfile. rewrite Hfs in *.
  assert (Hdata : Js.is_nullish (data r) = false)
    by (destruct (data r); try discriminate; reflexivity).
  pose proof (getValidAccessToken_refreshes w fs err r Hfile Hat Hprobe Hrej
                Hrt Hrefresh Hdata) as G.
  subst w'. rewrite G. cbn [fst snd calls res set_tokenFile set_calls].
  split; [ reflexivity | split; [ reflexivity | split; [ reflexivity | ] ] ].
  split; [ | split ].
  - unfold storeOf. cbn [tokenFile set_tokenFile].
    rewrite jsonify_object. cbn [Js.optget].
    apply assoc_jsonify_assign. destruct (data r); discriminate.
  - intros k Hk. unfold storeOf. cbn [tokenFile set_tokenFile].
    rewrite !jsonify_object. cbn [Js.optget].
    apply assoc_jsonify_assign_other. exact Hk.
  - intros Hnone.
    exact (createListing_gate_closed req_body _ w _ G Hnone).
Qed.

(** X26. A callback whose state is not in the PKCE store and is not the
    name of a property of [Object.prototype] is turned away: it is
    answered 400 "Missing PKCE verifier for this state. Try logging in
    again.", and nothing else happens: no upstream call, no change to the
    store, no write to the token file. *)
Theorem authCallback_rejects_unknown_state (q : CallbackQuery) (w : World) :
  callbackReachesLookup q ->
  pkceStore w !! param (q_state q) = None ->
  existsb (String.eqb (param (q_state q))) objectPrototype = false ->
  let w' := snd (authCallback q w) in
  fst (authCallback q w) = Ret tt
  /\ res w' = Some {| res_status := 400; res_body := Text msg_missing_verifier |}
  /\ calls w' = calls w
  /\ pkceStore w' = pkceStore w
  /\ tokenFile w' = tokenFile w.
Proof.
  intros Hq Hnone Hproto w'. subst w'.
  rewrite (authCallback_unknown_state q w Hq Hnone Hproto).
  repeat split.
Qed.

(** X27. The PKCE store belongs to the login and the callback: POST
    /token/refresh, the access-token gate, POST /listings on any body,
    and every handler of the two earlier versions modelled here leave it
    exactly as it was, whatever the upstream answers. *)
Theorem pkceStore_untouched :
  keeps pkceStore tokenRefresh
  /\ keeps pkceStore getValidAccessToken
  /\ (forall req_body, keeps pkceStore (createListing req_body))
  /\ (forall q, keeps pkceStore (authCallback_v1 q))
  /\ (forall req_body, keeps pkceStore (createListing_v1 req_body))
  /\ (forall req_body, keeps pkceStore (createListing_v2 req_body))
  /\ keeps pkceStore me_v2.
Proof.
  destruct pkceStore_kept_elsewhere as (H1 & H2 & H3).
  split; [ exact H1 | split; [ exact H2 | split; [ exact H3 | ] ] ].
  split; [ | split; [ | split ] ].
  - intros q. unfold authCallback_v1. frame.
  - intros req_body. unfold createListing_v1. frame.
  - intros req_body. unfold createListing_v2, getAccessTokenOr401. frame.
  - unfold me_v2, getAccessTokenOr401. frame.
Qed.

(** ** What POST /listings leaves alone *)

(** X28. POST /listings writes the token file only through its
    access-token gate: whatever the body and whatever the upstream
    answers, the file after the request is the file as the gate left it.
    Nothing after the gate, not the draft, the images, the inventory nor
    the video, touches it. *)
Theorem createListing_token_file (req_body : jsval) (w : World) :
  tokenFile (snd (createListing req_body w))
  = tokenFile (snd (getValidAccessToken w)).
Proof.
  unfold createListing. unfold mbind at 1. unfold M_bind, bind.
  destruct (getValidAccessToken w) as [[tok | e] w1]; [ | reflexivity ].
  cbn [snd].
  match goal with
  | |- tokenFile (snd (?rest w1)) = _ =>
      assert (H : keeps tokenFile rest)
  end.
  { unfold uploadImages, updateInventory, uploadVideo, ensureTmpDir.
    repeat first [ apply keeps_uploadAll; reflexivity | frame_step ]. }
  apply H.
Qed.

Lemma uploadImages_without_shop_id (tok listing image_files : jsval) :
  present SHOP_ID = false ->
  keeps calls (uploadImages tok listing image_files).
Proof.
  intros H. unfold uploadImages. rewrite H.
  destruct image_files as [ | | | | | [ | p files ] | ]; try solve [ frame ].
  apply keeps_bind; [ frame | ]. intros lid.
  rewrite andb_false_r. frame.
Qed.

(** X29. With [SHOP_ID] not set the images are skipped without a word:
    whatever [image_files] holds, POST /listings neither downloads nor
    uploads an image, and the handler goes on to the inventory update. *)
Theorem createListing_without_shop_id (req_body : jsval) (w : World) :
  present SHOP_ID = false ->
  exists new,
    calls (snd (createListing req_body w)) = calls w ++ new
    /\ Forall (fun rq => isImageCall rq = false) new.
Proof.
  intros Hshop.
  assert (L : logs (fun rq => isImageCall rq = false) 0 (createListing req_body)).
  { set (ok := fun rq => isImageCall rq = false).
    assert (Hgate : logs ok 0 getValidAccessToken).
    { unfold getValidAccessToken.
      apply (logs_bind ok 0 0);
        [ apply logs_keeps; unfold getAccessTokenOr401; frame | ].
      intros tok. destruct (Js.falsy tok); [ apply logs_keeps; frame | ].
      apply (logs_try_catch ok 0 0).
      - apply (logs_bind ok 0 0);
          [ apply logs_axios_other; reflexivity | ].
        intros _. apply logs_keeps. frame.
      - intros err. apply (logs_bind ok 0 0);
          [ apply logs_keeps, keeps_signalsExpired | ].
        intros [ | ]; [ | apply logs_keeps; frame ].
        apply (logs_try_catch ok 0 0); [ | intros e; apply logs_keeps; frame ].
        apply (logs_bind ok 0 0); [ apply logs_keeps; frame | ].
        intros store. destruct (Js.falsy _); [ apply logs_keeps; frame | ].
        apply (logs_bind ok 0 0); [ apply logs_axios_other; reflexivity | ].
        intros r. apply logs_keeps. frame. }
    unfold createListing.
    apply (logs_bind ok 0 0); [ exact Hgate | ].
    intros tok. destruct (Js.falsy tok); [ apply logs_keeps; frame | ].
    cbv zeta.
    apply (logs_bind ok 0 0); [ apply logs_keeps, keeps_validation | ].
    intros errors. destruct (negb _); [ apply logs_keeps; frame | ].
    apply (logs_try_catch ok 0 0); [ | intros e; apply logs_keeps; frame ].
    apply (logs_bind ok 0 0); [ apply logs_axios_other; reflexivity | ].
    intros r.
    apply (logs_bind ok 0 0);
      [ apply logs_keeps; unfold ensureTmpDir; frame | ].
    intros _.
    apply (logs_bind ok 0 0);
      [ apply logs_keeps, uploadImages_without_shop_id, Hshop | ].
    intros ids.
    apply (logs_bind ok 0 0); [ | intros results; apply logs_keeps; frame ].
    unfold updateInventory.
    apply (logs_bind ok 0 0); [ apply logs_keeps; frame | ].
    intros lid. destruct (_ && _); [ | apply logs_keeps; frame ].
    apply (logs_try_catch ok 0 0); [ | intros e; apply logs_keeps; frame ].
    apply (logs_bind ok 0 0); [ apply logs_keeps; frame | ].
    intros productsArr.
    apply (logs_bind ok 0 0); [ apply logs_axios_other; reflexivity | ].
    intros ri.
    apply (logs_bind ok 0 0); [ | intros v; apply logs_keeps; frame ].
    unfold uploadVideo.
    apply (logs_bind ok 0 0); [ apply logs_keeps; frame | ].
    intros [ | ]; [ | apply logs_keeps; frame ].
    apply (logs_try_catch ok 0 0); [ | intros e; apply logs_keeps; frame ].
    apply (logs_bind ok 0 0); [ apply logs_axios_other; reflexivity | ].
    intros v. apply logs_keeps. frame. }
  destruct (L w) as (new & E & F & _). exists new. split; assumption.
Qed.

End Listings.

(** * Concrete runs *)

Local Open Scope list_scope.

Local Abbreviation runCreateListing :=
  (createListing sampleStringToNumber sampleToString sampleExtname sampleShop).

Local Abbreviation runValidate :=
  (validate sampleStringToNumber sampleToString).

Example validBody_passes : runValidate validBody = [].
Proof. vm_compute. reflexivity. Qed.

Example emptyBody_errors :
  runValidate (JObject [])
  = [ err_title; err_description; err_price; err_quantity; err_who_made;
      err_when_made; err_sku; err_taxonomy ].
Proof. vm_compute. reflexivity. Qed.

Example isUrl_cases :
  isUrl "HTTPS://cdn.example/a.png" = true /\ isUrl "./images/a.png" = false.
Proof. split; reflexivity. Qed.

Example sampleExtname_cases :
  sampleExtname "https://cdn.example/a.png" = ".png"
  /\ sampleExtname "./images/photo" = "".
Proof. split; reflexivity. Qed.

(** ** The access-token gate, at the failing input of C2 *)

(** C2, at the failing input: the token file holds an access token and
    no refresh token, and the probe is refused with [invalid_token]. The
    gate returns [null] after the probe alone: no refresh is posted, the
    token file is untouched, and nothing is sent to the client, so that
    the handler of POST /listings returns without answering. *)
Theorem getValidAccessToken_silent_without_refresh_token :
  let w := startWorld expiredProbe (Content (Encodes staleStore)) ∅ in
  let gate := getValidAccessToken w in
  let handler := runCreateListing validBody w in
  fst gate = Ret JNull
  /\ calls (snd gate) = [ UsersMe (JString "stale-token") ]
  /\ tokenFile (snd gate) = tokenFile w
  /\ res (snd gate) = None
  /\ fst handler = Ret tt
  /\ calls (snd handler) = [ UsersMe (JString "stale-token") ]
  /\ res (snd handler) = None.
Proof. vm_compute. repeat split. Qed.

(** The sibling paths of the gate do answer: 401 when no access token is
    stored, and 401 when the refresh call is refused. *)
Example getValidAccessToken_siblings_answer :
  res_status <$> res (snd (getValidAccessToken signedOut)) = Some 401%Z
  /\ res_status <$>
       res (snd (getValidAccessToken
                   (startWorld (fun n rq =>
                                  match rq with
                                  | UsersMe _ => expiredProbe n rq
                                  | _ => refusing n rq
                                  end)
                               (Content (Encodes freshStore)) ∅)))
     = Some 401%Z.
Proof. vm_compute. split; reflexivity. Qed.

(** The refresh path on a concrete run. *)
Example getValidAccessToken_refresh_run :
  let up := fun (n : nat) (rq : HttpRequest) =>
              match rq with
              | UsersMe _ => expiredProbe n rq
              | _ => Resolved {| status := 200;
                                 data := JObject [ ("access_token", JString "token-2") ] |}
              end in
  let gate := getValidAccessToken (signedIn up) in
  fst gate = Ret (JString "token-2")
  /\ calls (snd gate) = [ UsersMe (JString "token-1");
                          TokenRefresh (JString "refresh-1") ]
  /\ tokenFile (snd gate)
     = Content (Encodes (JObject
         [ ("etsy", JObject [ ("access_token", JString "token-2") ]) ])).
Proof. vm_compute. repeat split. Qed.

(** ** Validation behind the gate: counterexamples and witnesses *)

Lemma signedIn_gate (up : nat -> HttpRequest -> HttpResult) :
  (forall n tok, exists r, up n (UsersMe tok) = Resolved r) ->
  getValidAccessToken (signedIn up)
  = (Ret (JString "token-1"),
     set_calls [ UsersMe (JString "token-1") ] (signedIn up)).
Proof.
  intros H. destruct (H 0 (JString "token-1")) as (r & Hr).
  unfold getValidAccessToken.
  erewrite bind_Ret
    by (apply (getAccessTokenOr401_stored _ freshStore); reflexivity).
  cbn [stored Js.optget Js.assoc String.eqb Ascii.eqb Bool.eqb
       freshStore Js.falsy Js.truthy negb].
  erewrite try_catch_Ret; [ reflexivity | ].
  erewrite bind_Ret by (apply axios_Resolved; exact Hr).
  reflexivity.
Qed.

Lemma accepting_gate :
  getValidAccessToken (signedIn accepting)
  = (Ret (JString "token-1"),
     set_calls [ UsersMe (JString "token-1") ] (signedIn accepting)).
Proof. apply signedIn_gate. intros n tok. eexists. reflexivity. Qed.

(** C3, the counterexample: no token is stored; the request with an
    empty body is answered 401 by the gate, not 400, and carries no
    error list. *)
Lemma createListing_signed_out_title :
  missingText (Js.optget (JObject []) "title")
  /\ missingText (Js.optget (JObject []) "description")
  /\ res_status <$> res (snd (runCreateListing (JObject []) signedOut))
     = Some 401%Z
  /\ ~ rejectedWith [ err_title; err_description ]
         (res (snd (runCreateListing (JObject []) signedOut))).
Proof.
  split; [ left; reflexivity | split; [ left; reflexivity | ] ].
  split; [ vm_compute; reflexivity | ].
  intros (errors & E & _). vm_compute in E. discriminate E.
Qed.

Lemma createListing_lists_title_and_description_witness :
  let w := signedIn accepting in
  let errors := runValidate (JObject []) in
  res (snd (runCreateListing (JObject []) w)) = Some (rejection errors)
  /\ calls (snd (runCreateListing (JObject []) w))
     = [ UsersMe (JString "token-1") ]
  /\ In err_title errors /\ In err_description errors.
Proof.
  exact (createListing_lists_title_and_description
           sampleStringToNumber sampleToString sampleExtname sampleShop
           (JObject []) (JString "token-1") (signedIn accepting) _
           accepting_gate eq_refl eq_refl
           (or_introl eq_refl) (or_introl eq_refl)).
Defined.

(** C7, the counterexample: no token is stored; the request with a
    [when_made] outside the list is answered 401 by the gate. *)
Lemma createListing_signed_out_when_made :
  Js.one_of when_made_values (Js.optget datedBody "when_made") = false
  /\ res_status <$> res (snd (runCreateListing datedBody signedOut))
     = Some 401%Z
  /\ ~ rejectedWith [ err_when_made ]
         (res (snd (runCreateListing datedBody signedOut))).
Proof.
  split; [ reflexivity | ]. split; [ vm_compute; reflexivity | ].
  intros (errors & E & _). vm_compute in E. discriminate E.
Qed.

Lemma datedBody_outside :
  forall s, In s when_made_values ->
            Js.optget (Js.or datedBody (JObject [])) "when_made" <> JString s.
Proof.
  intros s Hin E. injection E as <-.
  assert (Hm : Js.one_of when_made_values (JString "2020_2023") = true).
  { unfold Js.one_of. apply existsb_exists. exists "2020_2023".
    split; [ exact Hin | reflexivity ]. }
  vm_compute in Hm. discriminate Hm.
Qed.

Lemma createListing_rejects_when_made_witness :
  let w := signedIn accepting in
  res (snd (runCreateListing datedBody w))
  = Some (rejection (runValidate datedBody))
  /\ In err_when_made (runValidate datedBody).
Proof.
  destruct (createListing_rejects_when_made
              sampleStringToNumber sampleToString sampleExtname sampleShop
              datedBody (JString "token-1") (signedIn accepting) _
              accepting_gate eq_refl eq_refl datedBody_outside)
    as (H1 & H2 & _).
  exact (conj H1 H2).
Defined.



(** Validation that throws: the body is physical with a negative
    [item_weight], a missing [description] and a [when_made] that is
    absent, yet the request is not answered 400, nor at all:
    [Number(price)] throws before those checks, outside the [try]. *)
Example createListing_validation_throws_run :
  let out := runCreateListing shadowedBody (signedIn accepting) in
  validationThrows shadowedBody = true
  /\ fst out = Throw cannotConvert
  /\ res (snd out) = None
  /\ calls (snd out) = [ UsersMe (JString "token-1") ].
Proof. vm_compute. repeat split. Qed.

(** ** The image retry, at the failing input of C1 *)

(** C1, at the failing input: the draft is created and the upload of the
    first image is refused with a body whose [error] is a record, not a
    text. The refusal is not transient, yet [uploadImageWithRetry] does
    not return [null]: [errorMsg.includes] is not a function, so the
    [catch] block throws and the error leaves the function and the image
    loop. The handler answers 500 with that message although the draft
    exists; the second image is never tried and the inventory is never
    updated. *)
Theorem uploadImageWithRetry_throws_on_record_error :
  let w := signedIn recordErrors in
  let first :=
    uploadImageWithRetry sampleToString sampleExtname (JString "token-1")
      (JNumber 42) (JString "./images/mug-1.png") 0 3 w in
  let handler := runCreateListing localBody w in
  errorMsgOf recordRefusal = JObject [ ("code", JNumber 5) ]
  /\ fst first = Throw (TypeError "errorMsg.includes is not a function")
  /\ calls (snd first)
     = [ UploadImage (JString "token-1") (JNumber 42) "./images/mug-1.png" "1" ]
  /\ fst handler = Ret tt
  /\ res (snd handler)
     = Some {| res_status := 500;
               res_body := JsonBody (JObject
                 [ ("error", JString "errorMsg.includes is not a function") ]) |}
  /\ calls (snd handler)
     = [ UsersMe (JString "token-1");
         CreateListing (JString "token-1") (buildPayload localBody);
         UploadImage (JString "token-1") (JNumber 42) "./images/mug-1.png" "1" ].
Proof. vm_compute. repeat split. Qed.

(** The same request when the refusal carries a text: the first image is
    given up after one attempt, the second is tried, and the request is
    answered 200 with an empty [listing_images_id]. *)
Example createListing_text_refusal_run :
  let up := fun (n : nat) (rq : HttpRequest) =>
              match rq with
              | UploadImage _ _ _ _ =>
                  Rejected (httpError 400
                              (JObject [ ("error", JString "Invalid image") ]))
              | _ => drafting n rq
              end in
  let handler := runCreateListing localBody (signedIn up) in
  res (snd handler)
  = Some (created (JObject [ ("listing_id", JNumber 42);
                             ("state", JString "draft") ]) [] JNull JNull)
  /\ List.filter isUpload (calls (snd handler))
     = [ UploadImage (JString "token-1") (JNumber 42) "./images/mug-1.png" "1";
         UploadImage (JString "token-1") (JNumber 42) "./images/mug-2.png" "2" ].
Proof. vm_compute. split; reflexivity. Qed.

Lemma locked_transient :
  forall n rq e, locked n rq = Rejected e -> transientMessage e.
Proof.
  intros n rq e H. injection H as <-. exists lockedMessage.
  split; reflexivity.
Qed.

(** The bound, on a listing that stays locked: three attempts, two
    pauses, and [null]. *)
Example uploadImageWithRetry_locked_run :
  let attemptCall :=
    UploadImage (JString "token-1") (JNumber 42) "./images/mug.png" "1" in
  uploadImageWithRetry sampleToString sampleExtname
    (JString "token-1") (JNumber 42) (JString "./images/mug.png") 0 3
    (signedIn locked)
  = (Ret JNull,
     set_slept 4000
       (set_calls [ attemptCall; attemptCall; attemptCall ] (signedIn locked))).
Proof.
  cbv zeta.
  rewrite (uploadImageWithRetry_locked sampleToString sampleExtname
             (JString "token-1") (JNumber 42) "./images/mug.png" 0 eq_refl
             (signedIn locked)).
  - reflexivity.
  - intros k _. eexists. split; [ reflexivity | ].
    exact (locked_transient 0 (UsersMe JNull) _ eq_refl).
Qed.

(** Giving up at once, on a refusal that is not transient. *)
Example uploadImageWithRetry_refused_run :
  uploadImageWithRetry sampleToString sampleExtname
    (JString "token-1") (JNumber 42) (JString "b.png") 1 3
    (signedIn imageService)
  = (Ret JNull,
     set_calls [ UploadImage (JString "token-1") (JNumber 42) "b.png" "2" ]
       (signedIn imageService)).
Proof.
  refine (uploadImageWithRetry_refused sampleToString sampleExtname
            (JString "token-1") (JNumber 42) "b.png" 1 eq_refl 2
            (signedIn imageService)
            (httpError 400 (JObject [ ("error", JString "Invalid image") ]))
            eq_refl _).
  right. left. eexists. split; reflexivity.
Qed.

(** ** Witnesses for the relayed failures *)

Lemma createRefused_probe :
  forall n tok, exists r, createRefused n (UsersMe tok) = Resolved r.
Proof. intros n tok. eexists. reflexivity. Qed.

Lemma validBody_valid :
  validate sampleStringToNumber sampleToString (Js.or validBody (JObject []))
  = [].
Proof. vm_compute. reflexivity. Qed.

Lemma upstream_failure_answers_witness :
  res (snd (runCreateListing validBody (signedIn createRefused)))
  = Some {| res_status := 403;
            res_body := JsonBody (JObject
              [ ("error", JObject [ ("error", JString "Shop is not allowed") ]) ]) |}
  /\ res (snd (authCallback (callbackOf "abc" "s1")
                 (startWorld refusing Missing {[ "s1" := sampleEntry ]})))
     = Some {| res_status := 500; res_body := Text msg_exchange_failed |}
  /\ res (snd (tokenRefresh (signedIn refusing)))
     = Some {| res_status := 500; res_body := Text "Token refresh failed." |}.
Proof.
  split; [ | split ].
  - exact (proj1 (upstream_failure_answers
                    sampleStringToNumber sampleToString sampleExtname sampleShop
                    (set_calls [ UsersMe (JString "token-1") ]
                               (signedIn createRefused))
                    forbidden)
             validBody (JString "token-1") (signedIn createRefused)
             (signedIn_gate createRefused createRefused_probe)
             eq_refl validBody_valid eq_refl).
  - refine (proj1 (proj2 (upstream_failure_answers
                    sampleStringToNumber sampleToString sampleExtname sampleShop
                    (startWorld refusing Missing {[ "s1" := sampleEntry ]})
                    refused401))
             (callbackOf "abc" "s1") _ _ _).
    + repeat split.
    + vm_compute. discriminate.
    + vm_compute. reflexivity.
  - refine (proj2 (proj2 (upstream_failure_answers
                    sampleStringToNumber sampleToString sampleExtname sampleShop
                    (signedIn refusing) refused401))
             freshStore _ _ _); reflexivity.
Defined.

(** ** The image loop on a concrete run *)

Example uploadAll_run :
  let w := startWorld imageService Missing ∅ in
  let r := uploadAll sampleToString sampleExtname (JString "token-1")
             (JNumber 42)
             [ JString "a.png"; JString "b.png"; JString "c.png" ] 0 [] w in
  fst r = Ret [ JString "img-a.png"; JString "img-c.png" ]
  /\ calls (snd r)
     = [ UploadImage (JString "token-1") (JNumber 42) "a.png" "1";
         UploadImage (JString "token-1") (JNumber 42) "b.png" "2";
         UploadImage (JString "token-1") (JNumber 42) "c.png" "3" ]
  /\ acceptedIds sampleToString imageService 0 (calls (snd r))
     = [ JString "img-a.png"; JString "img-c.png" ].
Proof. vm_compute. repeat split. Qed.

(** A URL entry between two local ones, and an upstream whose ids cannot
    be converted: the log is in the order of the entries, and no id is
    returned. *)
Example uploadAll_mixed_run :
  let files := [ JString "a.png"; JString "https://cdn.example/b.png";
                 JNumber 7; JString "c.png" ] in
  let r := uploadAll sampleToString sampleExtname (JString "token-1")
             (JNumber 42) files 0 [] (startWorld opaqueIds Missing ∅) in
  fst r = Ret []
  /\ calls (snd r)
     = [ UploadImage (JString "token-1") (JNumber 42) "a.png" "1";
         DownloadImage (JString "https://cdn.example/b.png");
         UploadImage (JString "token-1") (JNumber 42)
           "0f1e2d3c4b5a6978.png" "2";
         UploadImage (JString "token-1") (JNumber 42) "c.png" "4" ]
  /\ tmpFiles (snd r) = [].
Proof. vm_compute. repeat split. Qed.

(** ** Runs of the further properties *)

Lemma drafting_gate :
  getValidAccessToken (signedIn drafting)
  = (Ret (JString "token-1"),
     set_calls [ UsersMe (JString "token-1") ] (signedIn drafting)).
Proof. apply signedIn_gate. intros n tok. eexists. reflexivity. Qed.

Example createListing_call_bound_run :
  length (calls (snd (runCreateListing picturedBody (signedIn drafting)))) = 6.
Proof. vm_compute. reflexivity. Qed.

Lemma createListing_leaves_no_temp_file_witness :
  let w := set_tmpFiles [ "old.png" ] (signedIn drafting) in
  In "old.png" (tmpFiles (snd (runCreateListing picturedBody w)))
  /\ In "old.png" (tmpFiles w).
Proof.
  cbv zeta.
  assert (H : In "old.png"
                (tmpFiles (snd (runCreateListing picturedBody
                                  (set_tmpFiles [ "old.png" ] (signedIn drafting))))))
    by (vm_compute; left; reflexivity).
  exact (conj H (createListing_leaves_no_temp_file
                   sampleStringToNumber sampleToString sampleExtname sampleShop
                   picturedBody _ "old.png" H)).
Defined.

Lemma createListing_without_token_witness :
  res (snd (runCreateListing validBody signedOut))
  = Some {| res_status := 401;
            res_body := Text "No access token available. Authenticate via /auth/login" |}.
Proof.
  cbv zeta.
  rewrite (createListing_without_token
             sampleStringToNumber sampleToString sampleExtname sampleShop
             validBody signedOut eq_refl).
  reflexivity.
Defined.

Lemma getValidAccessToken_accepted_witness :
  getValidAccessToken (signedIn accepting)
  = (Ret (JString "token-1"),
     set_calls [ UsersMe (JString "token-1") ] (signedIn accepting)).
Proof.
  cbv zeta.
  exact (getValidAccessToken_accepted (signedIn accepting)
           {| status := 200; data := JObject [] |} eq_refl eq_refl).
Defined.

Lemma unavailable_notTokenError : notTokenError unavailable.
Proof. split; [ discriminate | left; reflexivity ]. Qed.

Lemma createListing_probe_failure_unanswered_witness :
  let w := signedIn (fun _ _ => Rejected unavailable) in
  fst (runCreateListing validBody w) = Throw unavailable
  /\ res (snd (runCreateListing validBody w)) = None.
Proof.
  cbv zeta.
  destruct (createListing_probe_failure_unanswered
              sampleStringToNumber sampleToString sampleExtname sampleShop
              validBody (signedIn (fun _ _ => Rejected unavailable)) unavailable
              eq_refl eq_refl unavailable_notTokenError) as (_ & H & _).
  rewrite H. split; reflexivity.
Defined.

Lemma expired_tokenRejected :
  tokenRejected
    (httpError 401 (JObject [ ("error", JString "invalid_token");
                              ("error_description",
                               JString "access token is expired") ])).
Proof. left. reflexivity. Qed.

Lemma getValidAccessToken_refresh_refused_witness :
  let w := signedIn (expiredThen refusing) in
  fst (getValidAccessToken w) = Ret JNull
  /\ res (snd (runCreateListing validBody w))
     = Some {| res_status := 401;
               res_body := Text "Token refresh failed. Re-authenticate." |}
  /\ tokenFile (snd (runCreateListing validBody w)) = tokenFile w.
Proof.
  cbv zeta.
  destruct (getValidAccessToken_refresh_refused
              sampleStringToNumber sampleToString sampleExtname sampleShop
              validBody (signedIn (expiredThen refusing)) _ refused401
              eq_refl eq_refl expired_tokenRejected eq_refl eq_refl)
    as (H1 & H2 & _).
  rewrite H1, H2. repeat split.
Defined.

Lemma tokenRefresh_without_refresh_token_witness :
  let w := startWorld accepting (Content (Encodes staleStore)) ∅ in
  calls (snd (tokenRefresh w)) = []
  /\ res_status <$> res (snd (tokenRefresh w)) = Some 400%Z.
Proof.
  cbv zeta.
  rewrite (tokenRefresh_without_refresh_token
             (startWorld accepting (Content (Encodes staleStore)) ∅) eq_refl).
  split; reflexivity.
Defined.

Lemma tokenRefresh_persists_witness :
  let w' := snd (tokenRefresh (signedIn drafting)) in
  calls w' = [ TokenRefresh (JString "refresh-1") ]
  /\ stored (storeOf w') "access_token" = JString "token-2".
Proof.
  cbv zeta.
  destruct (tokenRefresh_persists (signedIn drafting)
              {| status := 200; data := grant |} eq_refl eq_refl eq_refl)
    as (_ & H1 & _ & H2 & _).
  split; [ exact H1 | ]. unfold stored. rewrite H2. reflexivity.
Defined.

Lemma tokenRefresh_overwrites_with_any_body_witness :
  let w' := snd (tokenRefresh (signedIn garbled)) in
  stored (storeOf w') "refresh_token" = JUndefined
  /\ res_status <$> res w' = Some 200%Z.
Proof.
  cbv zeta.
  assert (D : JString "ok" <> JUndefined) by discriminate.
  destruct (tokenRefresh_overwrites_with_any_body (signedIn garbled)
              {| status := 200; data := JString "ok" |} eq_refl eq_refl eq_refl D)
    as (H1 & _ & H2).
  exact (conj H1 H2).
Defined.

Lemma buildPayload_fields_witness :
  In ("item_weight", JNumber 2)
     (payloadOf boxedBody)
  /\ isPhysical (Js.optget boxedBody "type") = true
  /\ validPositiveNumber (JNumber 2) = true.
Proof.
  cbv zeta.
  assert (H : In ("item_weight", JNumber 2)
                 (payloadOf boxedBody))
    by (vm_compute; tauto).
  destruct (buildPayload_fields boxedBody
              "item_weight" (JNumber 2) H) as (_ & _ & Hd & _).
  destruct (Hd (or_introl eq_refl)) as (Hp & _ & Hv).
  exact (conj H (conj Hp Hv)).
Defined.

Lemma createListing_answers_past_gate_witness :
  fst (runCreateListing validBody (signedIn accepting)) = Ret tt
  /\ runCreateListing shadowedBody (signedIn accepting)
     = (Throw cannotConvert,
        set_calls [ UsersMe (JString "token-1") ] (signedIn accepting)).
Proof.
  cbv zeta. split.
  - exact (proj1 (createListing_answers_past_gate
                    sampleStringToNumber sampleToString sampleExtname sampleShop
                    validBody (JString "token-1") (signedIn accepting) _
                    accepting_gate eq_refl)).
  - exact (createListing_answers_past_gate
             sampleStringToNumber sampleToString sampleExtname sampleShop
             shadowedBody (JString "token-1") (signedIn accepting) _
             accepting_gate eq_refl).
Defined.

Lemma createListing_draft_without_images_witness :
  exists inventory video,
    res (snd (runCreateListing validBody (signedIn accepting)))
    = Some (created (JObject []) [] inventory video).
Proof.
  cbv zeta.
  exact (proj2 (createListing_draft_without_images
                  sampleStringToNumber sampleToString sampleExtname sampleShop
                  validBody (JString "token-1") (signedIn accepting) _
                  {| status := 200; data := JObject [] |}
                  accepting_gate eq_refl validBody_valid eq_refl eq_refl eq_refl)).
Defined.

Lemma shadowedSkuBody_valid :
  validate sampleStringToNumber sampleToString
    (Js.or shadowedSkuBody (JObject [])) = [].
Proof. vm_compute. reflexivity. Qed.

Lemma createListing_inventory_failure_hidden_witness :
  res (snd (runCreateListing validBody (signedIn drafting)))
  = Some (created (JObject [ ("listing_id", JNumber 42);
                             ("state", JString "draft") ]) [] JNull JNull)
  /\ (exists payload,
        calls (snd (runCreateListing validBody (signedIn drafting)))
        = [ UsersMe (JString "token-1") ]
          ++ [ CreateListing (JString "token-1") (buildPayload validBody);
               UpdateInventory (JString "token-1") (JNumber 42) payload ])
  /\ calls (snd (runCreateListing shadowedSkuBody (signedIn drafting)))
     = [ UsersMe (JString "token-1") ]
       ++ [ CreateListing (JString "token-1") (buildPayload shadowedSkuBody) ].
Proof.
  cbv zeta.
  pose proof (createListing_inventory_failure_hidden
                sampleStringToNumber sampleToString sampleExtname sampleShop
                validBody (JString "token-1") (signedIn drafting) _
                {| status := 201;
                   data := JObject [ ("listing_id", JNumber 42);
                                     ("state", JString "draft") ] |}
                forbidden
                drafting_gate eq_refl validBody_valid eq_refl eq_refl eq_refl
                (fun payload => eq_refl)) as H1.
  pose proof (createListing_inventory_failure_hidden
                sampleStringToNumber sampleToString sampleExtname sampleShop
                shadowedSkuBody (JString "token-1") (signedIn drafting) _
                {| status := 201;
                   data := JObject [ ("listing_id", JNumber 42);
                                     ("state", JString "draft") ] |}
                forbidden
                drafting_gate eq_refl shadowedSkuBody_valid eq_refl eq_refl
                eq_refl (fun payload => eq_refl)) as H2.
  exact (conj (proj1 H1) (conj (proj2 H1) (proj2 H2))).
Defined.

Lemma lockedOnce_transient :
  transientMessage (httpError 409 (JObject [ ("error", JString lockedMessage) ])).
Proof. exists lockedMessage. split; reflexivity. Qed.

Lemma uploadImageWithRetry_recovers_witness :
  let out := uploadImageWithRetry sampleToString sampleExtname
               (JString "token-1") (JNumber 42) (JString "./images/mug.png")
               0 3 (startWorld lockedOnce Missing ∅) in
  fst out = Ret (JString "img-./images/mug.png")
  /\ slept (snd out) = 2000.
Proof.
  cbv zeta.
  destruct (uploadImageWithRetry_recovers sampleToString sampleExtname
              (JString "token-1") (JNumber 42) "./images/mug.png" 0
              (startWorld lockedOnce Missing ∅) _
              {| status := 201;
                 data := JObject [ ("listing_image_id",
                                    JString "img-./images/mug.png") ] |}
              eq_refl eq_refl lockedOnce_transient eq_refl eq_refl)
    as (H1 & _ & H2).
  exact (conj H1 H2).
Defined.

Lemma uploadImageWithRetry_url_witness :
  let out := uploadImageWithRetry sampleToString sampleExtname
               (JString "token-1") (JNumber 42)
               (JString "https://cdn.example/mug.png")
               0 3 (startWorld imageService Missing ∅) in
  calls (snd out)
  = [ DownloadImage (JString "https://cdn.example/mug.png");
      UploadImage (JString "token-1") (JNumber 42) "0f1e2d3c4b5a6978.png" "1" ]
  /\ ~ In "0f1e2d3c4b5a6978.png" (tmpFiles (snd out)).
Proof.
  cbv zeta.
  destruct (uploadImageWithRetry_url sampleToString sampleExtname
              (JString "token-1") (JNumber 42) "https://cdn.example/mug.png" 0
              (startWorld imageService Missing ∅)
              {| status := 200; data := JObject [] |}
              {| status := 201;
                 data := JObject [ ("listing_image_id",
                                    JString "img-0f1e2d3c4b5a6978.png") ] |}
              eq_refl eq_refl eq_refl eq_refl)
    as (_ & H1 & H2 & _).
  exact (conj H1 H2).
Defined.

Lemma callbackOf_reaches (code state : string) :
  code <> "" -> state <> "" -> callbackReachesLookup (callbackOf code state).
Proof.
  intros Hc Hs. split; [ reflexivity | ].
  split; apply negb_true_iff, String.eqb_neq; assumption.
Qed.

Lemma authCallback_stores_tokens_witness :
  let w := startWorld drafting Missing {[ "s1" := sampleEntry ]} in
  let w' := snd (authCallback (callbackOf "abc" "s1") w) in
  calls w' = [ TokenExchange "abc" (JString "verifier-1") ]
  /\ stored (storeOf w') "access_token" = JString "token-2"
  /\ pkceStore w' !! "s1" = None.
Proof.
  cbv zeta.
  assert (Hq : callbackReachesLookup (callbackOf "abc" "s1"))
    by (apply callbackOf_reaches; discriminate).
  assert (He : pkceStore (startWorld drafting Missing {[ "s1" := sampleEntry ]})
               !! param (q_state (callbackOf "abc" "s1")) = Some sampleEntry)
    by (vm_compute; reflexivity).
  destruct (authCallback_stores_tokens (callbackOf "abc" "s1")
              (startWorld drafting Missing {[ "s1" := sampleEntry ]})
              sampleEntry {| status := 200; data := grant |}
              Hq He eq_refl eq_refl eq_refl)
    as (_ & H1 & _ & H2 & _ & H3).
  split; [ exact H1 | split; [ | exact H3 ] ].
  unfold stored. rewrite H2. reflexivity.
Defined.

Lemma authCallback_discards_tokens_witness :
  let w := startWorld drafting (Content (Encodes JNull)) {[ "s1" := sampleEntry ]} in
  let w' := snd (authCallback (callbackOf "abc" "s1") w) in
  stored (storeOf w') "access_token" = JUndefined
  /\ res_status <$> res w' = Some 500%Z.
Proof.
  cbv zeta.
  assert (Hq : callbackReachesLookup (callbackOf "abc" "s1"))
    by (apply callbackOf_reaches; discriminate).
  assert (He : pkceStore (startWorld drafting (Content (Encodes JNull))
                            {[ "s1" := sampleEntry ]})
               !! param (q_state (callbackOf "abc" "s1")) = Some sampleEntry)
    by (vm_compute; reflexivity).
  destruct (authCallback_discards_tokens (callbackOf "abc" "s1")
              (startWorld drafting (Content (Encodes JNull))
                          {[ "s1" := sampleEntry ]})
              sampleEntry {| status := 200; data := grant |}
              Hq He eq_refl eq_refl eq_refl)
    as (H1 & H2 & _).
  exact (conj H1 H2).
Defined.

Example base64URLEncode_verifier :
  String.length (base64URLEncode (sampleBytes 0)) = 43
  /\ base64URLEncode (sampleDigest "") = "-_v7-_v7-_v7-_v7-_v7-_v7-_v7-_v7-_v7-_v7-_s".
Proof. split; vm_compute; reflexivity. Qed.

Lemma authLogin_then_callback_witness :
  let w := startWorld drafting Missing ∅ in
  let w1 := snd (authLogin sampleBytes sampleDigest (Some "app-key")
                   (Some "http://localhost:3000/auth/callback") 17 w) in
  let w2 := snd (authCallback (callbackOf "abc" "0f1e2d3c4b5a6978") w1) in
  calls w2
  = [ TokenExchange "abc" (JString (base64URLEncode (sampleBytes 0))) ]
  /\ res_status <$> res (snd (authCallback (callbackOf "abc" "0f1e2d3c4b5a6978") w2))
     = Some 400%Z.
Proof.
  cbv zeta.
  assert (Hs : "0f1e2d3c4b5a6978" <> "") by discriminate.
  assert (Hc : "abc" <> "") by discriminate.
  destruct (authLogin_then_callback sampleBytes sampleDigest (Some "app-key")
              (Some "http://localhost:3000/auth/callback") 17 "abc"
              (startWorld drafting Missing ∅) Hs Hc eq_refl)
    as (_ & _ & H1 & H2).
  split; [ exact H1 | ].
  exact (f_equal (fun o : Outcome unit * World => res_status <$> res (snd o)) H2).
Defined.

Lemma authCallback_v1_echoes_tokens_witness :
  let w' := snd (authCallback_v1 (callbackOf "abc" "any-state")
                   (startWorld drafting Missing ∅)) in
  stored (storeOf w') "refresh_token" = JString "refresh-2"
  /\ calls w' = [ TokenExchange "abc" JUndefined ].
Proof.
  cbv zeta.
  destruct (authCallback_v1_echoes_tokens (callbackOf "abc" "any-state")
              (startWorld drafting Missing ∅)
              {| status := 200; data := grant |}
              eq_refl eq_refl eq_refl eq_refl)
    as (_ & H1 & H2 & _).
  split; [ | exact H1 ]. unfold stored. rewrite H2. reflexivity.
Defined.

Lemma accepted_payload_witness :
  Js.optget (payload_v2 validBody) "who_made" = JString "i_did"
  /\ Js.optget (buildPayload validBody) "inventory" <> JUndefined.
Proof.
  cbv zeta.
  destruct (accepted_payload sampleStringToNumber sampleToString validBody
              "who_made" validBody_passes
              (or_intror (or_intror (or_intror (or_intror (or_introl eq_refl))))))
    as (H0 & _ & _ & H2 & _ & _ & H3).
  split; [ rewrite H2, H0; reflexivity | exact H3 ].
Defined.

Lemma getValidAccessToken_refresh_path_witness :
  let w := signedIn (expiredThen drafting) in
  fst (getValidAccessToken w) = Ret (JString "token-2")
  /\ calls (snd (getValidAccessToken w))
     = [ UsersMe (JString "token-1"); TokenRefresh (JString "refresh-1") ].
Proof.
  cbv zeta.
  destruct (getValidAccessToken_refresh_path
              sampleStringToNumber sampleToString sampleExtname sampleShop
              validBody (signedIn (expiredThen drafting)) _
              {| status := 200; data := grant |}
              eq_refl eq_refl expired_tokenRejected eq_refl eq_refl eq_refl)
    as (H1 & H2 & _).
  exact (conj H1 H2).
Defined.

Lemma authCallback_rejects_unknown_state_witness :
  let w := startWorld drafting Missing {[ "s1" := sampleEntry ]} in
  let w' := snd (authCallback (callbackOf "abc" "s2") w) in
  res_status <$> res w' = Some 400%Z /\ calls w' = [].
Proof.
  cbv zeta.
  assert (Hq : callbackReachesLookup (callbackOf "abc" "s2"))
    by (apply callbackOf_reaches; discriminate).
  assert (He : pkceStore (startWorld drafting Missing {[ "s1" := sampleEntry ]})
               !! param (q_state (callbackOf "abc" "s2")) = None)
    by (vm_compute; reflexivity).
  destruct (authCallback_rejects_unknown_state (callbackOf "abc" "s2")
              (startWorld drafting Missing {[ "s1" := sampleEntry ]})
              Hq He eq_refl)
    as (_ & H1 & H2 & _).
  split; [ rewrite H1; reflexivity | exact H2 ].
Defined.

Lemma createListing_without_shop_id_witness :
  exists new,
    calls (snd (createListing sampleStringToNumber sampleToString sampleExtname
                  None picturedBody (signedIn drafting)))
    = calls (signedIn drafting) ++ new
    /\ Forall (fun rq => isImageCall rq = false) new.
Proof.
  exact (createListing_without_shop_id
           sampleStringToNumber sampleToString sampleExtname None
           picturedBody (signedIn drafting) eq_refl).
Defined.

Example createListing_without_shop_id_run :
  calls (snd (createListing sampleStringToNumber sampleToString sampleExtname
                None picturedBody (signedIn drafting)))
  = [ UsersMe (JString "token-1");
      CreateListing (JString "token-1") (buildPayload picturedBody);
      UpdateInventory (JString "token-1") (JNumber 42)
        (JObject [ ("products",
                    JArray [ skuProduct
                               (JNumber (sampleStringToNumber "MUG-1"))
                               (JNumber 12.5) (JNumber 3) ]) ]) ].
Proof. vm_compute. reflexivity. Qed.
